(** * PulseGen backend: video pipeline, sensitivity engine and range streaming

    A shallow embedding of [src/utils/videoProcessor.js], [src/models/Video.js],
    [src/server.js] and the video routes (the router that [server.js] mounts
    under [/api/videos]):

    - JavaScript numbers are modelled by [JsNum.t]: rationals extended with
      the two infinities and NaN. The pipeline is modelled with the exact
      operations of [JsNum]; the scoring of a frame and the classification
      are also given in IEEE 754 binary64, every operation rounded to the
      nearest double ([Binary64], [Doubles]);
    - asynchronous handlers are sequential programs in a state-and-exception
      monad over a [World] (database, directories, emitted events, external
      calls);
    - external tools (ffmpeg, ffprobe, sharp, Math.random, eval, jwt.verify,
      making and removing directories, removing files) are oracles of an
      environment record;
    - [save()] stores the document as it is; the validators of the schema
      are [Schema.schema_accepts], and the theorems on where a run of the
      pipeline ends assume that the documents it saves pass them;
    - a look-up by id is a look-up among the stored documents: an id that
      does not cast to an ObjectId, for which Mongoose throws, is not
      modelled. *)

From Stdlib Require Import ZArith QArith Qround Qminmax Qpower Lqa.
From Stdlib Require Import String Ascii List Bool Lia.
From Stdlib Require Import DecimalString DecimalN.
From stdpp Require Import base gmap strings list.
Import ListNotations.

Local Open Scope Z_scope.
Local Open Scope string_scope.
Local Open Scope list_scope.

(** ** JavaScript numbers *)

Module JsNum.

Inductive t : Type :=
| Num (q : Q)
| PInf
| NInf
| NaN.

Definition of_Z (z : Z) : t := Num (inject_Z z).
Definition of_nat (n : nat) : t := of_Z (Z.of_nat n).

(** Equality of numbers up to the representation of the rational. *)
Definition eqv (x y : t) : Prop :=
  match x, y with
  | Num a, Num b => (a == b)%Q
  | PInf, PInf | NInf, NInf | NaN, NaN => True
  | _, _ => False
  end.

Definition is_finite (x : t) : Prop :=
  match x with Num _ => True | _ => False end.

(** The ordering of IEEE values: every comparison with NaN is undefined. *)
Definition cmp (x y : t) : option comparison :=
  match x, y with
  | NaN, _ | _, NaN => None
  | Num a, Num b => Some (a ?= b)%Q
  | PInf, PInf | NInf, NInf => Some Eq
  | PInf, _ | _, NInf => Some Gt
  | _, PInf | NInf, _ => Some Lt
  end.

(** [x > y] and [x < y]: false as soon as one side is NaN. *)
Definition gt (x y : t) : bool :=
  match cmp x y with Some Gt => true | _ => false end.
Definition lt (x y : t) : bool :=
  match cmp x y with Some Lt => true | _ => false end.

(** [Math.min] and [Math.max]: NaN as soon as one argument is NaN. *)
Definition min (x y : t) : t :=
  match cmp x y with None => NaN | Some Gt => y | Some _ => x end.
Definition max (x y : t) : t :=
  match cmp x y with None => NaN | Some Lt => y | Some _ => x end.

Definition neg (x : t) : t :=
  match x with Num a => Num (- a) | PInf => NInf | NInf => PInf | NaN => NaN end.

Definition add (x y : t) : t :=
  match x, y with
  | NaN, _ | _, NaN => NaN
  | Num a, Num b => Num (a + b)
  | PInf, NInf | NInf, PInf => NaN
  | PInf, _ | _, PInf => PInf
  | NInf, _ | _, NInf => NInf
  end.

Definition sub (x y : t) : t := add x (neg y).

(** Sign of a value, [None] for zero and NaN. *)
Definition sign (x : t) : option bool :=
  match x with
  | Num a => match (a ?= 0)%Q with Gt => Some true | Lt => Some false | Eq => None end
  | PInf => Some true
  | NInf => Some false
  | NaN => None
  end.

Definition inf_of_signs (s1 s2 : bool) : t :=
  if eqb s1 s2 then PInf else NInf.

Definition mul (x y : t) : t :=
  match x, y with
  | NaN, _ | _, NaN => NaN
  | Num a, Num b => Num (a * b)
  | _, _ =>
      match sign x, sign y with
      | Some s1, Some s2 => inf_of_signs s1 s2
      | _, _ => NaN
      end
  end.

(** Division; a zero divisor is taken as [+0]. *)
Definition div (x y : t) : t :=
  match x, y with
  | NaN, _ | _, NaN => NaN
  | Num a, Num b =>
      if Qeq_bool b 0
      then match sign x with Some true => PInf | Some false => NInf | None => NaN end
      else Num (a / b)
  | Num _, _ => Num 0
  | _, Num _ =>
      match sign x, sign y with
      | Some s1, Some s2 => inf_of_signs s1 s2
      | Some s1, None => inf_of_signs s1 true
      | None, _ => NaN
      end
  | _, _ => NaN
  end.

(** [Math.round]: the nearest integer, halves going up. *)
Definition round (x : t) : t :=
  match x with
  | Num a => Num (inject_Z (Qfloor (a + (1 # 2))))
  | _ => x
  end.

(** [Math.round(x * 100) / 100]. *)
Definition round2 (x : t) : t := div (round (mul x (Num 100))) (Num 100).

(** JavaScript truthiness of a number: neither [0] nor NaN. *)
Definition truthy (x : t) : bool :=
  match x with
  | Num a => negb (Qeq_bool a 0)
  | NaN => false
  | _ => true
  end.

End JsNum.

Abbreviation JNum := JsNum.t.

(** ** Per-frame scoring and classification ([videoProcessor.js]) *)

Module Sensitivity.

Import JsNum.

Inductive AnalysisStatus := st_pending | st_processing | st_completed | st_failed | st_skipped.
Inductive Verdict := safe | flagged | under_review.

(** What [sharp] reports for one frame: its size and per-channel statistics. *)
Record ChannelStats := { mean : Q; stdev : Q }.
Record SharpImage := { img_width : nat; img_height : nat; channels : list ChannelStats }.

Record FrameAnalysis := {
  suspicionScore : JNum;
  brightness : JNum;
  contrast : JNum;
  width : nat;
  height : nat
}.

Definition channel_average (f : ChannelStats -> Q) (cs : list ChannelStats) : JNum :=
  div (Num (fold_left (fun sum channel => (sum + f channel)%Q) cs 0%Q))
      (of_nat (length cs)).

(** [analyzeFrame]: [image] is [None] when sharp throws, [random] is the
    value [Math.random()] returns for this frame. *)
Definition analyzeFrame (image : option SharpImage) (random : Q) : option FrameAnalysis :=
  match image with
  | None => None
  | Some img =>
      let brightness := channel_average mean (channels img) in
      let contrast := channel_average stdev (channels img) in
      let s0 := 0%Q in
      let s1 := if lt brightness (Num 50) || gt brightness (Num 200)
                then (s0 + (1 # 10))%Q else s0 in
      let s2 := if gt contrast (Num 80) then (s1 + (1 # 10))%Q else s1 in
      let randomFactor := (random * (3 # 10))%Q in
      let s3 := (s2 + randomFactor)%Q in
      Some {| suspicionScore := min (Num s3) (Num 1);
              brightness := brightness;
              contrast := contrast;
              width := img_width img;
              height := img_height img |}
  end.

Record FlaggedContent := {
  violence : bool; adult : bool; hate : bool; drugs : bool; weapons : bool
}.

Record AverageScores := {
  avg_suspicion : JNum;
  avg_brightness : JNum;
  avg_contrast : JNum;
  avg_highSuspicionFrames : nat
}.

Record Details := {
  framesAnalyzed : nat;
  averageScores : option AverageScores;
  error : option string
}.

(** The object [analyzeSensitivity] returns. *)
Record AnalysisResults := {
  ar_status : AnalysisStatus;
  ar_result : Verdict;
  ar_confidence : JNum;
  ar_flaggedContent : FlaggedContent;
  ar_notes : string;
  ar_details : Details
}.

(** The accumulators of the [forEach] over [allAnalyses]. *)
Record Totals := {
  totalSuspicion : JNum;
  sumBrightness : JNum;
  sumContrast : JNum;
  highSuspicionFrames : nat
}.

Definition no_totals : Totals :=
  {| totalSuspicion := Num 0; sumBrightness := Num 0; sumContrast := Num 0;
     highSuspicionFrames := 0 |}.

Definition accumulate (acc : Totals) (analysis : FrameAnalysis) : Totals :=
  {| totalSuspicion := add (totalSuspicion acc) (suspicionScore analysis);
     sumBrightness := add (sumBrightness acc) (brightness analysis);
     sumContrast := add (sumContrast acc) (contrast analysis);
     highSuspicionFrames :=
       if gt (suspicionScore analysis) (Num (6 # 10))
       then S (highSuspicionFrames acc) else highSuspicionFrames acc |}.

Definition no_flags : FlaggedContent :=
  {| violence := false; adult := false; hate := false; drugs := false; weapons := false |}.

(** Stage 3 of [analyzeSensitivity]: aggregation and classification of the
    scored frames into the [results] object. *)
Definition classify (allAnalyses : list FrameAnalysis) : AnalysisResults :=
  let frameCount := length allAnalyses in
  let totals := fold_left accumulate allAnalyses no_totals in
  let high := highSuspicionFrames totals in
  let avgSuspicion := div (totalSuspicion totals) (of_nat frameCount) in
  let avgBrightness := div (sumBrightness totals) (of_nat frameCount) in
  let avgContrast := div (sumContrast totals) (of_nat frameCount) in
  let '(result, confidence, notes) :=
    if gt avgSuspicion (Num (7 # 10))
       || gt (of_nat high) (mul (of_nat frameCount) (Num (3 # 10)))
    then (flagged, min avgSuspicion (Num (9 # 10)),
          "Potentially inappropriate content detected in video frames.")
    else if gt avgSuspicion (Num (4 # 10)) || (0 <? high)%nat
    then (under_review, min (mul avgSuspicion (Num (8 # 10))) (Num (7 # 10)),
          "Some potentially concerning content detected. Manual review recommended.")
    else (safe, max (Num (85 # 100)) (sub (Num (98 # 100)) avgSuspicion),
          "Content appears to be safe for general audiences.") in
  {| ar_status := st_completed;
     ar_result := result;
     ar_confidence := round2 confidence;
     ar_flaggedContent :=
       {| violence := false; adult := gt avgSuspicion (Num (6 # 10));
          hate := false; drugs := false; weapons := false |};
     ar_notes := notes;
     ar_details :=
       {| framesAnalyzed := frameCount;
          averageScores :=
            Some {| avg_suspicion := round2 avgSuspicion;
                    avg_brightness := round2 avgBrightness;
                    avg_contrast := round2 avgContrast;
                    avg_highSuspicionFrames := high |};
          error := None |} |}.

(** The object returned from the [catch] block of [analyzeSensitivity]. *)
Definition failed_results (message : string) : AnalysisResults :=
  {| ar_status := st_failed;
     ar_result := safe;
     ar_confidence := Num 0;
     ar_flaggedContent := no_flags;
     ar_notes := "Analysis failed: " ++ message;
     ar_details :=
       {| framesAnalyzed := 0; averageScores := None; error := Some message |} |}.

(** *** The classification rule in the words of the specification *)


Definition score_of (a : FrameAnalysis) : Q :=
  match suspicionScore a with Num q => q | _ => 0%Q end.

(** Mean suspicion over the scored frames. *)
Definition spec_avgSuspicion (l : list FrameAnalysis) : Q :=
  (fold_right Qplus 0 (map score_of l) / inject_Z (Z.of_nat (length l)))%Q.

(** Number of frames whose suspicion exceeds 0.6. *)
Definition spec_highCount (l : list FrameAnalysis) : nat :=
  length (List.filter (fun a => match (score_of a ?= 6 # 10)%Q with Gt => true | _ => false end) l).

(** Fraction of the scored frames whose suspicion exceeds 0.6. *)
Definition spec_highRatio (l : list FrameAnalysis) : Q :=
  (inject_Z (Z.of_nat (spec_highCount l)) / inject_Z (Z.of_nat (length l)))%Q.


End Sensitivity.

(** ** The JavaScript string builtins the routes use *)

Module JsString.

(** [s.split(sep)] for a one-character separator. *)
Fixpoint split (sep : ascii) (s : string) : list string :=
  match s with
  | EmptyString => [EmptyString]
  | String c s' =>
      if Ascii.eqb c sep then EmptyString :: split sep s'
      else match split sep s' with
           | h :: t => String c h :: t
           | [] => [String c EmptyString]
           end
  end.

Fixpoint drop (n : nat) (s : string) : string :=
  match n, s with
  | S n', String _ s' => drop n' s'
  | _, _ => s
  end.

(** [s.replace(/pat/, "")] for a literal pattern: the first match goes. *)
Fixpoint remove_first (pat s : string) : string :=
  if String.prefix pat s then drop (String.length pat) s
  else match s with
       | EmptyString => EmptyString
       | String c s' => String c (remove_first pat s')
       end.

Definition startsWith (s pre : string) : bool := String.prefix pre s.

Definition endsWith (s suf : string) : bool :=
  (String.length suf <=? String.length s)%nat
  && String.eqb (drop (String.length s - String.length suf) s) suf.

(** Truthiness of a possibly undefined string. *)
Definition truthy (s : option string) : bool :=
  match s with
  | Some (String _ _) => true
  | _ => false
  end.

(** The string behind a truthy value, [None] for [undefined] and [""]. *)
Definition nonempty (s : option string) : option string :=
  match s with
  | Some (String _ _) => s
  | _ => None
  end.

Definition is_space (c : ascii) : bool :=
  match c with
  | " " | "009" | "010" | "011" | "012" | "013" => true
  | _ => false
  end%char.

Fixpoint skip_spaces (s : string) : string :=
  match s with
  | String c s' => if is_space c then skip_spaces s' else s
  | EmptyString => s
  end.

Definition digit_of (c : ascii) : option (Decimal.uint -> Decimal.uint) :=
  match c with
  | "0" => Some Decimal.D0 | "1" => Some Decimal.D1 | "2" => Some Decimal.D2
  | "3" => Some Decimal.D3 | "4" => Some Decimal.D4 | "5" => Some Decimal.D5
  | "6" => Some Decimal.D6 | "7" => Some Decimal.D7 | "8" => Some Decimal.D8
  | "9" => Some Decimal.D9
  | _ => None
  end%char.

(** The longest prefix of decimal digits, and what follows it. *)
Fixpoint scan_digits (s : string) : Decimal.uint * string :=
  match s with
  | String c s' =>
      match digit_of c with
      | Some d => let (u, rest) := scan_digits s' in (d u, rest)
      | None => (Decimal.Nil, s)
      end
  | EmptyString => (Decimal.Nil, s)
  end.

(** [parseInt(s, 10)]; [None] is NaN. *)
Definition parseInt (s : string) : option Z :=
  let s1 := skip_spaces s in
  let '(negative, s2) :=
    match s1 with
    | String "-" r => (true, r)
    | String "+" r => (false, r)
    | _ => (false, s1)
    end in
  match scan_digits s2 with
  | (Decimal.Nil, _) => None
  | (u, _) =>
      let n := Z.of_N (N.of_uint u) in
      Some (if negative then - n else n)
  end.

(** [parseInt(parts[i], 10)]: an absent element parses as NaN. *)
Definition parseInt_at (parts : list string) (i : nat) : option Z :=
  match nth_error parts i with
  | Some s => parseInt s
  | None => None
  end.

(** How a template literal prints an integer ([None] prints as NaN). *)
Definition show_N (n : N) : string := NilEmpty.string_of_uint (N.to_uint n).

Definition show_Z (z : Z) : string :=
  match z with
  | Zneg p => "-" ++ show_N (Npos p)
  | _ => show_N (Z.to_N z)
  end.

Definition show (x : option Z) : string :=
  match x with Some z => show_Z z | None => "NaN" end.

End JsString.

(** ** The Video document ([models/Video.js]) *)

Module VideoModel.

Import Sensitivity.

Inductive Status := uploading | processing | completed | failed | archived.
Inductive Visibility := private | organization | public.

Definition status_name (s : Status) : string :=
  match s with
  | uploading => "uploading" | processing => "processing"
  | completed => "completed" | failed => "failed" | archived => "archived"
  end.

Record Resolution := { res_width : Z; res_height : Z }.

(** What [extractVideoMetadata] returns (the two file dates are left out). *)
Record Metadata := {
  md_fileSize : Z;
  md_duration : JNum;
  md_bitrate : JNum;
  md_resolution : Resolution;
  md_codec : string;
  md_frameRate : JNum;
  md_aspectRatio : string;
  md_hasAudio : bool
}.

(** The [sensitivityAnalysis] sub-document; [None] is the schema's [null]. *)
Record SensitivityAnalysis := {
  sa_status : AnalysisStatus;
  sa_result : option Verdict;
  sa_confidence : option JNum;
  sa_flaggedContent : FlaggedContent;
  sa_notes : option string;
  sa_details : Details
}.

Definition default_sensitivityAnalysis : SensitivityAnalysis :=
  {| sa_status := st_pending;
     sa_result := None;
     sa_confidence := None;
     sa_flaggedContent := no_flags;
     sa_notes := None;
     sa_details := {| framesAnalyzed := 0; averageScores := None; error := None |} |}.

(** The descriptive fields that no modelled operation reads (description,
    originalName, tags, lastViewedAt, timestamps) are left out. *)
Record Video := {
  _id : string;
  title : string;
  filename : string;
  filePath : string;
  optimizedPath : option string;
  fileSize : Z;
  mimeType : string;
  duration : JNum;
  resolution : Resolution;
  thumbnail : option string;
  status : Status;
  processingProgress : Z;
  sensitivityAnalysis : SensitivityAnalysis;
  uploadedBy : string;
  organizationId : string;
  visibility : Visibility;
  metadata : option Metadata;
  viewCount : Z;
  isActive : bool
}.

(** Field assignments. *)
Definition set_status (s : Status) (v : Video) : Video :=
  {| _id := _id v; title := title v; filename := filename v; filePath := filePath v;
     optimizedPath := optimizedPath v; fileSize := fileSize v; mimeType := mimeType v;
     duration := duration v; resolution := resolution v; thumbnail := thumbnail v;
     status := s; processingProgress := processingProgress v;
     sensitivityAnalysis := sensitivityAnalysis v; uploadedBy := uploadedBy v;
     organizationId := organizationId v; visibility := visibility v;
     metadata := metadata v; viewCount := viewCount v; isActive := isActive v |}.

Definition set_processingProgress (p : Z) (v : Video) : Video :=
  {| _id := _id v; title := title v; filename := filename v; filePath := filePath v;
     optimizedPath := optimizedPath v; fileSize := fileSize v; mimeType := mimeType v;
     duration := duration v; resolution := resolution v; thumbnail := thumbnail v;
     status := status v; processingProgress := p;
     sensitivityAnalysis := sensitivityAnalysis v; uploadedBy := uploadedBy v;
     organizationId := organizationId v; visibility := visibility v;
     metadata := metadata v; viewCount := viewCount v; isActive := isActive v |}.

Definition set_sensitivityAnalysis (sa : SensitivityAnalysis) (v : Video) : Video :=
  {| _id := _id v; title := title v; filename := filename v; filePath := filePath v;
     optimizedPath := optimizedPath v; fileSize := fileSize v; mimeType := mimeType v;
     duration := duration v; resolution := resolution v; thumbnail := thumbnail v;
     status := status v; processingProgress := processingProgress v;
     sensitivityAnalysis := sa; uploadedBy := uploadedBy v;
     organizationId := organizationId v; visibility := visibility v;
     metadata := metadata v; viewCount := viewCount v; isActive := isActive v |}.

Definition set_optimizedPath (p : option string) (v : Video) : Video :=
  {| _id := _id v; title := title v; filename := filename v; filePath := filePath v;
     optimizedPath := p; fileSize := fileSize v; mimeType := mimeType v;
     duration := duration v; resolution := resolution v; thumbnail := thumbnail v;
     status := status v; processingProgress := processingProgress v;
     sensitivityAnalysis := sensitivityAnalysis v; uploadedBy := uploadedBy v;
     organizationId := organizationId v; visibility := visibility v;
     metadata := metadata v; viewCount := viewCount v; isActive := isActive v |}.

Definition set_thumbnail (t : option string) (v : Video) : Video :=
  {| _id := _id v; title := title v; filename := filename v; filePath := filePath v;
     optimizedPath := optimizedPath v; fileSize := fileSize v; mimeType := mimeType v;
     duration := duration v; resolution := resolution v; thumbnail := t;
     status := status v; processingProgress := processingProgress v;
     sensitivityAnalysis := sensitivityAnalysis v; uploadedBy := uploadedBy v;
     organizationId := organizationId v; visibility := visibility v;
     metadata := metadata v; viewCount := viewCount v; isActive := isActive v |}.

(** [video.metadata = metadata; video.duration = ...; video.resolution = ...]. *)
Definition set_metadata (m : Metadata) (v : Video) : Video :=
  {| _id := _id v; title := title v; filename := filename v; filePath := filePath v;
     optimizedPath := optimizedPath v; fileSize := fileSize v; mimeType := mimeType v;
     duration := md_duration m; resolution := md_resolution m; thumbnail := thumbnail v;
     status := status v; processingProgress := processingProgress v;
     sensitivityAnalysis := sensitivityAnalysis v; uploadedBy := uploadedBy v;
     organizationId := organizationId v; visibility := visibility v;
     metadata := Some m; viewCount := viewCount v; isActive := isActive v |}.

Definition set_isActive (b : bool) (v : Video) : Video :=
  {| _id := _id v; title := title v; filename := filename v; filePath := filePath v;
     optimizedPath := optimizedPath v; fileSize := fileSize v; mimeType := mimeType v;
     duration := duration v; resolution := resolution v; thumbnail := thumbnail v;
     status := status v; processingProgress := processingProgress v;
     sensitivityAnalysis := sensitivityAnalysis v; uploadedBy := uploadedBy v;
     organizationId := organizationId v; visibility := visibility v;
     metadata := metadata v; viewCount := viewCount v; isActive := b |}.

Definition set_viewCount (n : Z) (v : Video) : Video :=
  {| _id := _id v; title := title v; filename := filename v; filePath := filePath v;
     optimizedPath := optimizedPath v; fileSize := fileSize v; mimeType := mimeType v;
     duration := duration v; resolution := resolution v; thumbnail := thumbnail v;
     status := status v; processingProgress := processingProgress v;
     sensitivityAnalysis := sensitivityAnalysis v; uploadedBy := uploadedBy v;
     organizationId := organizationId v; visibility := visibility v;
     metadata := metadata v; viewCount := n; isActive := isActive v |}.

Definition set_title (t : string) (v : Video) : Video :=
  {| _id := _id v; title := t; filename := filename v; filePath := filePath v;
     optimizedPath := optimizedPath v; fileSize := fileSize v; mimeType := mimeType v;
     duration := duration v; resolution := resolution v; thumbnail := thumbnail v;
     status := status v; processingProgress := processingProgress v;
     sensitivityAnalysis := sensitivityAnalysis v; uploadedBy := uploadedBy v;
     organizationId := organizationId v; visibility := visibility v;
     metadata := metadata v; viewCount := viewCount v; isActive := isActive v |}.

Definition set_visibility (x : Visibility) (v : Video) : Video :=
  {| _id := _id v; title := title v; filename := filename v; filePath := filePath v;
     optimizedPath := optimizedPath v; fileSize := fileSize v; mimeType := mimeType v;
     duration := duration v; resolution := resolution v; thumbnail := thumbnail v;
     status := status v; processingProgress := processingProgress v;
     sensitivityAnalysis := sensitivityAnalysis v; uploadedBy := uploadedBy v;
     organizationId := organizationId v; visibility := x;
     metadata := metadata v; viewCount := viewCount v; isActive := isActive v |}.

(** [video.sensitivityAnalysis.status = s]. *)
Definition set_sa_status (s : AnalysisStatus) (v : Video) : Video :=
  let sa := sensitivityAnalysis v in
  set_sensitivityAnalysis
    {| sa_status := s; sa_result := sa_result sa; sa_confidence := sa_confidence sa;
       sa_flaggedContent := sa_flaggedContent sa; sa_notes := sa_notes sa;
       sa_details := sa_details sa |} v.

(** [video.sensitivityAnalysis = { ...video.sensitivityAnalysis, ...analysisResults }]:
    every key of the sub-document is a key of [analysisResults], so each is
    overwritten. *)
Definition merge_analysis (r : AnalysisResults) (v : Video) : Video :=
  set_sensitivityAnalysis
    {| sa_status := ar_status r;
       sa_result := Some (ar_result r);
       sa_confidence := Some (ar_confidence r);
       sa_flaggedContent := ar_flaggedContent r;
       sa_notes := Some (ar_notes r);
       sa_details := ar_details r |} v.

(** The part of the User document that the video routes read. *)
Record User := {
  user_id : string;
  user_organizationId : string;
  role : string
}.

Definition visibility_eqb (a b : Visibility) : bool :=
  match a, b with
  | private, private | organization, organization | public, public => true
  | _, _ => false
  end.

(** [videoSchema.methods.canBeViewedBy]. *)
Definition canBeViewedBy (this : Video) (user : User) : bool :=
  if visibility_eqb (visibility this) public then true
  else if visibility_eqb (visibility this) organization
          && String.eqb (organizationId this) (user_organizationId user) then true
  else
    let uploadedById := uploadedBy this in
    if visibility_eqb (visibility this) private
       && String.eqb uploadedById (user_id user) then true
    else String.eqb (role user) "admin"
         && String.eqb (organizationId this) (user_organizationId user).

(** The clamp of [videoSchema.methods.updateProgress]. *)
Definition clamp_progress (progress : Z) : Z := Z.min 100 (Z.max 0 progress).

End VideoModel.

(** ** The broadcast channel (socket.io rooms, [server.js]) *)

Module Broadcast.

Import Sensitivity.

(** [io.to(room).emit(...)] addresses one room, [io.emit(...)] every
    connected socket. *)
Inductive Target :=
| ToRoom (room : string)
| ToAll.

(** The payloads of the events of the pipeline (timestamps left out). *)
Inductive Payload :=
| UploadComplete (videoId title filename : string)
| ProcessingProgress (videoId : string) (progress : Z) (message : string)
| ProcessingComplete (videoId title : string) (sensitivityResult : Verdict)
| ProcessingError (videoId error : string)
| AnalysisProgress (videoId step : string) (progress : JNum)
| AnalysisComplete (videoId : string) (results : AnalysisResults)
| AnalysisError (videoId error : string).

Definition event_name (p : Payload) : string :=
  match p with
  | UploadComplete _ _ _ => "video-upload-complete"
  | ProcessingProgress _ _ _ => "video-processing-progress"
  | ProcessingComplete _ _ _ => "video-processing-complete"
  | ProcessingError _ _ => "video-processing-error"
  | AnalysisProgress _ _ _ => "sensitivity-analysis-progress"
  | AnalysisComplete _ _ => "sensitivity-analysis-complete"
  | AnalysisError _ _ => "sensitivity-analysis-error"
  end.

Record Emitted := { target : Target; payload : Payload }.

(** The room a socket joins on [join-room userId]. *)
Definition room_of (userId : string) : string := "user_" ++ userId.

(** Whether a socket that joined exactly the room of [listener] is sent
    the event. *)
Definition delivered_to (listener : string) (e : Emitted) : bool :=
  match target e with
  | ToAll => true
  | ToRoom room => String.eqb room (room_of listener)
  end.

(** The event is addressed to the room of [owner], hence to nobody else. *)
Definition addressed_to (owner : string) (e : Emitted) : Prop :=
  target e = ToRoom (room_of owner).

End Broadcast.

(** ** Worlds, exceptions and the monad of the handlers *)

Module Runtime.

Import Sensitivity VideoModel Broadcast.

Inductive Exn :=
| TypeError (message : string)
| RangeError (message : string)
| JsonWebTokenError (message : string)
| Error (message : string).

Definition message_of (e : Exn) : string :=
  match e with
  | TypeError m | RangeError m | JsonWebTokenError m | Error m => m
  end.

(** Calls that leave the process. *)
Inductive Call :=
| Ffprobe (path : string)
| Eval (source : string)
| FfmpegTranscode (input output : string)
| FfmpegThumbnail (input output : string)
| FfmpegFrames (input outputDir : string)
| Sharp (framePath : string)
| Mkdir (dir : string)
| Rmdir (dir : string)
| Unlink (path : string)
| Save (document : Video)
| ConsoleError (what : string).

Record World := {
  held : option Video;         (** the document the running handler holds *)
  db : gmap string Video;      (** the persisted Video documents, by id *)
  dirs : gset string;          (** the directories made by the process that exist *)
  outbox : list Emitted;       (** events handed to socket.io, latest first *)
  calls : list Call            (** external calls, latest first *)
}.

Definition set_held (f : option Video -> option Video) (w : World) : World :=
  {| held := f (held w); db := db w; dirs := dirs w; outbox := outbox w; calls := calls w |}.
Definition set_db (f : gmap string Video -> gmap string Video) (w : World) : World :=
  {| held := held w; db := f (db w); dirs := dirs w; outbox := outbox w; calls := calls w |}.
Definition set_dirs (f : gset string -> gset string) (w : World) : World :=
  {| held := held w; db := db w; dirs := f (dirs w); outbox := outbox w; calls := calls w |}.
Definition push_event (e : Emitted) (w : World) : World :=
  {| held := held w; db := db w; dirs := dirs w; outbox := e :: outbox w; calls := calls w |}.
Definition push_call (c : Call) (w : World) : World :=
  {| held := held w; db := db w; dirs := dirs w; outbox := outbox w; calls := c :: calls w |}.

Inductive Outcome (A : Type) :=
| Returned (a : A)
| Thrown (e : Exn).
Arguments Returned {A} a.
Arguments Thrown {A} e.

(** A handler: it returns or throws, and the world keeps every effect made
    up to that point in both cases. *)
Definition M (A : Type) : Type := World -> Outcome A * World.

Definition ret {A} (a : A) : M A := fun w => (Returned a, w).

Definition bind {A B} (m : M A) (k : A -> M B) : M B :=
  fun w =>
    match m w with
    | (Returned a, w') => k a w'
    | (Thrown e, w') => (Thrown e, w')
    end.

Definition throw {A} (e : Exn) : M A := fun w => (Thrown e, w).

(** [try { m } catch (error) { handler error }]. *)
Definition try_catch {A} (m : M A) (handler : Exn -> M A) : M A :=
  fun w =>
    match m w with
    | (Returned a, w') => (Returned a, w')
    | (Thrown e, w') => handler e w'
    end.

Definition modify (f : World -> World) : M unit := fun w => (Returned tt, f w).
Definition call (c : Call) : M unit := modify (push_call c).

Declare Scope js_scope.
Delimit Scope js_scope with js.
Notation "'let*' x := m 'in' k" := (bind m (fun x => k))
  (at level 10, x name, m at level 100, k at level 200) : js_scope.
Notation "m ;; k" := (bind m (fun _ => k))
  (at level 100, k at level 200, right associativity) : js_scope.

(** The world a handler leaves behind, and what it returned. *)
Definition world_after {A} (m : M A) (w : World) : World := snd (m w).
Definition outcome_of {A} (m : M A) (w : World) : Outcome A := fst (m w).

(** *** What the probing tool prints *)

Record ProbeStream := {
  codec_type : string;
  ps_width : option Z;
  ps_height : option Z;
  codec_name : option string;
  r_frame_rate : option string;
  display_aspect_ratio : option string
}.

(** [pf_duration] is the value of [parseFloat(metadata.format.duration)],
    [pf_bit_rate] that of [parseInt(metadata.format.bit_rate)]. *)
Record ProbeFormat := {
  pf_duration : JNum;
  pf_bit_rate : JNum
}.

Record ProbeOutput := {
  format : ProbeFormat;
  streams : list ProbeStream
}.

(** *** The environment: everything the process does not decide *)

Record Env := {
  (** [path.isAbsolute(p) ? p : path.resolve(p)] *)
  absolute_path : string -> string;
  path_dirname : string -> string;
  (** [fs.mkdir(dir, {recursive: true})]: the error message if it rejects *)
  mkdir_error : string -> option string;
  (** [fs.rmdir(dir, {recursive: true})]: the error message if it rejects *)
  rmdir_error : string -> option string;
  (** the frame-sampling ffmpeg run and the [readdir] after it: the error
      message if one of them rejects, else the names found in the directory *)
  ffmpeg_frames : string -> string -> string + list string;
  (** [sharp(framePath)] metadata and stats, [None] if it rejects *)
  sharp : string -> option SharpImage;
  (** the value [Math.random()] yields while that frame is scored *)
  math_random : string -> Q;
  (** [fs.stat(path).size], [None] if it rejects *)
  stat_size : string -> option Z;
  (** the parsed JSON of ffprobe, [None] if the run or [JSON.parse] throws *)
  ffprobe : string -> option ProbeOutput;
  (** the value of [eval(source)], [None] if evaluating it throws *)
  js_eval : string -> option JNum;
  (** whether the transcoding ffmpeg run exits with success *)
  transcode_ok : string -> string -> bool;
  (** whether the thumbnail ffmpeg run exits with success *)
  thumbnail_ok : string -> string -> bool;
  (** [fs.access(path)] resolves *)
  access_ok : string -> bool;
  (** [Date.now()] as printed in a template literal *)
  date_now : string;
  (** [jwt.verify(token, secret)]: [None] if it throws, else [decoded.userId] *)
  jwt_verify : string -> option (option string);
  (** [User.findById] *)
  find_user : string -> option User;
  (** [path.resolve] and the bytes of the file found there, if any *)
  path_resolve : string -> string;
  disk : string -> option (list Byte.byte);
  (** [fs.unlink(path)]: the error message if it rejects *)
  unlink_error : string -> option string
}.

End Runtime.

(** ** The processing functions ([utils/videoProcessor.js]) *)

Module Processor.

Import JsNum Sensitivity VideoModel Broadcast Runtime.
Local Open Scope js_scope.

(** The socket.io server object. *)
Inductive Io := SocketServer.

(** [io.emit(name, payload)]; [io] is [None] when the variable holds
    [undefined], and reading a property of it throws. *)
Definition emit (io : option Io) (p : Payload) : M unit :=
  match io with
  | None => throw (TypeError "Cannot read properties of undefined (reading 'emit')")
  | Some _ => modify (push_event {| target := ToAll; payload := p |})
  end.

(** [io.to(room).emit(name, payload)]. *)
Definition emit_to (io : option Io) (room : string) (p : Payload) : M unit :=
  match io with
  | None => throw (TypeError "Cannot read properties of undefined (reading 'to')")
  | Some _ => modify (push_event {| target := ToRoom room; payload := p |})
  end.

(** [await fs.mkdir(dir, { recursive: true })]; of the directories it makes
    only [dir] itself is tracked. *)
Definition fs_mkdir (env : Env) (dir : string) : M unit :=
  call (Mkdir dir) ;;
  match mkdir_error env dir with
  | Some message => throw (Error message)
  | None => modify (set_dirs (fun ds => ds ∪ {[ dir ]}))
  end.

(** [await fs.rmdir(dir, { recursive: true }).catch(err => console.error(...))]:
    a rejected removal is logged and the directory stays. *)
Definition fs_rmdir_logged (env : Env) (dir : string) : M unit :=
  call (Rmdir dir) ;;
  match rmdir_error env dir with
  | Some message => call (ConsoleError "Error cleaning up frames directory:")
  | None => modify (set_dirs (fun ds => ds ∖ {[ dir ]}))
  end.

Definition is_frame_file (file : string) : bool :=
  JsString.startsWith file "frame_" && JsString.endsWith file ".jpg".

Definition path_join (dir file : string) : string := (dir ++ "/" ++ file)%string.

Definition extractFrames (env : Env) (videoPath outputDir videoId : string)
    (io : option Io) : M (list string) :=
  try_catch
    (fs_mkdir env outputDir ;;
     emit io (AnalysisProgress videoId "Extracting video frames..." (Num 20)) ;;
     call (FfmpegFrames videoPath outputDir) ;;
     match ffmpeg_frames env videoPath outputDir with
     | inl message => throw (Error message)
     | inr files =>
         let frameFiles := List.filter is_frame_file files in
         ret (map (path_join outputDir) frameFiles)
     end)
    (fun error =>
       call (ConsoleError "Error extracting frames:") ;;
       throw (Error ("Frame extraction failed: " ++ message_of error))).

(** [analyzeFrame] with its two oracles. *)
Definition analyzeFrame_at (env : Env) (framePath : string) : M (option FrameAnalysis) :=
  call (Sharp framePath) ;;
  ret (analyzeFrame (sharp env framePath) (math_random env framePath)).

(** [40 + Math.round((processedFrames / framePaths.length) * 40)]. *)
Definition frame_progress (processedFrames total : nat) : JNum :=
  add (Num 40) (round (mul (div (of_nat processedFrames) (of_nat total)) (Num 40))).

Definition show_nat (n : nat) : string := JsString.show_N (N.of_nat n).

(** The [for ... of framePaths] loop, with its two counters. *)
Fixpoint score_frames (env : Env) (io : option Io) (videoId : string) (total : nat)
    (framePaths : list string) (allAnalyses : list FrameAnalysis)
    (processedFrames : nat) : M (list FrameAnalysis) :=
  match framePaths with
  | [] => ret allAnalyses
  | framePath :: rest =>
      let* analysis := analyzeFrame_at env framePath in
      let allAnalyses :=
        match analysis with
        | Some a => allAnalyses ++ [a]
        | None => allAnalyses
        end in
      let processedFrames := S processedFrames in
      let progress := frame_progress processedFrames total in
      emit io (AnalysisProgress videoId
                 ("Analyzed " ++ show_nat processedFrames ++ "/" ++ show_nat total
                  ++ " frames") progress) ;;
      score_frames env io videoId total rest allAnalyses processedFrames
  end.

Definition framesDir_of (env : Env) (videoPath videoId : string) : string :=
  path_join (path_join (path_dirname env (absolute_path env videoPath)) "temp_frames")
            videoId.

(** The [catch] block of [analyzeSensitivity]; [framesDir] is the value the
    variable holds when the exception arrives. *)
Definition analysis_failed (env : Env) (videoId : string) (io : option Io)
    (framesDir : option string) (error : Exn) : M AnalysisResults :=
  call (ConsoleError "Sensitivity analysis error:") ;;
  match framesDir with
  | Some dir => fs_rmdir_logged env dir
  | None => ret tt
  end ;;
  emit io (AnalysisError videoId (message_of error)) ;;
  ret (failed_results (message_of error)).

(** [let x = null; try { before; x = value; after } catch (e) { handler }]:
    the handler finds [x] still [null] when [before] throws. *)
Definition try_catch_var {A B} (before : M unit) (value : A) (after : M B)
    (handler : option A -> Exn -> M B) : M B :=
  fun w =>
    match before w with
    | (Thrown error, w') => handler None error w'
    | (Returned _, w') => try_catch after (handler (Some value)) w'
    end.

Definition analyzeSensitivity (env : Env) (videoPath videoId : string)
    (io : option Io) : M AnalysisResults :=
  let absoluteVideoPath := absolute_path env videoPath in
  try_catch_var
    (emit io (AnalysisProgress videoId "Initializing content analysis..." (Num 0)) ;;
     emit io (AnalysisProgress videoId "Preparing image analysis..." (Num 10)))
    (framesDir_of env videoPath videoId)
    (let framesDir := framesDir_of env videoPath videoId in
     let* framePaths := extractFrames env absoluteVideoPath framesDir videoId io in
     (if (length framePaths =? 0)%nat
      then throw (Error "No frames could be extracted from video")
      else ret tt) ;;
     emit io (AnalysisProgress videoId "Analyzing video content..." (Num 40)) ;;
     let* allAnalyses :=
       score_frames env io videoId (length framePaths) framePaths [] 0 in
     emit io (AnalysisProgress videoId "Processing analysis results..." (Num 85)) ;;
     let results := classify allAnalyses in
     fs_rmdir_logged env framesDir ;;
     emit io (AnalysisComplete videoId results) ;;
     ret results)
    (analysis_failed env videoId io).

(** *** Metadata, thumbnail, transcoding *)

Definition fs_stat (env : Env) (path : string) : M Z :=
  match stat_size env path with
  | Some size => ret size
  | None => throw (Error "ENOENT: no such file or directory")
  end.

(** [x || 0] on numbers. *)
Definition or_zero (x : JNum) : JNum := if JsNum.truthy x then x else Num 0.

(** [videoStream?.field || 0] on an optional integer. *)
Definition int_or_zero (x : option Z) : Z :=
  match x with
  | Some z => z
  | None => 0
  end.

Definition or_unknown (x : option string) : string :=
  match x with
  | Some (String _ _ as s) => s
  | _ => "unknown"
  end.

Definition find_stream (kind : string) (l : list ProbeStream) : option ProbeStream :=
  List.find (fun stream => String.eqb (codec_type stream) kind) l.

(** [videoStream?.r_frame_rate ? eval(videoStream.r_frame_rate) : 0]. *)
Definition frameRate_of (env : Env) (videoStream : option ProbeStream) : M JNum :=
  match videoStream with
  | Some stream =>
      match r_frame_rate stream with
      | Some (String _ _ as source) =>
          call (Eval source) ;;
          match js_eval env source with
          | Some value => ret value
          | None => throw (Error "eval threw")
          end
      | _ => ret (Num 0)
      end
  | None => ret (Num 0)
  end.

Definition default_metadata (size : Z) : Metadata :=
  {| md_fileSize := size;
     md_duration := Num 0;
     md_bitrate := Num 0;
     md_resolution := {| res_width := 0; res_height := 0 |};
     md_codec := "unknown";
     md_frameRate := Num 0;
     md_aspectRatio := "unknown";
     md_hasAudio := false |}.

Definition extractVideoMetadata (env : Env) (videoPath : string) : M Metadata :=
  try_catch
    (let* size := fs_stat env videoPath in
     call (Ffprobe videoPath) ;;
     match ffprobe env videoPath with
     | None => throw (Error "Command failed")
     | Some metadata =>
         let videoStream := find_stream "video" (streams metadata) in
         let audioStream := find_stream "audio" (streams metadata) in
         let* frameRate := frameRate_of env videoStream in
         ret {| md_fileSize := size;
                md_duration := or_zero (pf_duration (format metadata));
                md_bitrate := or_zero (pf_bit_rate (format metadata));
                md_resolution :=
                  {| res_width := int_or_zero (videoStream ≫= ps_width);
                     res_height := int_or_zero (videoStream ≫= ps_height) |};
                md_codec := or_unknown (videoStream ≫= codec_name);
                md_frameRate := frameRate;
                md_aspectRatio := or_unknown (videoStream ≫= display_aspect_ratio);
                md_hasAudio := match audioStream with Some _ => true | None => false end |}
     end)
    (fun error =>
       call (ConsoleError "Error extracting video metadata:") ;;
       let* size := fs_stat env videoPath in
       ret (default_metadata size)).

Definition generateThumbnail (env : Env) (videoPath outputPath : string)
    : M (option string) :=
  try_catch
    (let thumbnailName := ("thumb_" ++ date_now env ++ ".jpg")%string in
     let thumbnailPath := path_join outputPath thumbnailName in
     fs_mkdir env outputPath ;;
     call (FfmpegThumbnail videoPath thumbnailPath) ;;
     (if thumbnail_ok env videoPath thumbnailPath then ret tt
      else throw (Error "Command failed")) ;;
     if access_ok env thumbnailPath then ret (Some thumbnailName) else ret None)
    (fun error =>
       call (ConsoleError "Error generating thumbnail:") ;;
       ret None).

Definition optimizeVideoForStreaming (env : Env) (inputPath outputPath : string)
    : M string :=
  try_catch
    (let outputDir := path_dirname env outputPath in
     fs_mkdir env outputDir ;;
     call (FfmpegTranscode inputPath outputPath) ;;
     (if transcode_ok env inputPath outputPath then ret tt
      else throw (Error "Command failed")) ;;
     try_catch
       (let* size := fs_stat env outputPath in ret outputPath)
       (fun _ => throw (Error "Optimized video file was not created")))
    (fun error =>
       call (ConsoleError "Error optimizing video:") ;;
       throw (Error "Failed to optimize video for streaming")).

End Processor.

(** ** The video routes ([routes/videos.js]) and the application ([server.js]) *)

Module Routes.

Import JsNum Sensitivity VideoModel Broadcast Runtime Processor.
Local Open Scope js_scope.

(** [app.set('io', io)] is the only setting [server.js] registers. *)
Definition server_app : gmap string Io := {[ "io" := SocketServer ]}.

(** [req.app.get(key)]: [None] is [undefined]. *)
Definition app_get (app : gmap string Io) (key : string) : option Io := app !! key.

Inductive Body :=
| Json (success : bool) (message : string) (error : option string)
| JsonAnalysis (message : string) (analysis : SensitivityAnalysis)
| JsonVideo (message : string) (video : Video)
| FileStream (bytes : list Byte.byte).

Record Response := {
  res_status : Z;
  res_headers : list (string * string);
  res_body : Body
}.

Definition respond_json (code : Z) (message : string) : Response :=
  {| res_status := code; res_headers := []; res_body := Json false message None |}.

(** *** The document a handler holds *)

Definition hold (video : Video) : M unit := modify (set_held (fun _ => Some video)).

Definition the_video : M Video :=
  fun w =>
    match held w with
    | Some video => (Returned video, w)
    | None => (Thrown (TypeError "Cannot read properties of null"), w)
    end.

(** An assignment to a field of the held document. *)
Definition mutate (f : Video -> Video) : M unit :=
  let* video := the_video in hold (f video).

(** [await video.save()]. *)
Definition save : M unit :=
  let* video := the_video in
  call (Save video) ;;
  modify (set_db (fun docs => <[ _id video := video ]> docs)).

(** [videoSchema.methods.updateProgress]. *)
Definition updateProgress (progress : Z) (status : option Status) : M unit :=
  mutate (set_processingProgress (clamp_progress progress)) ;;
  match status with
  | Some s => mutate (set_status s)
  | None => ret tt
  end ;;
  save.

Definition optimizedPath_of (videoId : string) : string :=
  path_join "uploads/optimized" (videoId ++ ".mp4").

(** *** The pipeline *)

Definition processVideoAsync (env : Env) (video : Video) (io : option Io) : M unit :=
  let room := room_of (uploadedBy video) in
  let videoId := _id video in
  hold video ;;
  try_catch
    (updateProgress 10 (Some processing) ;;
     emit_to io room (ProcessingProgress videoId 10 "Starting video processing...") ;;
     let* metadata := extractVideoMetadata env (filePath video) in
     mutate (set_metadata metadata) ;;
     updateProgress 20 None ;;
     emit_to io room (ProcessingProgress videoId 20 "Metadata extracted...") ;;
     let optimizedPath := optimizedPath_of videoId in
     optimizeVideoForStreaming env (filePath video) optimizedPath ;;
     mutate (set_optimizedPath (Some optimizedPath)) ;;
     updateProgress 40 None ;;
     emit_to io room (ProcessingProgress videoId 40 "Video optimized for streaming...") ;;
     let* thumbnail := generateThumbnail env (filePath video) "uploads/thumbnails" in
     mutate (set_thumbnail thumbnail) ;;
     updateProgress 60 None ;;
     emit_to io room (ProcessingProgress videoId 60 "Thumbnail generated...") ;;
     mutate (set_sa_status st_processing) ;;
     save ;;
     emit_to io room (ProcessingProgress videoId 80 "Starting sensitivity analysis...") ;;
     let* analysisResults := analyzeSensitivity env (filePath video) videoId io in
     mutate (merge_analysis analysisResults) ;;
     updateProgress 100 (Some completed) ;;
     emit_to io room
       (ProcessingComplete videoId (title video) (ar_result analysisResults)))
    (fun error =>
       call (ConsoleError "Video processing error:") ;;
       mutate (set_status failed) ;;
       mutate (set_sa_status st_failed) ;;
       save ;;
       emit_to io room (ProcessingError videoId (message_of error))).

(** [new Video({..., status: 'processing'})] with the schema defaults. *)
Definition new_Video (id title filename filePath : string) (fileSize : Z)
    (mimeType uploadedBy organizationId : string) (visibility : Visibility) : Video :=
  {| _id := id; title := title; filename := filename; filePath := filePath;
     optimizedPath := None; fileSize := fileSize; mimeType := mimeType;
     duration := Num 0; resolution := {| res_width := 0; res_height := 0 |};
     thumbnail := None; status := processing; processingProgress := 0;
     sensitivityAnalysis := default_sensitivityAnalysis;
     uploadedBy := uploadedBy; organizationId := organizationId;
     visibility := visibility; metadata := None; viewCount := 0; isActive := true |}.

(** [POST /upload] once the request has passed validation: the document is
    created and saved, the upload is announced, the pipeline runs. The
    handler does not await the pipeline; its effects are sequenced here
    before the answer, which does not depend on them. *)
Definition upload (env : Env) (app : gmap string Io) (video : Video) : M Response :=
  try_catch
    (hold video ;;
     save ;;
     let io := app_get app "io" in
     emit_to io (room_of (uploadedBy video))
       (UploadComplete (_id video) (title video) (filename video)) ;;
     processVideoAsync env video io ;;
     ret {| res_status := 201; res_headers := [];
            res_body := Json true "Video uploaded successfully and processing started" None |})
    (fun error =>
       call (ConsoleError "Video upload error:") ;;
       ret (respond_json 500 "Error uploading video")).

(** *** Re-analysis *)

Definition reanalyze (env : Env) (app : gmap string Io) (id : string) : M Response :=
  try_catch
    (let* docs := (fun w => (Returned (db w), w)) in
     match docs !! id with
     | None => ret (respond_json 404 "Video not found")
     | Some video =>
         hold video ;;
         mutate (set_sa_status st_processing) ;;
         save ;;
         let io := app_get app "socketio" in
         let* analysisResults := analyzeSensitivity env (filePath video) (_id video) io in
         mutate (merge_analysis analysisResults) ;;
         save ;;
         let* video := the_video in
         ret {| res_status := 200; res_headers := [];
                res_body := JsonAnalysis "Sensitivity analysis completed"
                              (sensitivityAnalysis video) |}
     end)
    (fun error =>
       call (ConsoleError "Re-analysis error:") ;;
       ret {| res_status := 500; res_headers := [];
              res_body := Json false "Error re-analyzing video" (Some (message_of error)) |}).

(** *** View and delete *)

(** [Video.findOne({ _id: id, organizationId, isActive: true })], for an id
    that casts to an ObjectId. *)
Definition findOne_active (docs : gmap string Video) (id organization : string)
    : option Video :=
  match docs !! id with
  | Some video =>
      if String.eqb (organizationId video) organization && isActive video
      then Some video else None
  | None => None
  end.

(** [GET /:id]. *)
Definition view (user : User) (id : string) : M Response :=
  try_catch
    (let* docs := (fun w => (Returned (db w), w)) in
     match findOne_active docs id (user_organizationId user) with
     | None => ret (respond_json 404 "Video not found")
     | Some video =>
         if negb (canBeViewedBy video user)
         then ret (respond_json 403 "Access denied to this video")
         else
           hold video ;;
           mutate (fun v => set_viewCount (viewCount v + 1) v) ;;
           save ;;
           let* video := the_video in
           ret {| res_status := 200; res_headers := []; res_body := JsonVideo "" video |}
     end)
    (fun error =>
       call (ConsoleError "Get video error:") ;;
       ret (respond_json 500 "Error retrieving video")).

(** [DELETE /:id], behind [authorizeRoles('editor', 'admin')]. *)
Definition delete_video (user : User) (id : string) : M Response :=
  try_catch
    (let* docs := (fun w => (Returned (db w), w)) in
     match findOne_active docs id (user_organizationId user) with
     | None => ret (respond_json 404 "Video not found")
     | Some video =>
         if negb (String.eqb (role user) "admin")
            && negb (String.eqb (uploadedBy video) (user_id user))
         then ret (respond_json 403 "Access denied - you can only delete your own videos")
         else
           hold video ;;
           mutate (set_isActive false) ;;
           mutate (set_status archived) ;;
           save ;;
           ret {| res_status := 200; res_headers := [];
                  res_body := Json true "Video deleted successfully" None |}
     end)
    (fun error =>
       call (ConsoleError "Delete video error:") ;;
       ret (respond_json 500 "Error deleting video")).

(** [PUT /:id], behind [authorizeRoles('editor', 'admin')], once the body has
    passed validation; of the four fields it may change, the title and the
    visibility are modelled. [findByIdAndUpdate] writes the stored document. *)
Definition update_video (user : User) (id : string) (new_title : option string)
    (new_visibility : option Visibility) : M Response :=
  try_catch
    (let* docs := (fun w => (Returned (db w), w)) in
     match findOne_active docs id (user_organizationId user) with
     | None => ret (respond_json 404 "Video not found")
     | Some video =>
         if negb (String.eqb (role user) "admin")
            && negb (String.eqb (uploadedBy video) (user_id user))
         then ret (respond_json 403 "Access denied - you can only edit your own videos")
         else
           let retitled :=
             match new_title with
             | Some t => set_title t video
             | None => video
             end in
           let updatedVideo :=
             match new_visibility with
             | Some x => set_visibility x retitled
             | None => retitled
             end in
           call (Save updatedVideo) ;;
           modify (set_db (fun docs => <[ id := updatedVideo ]> docs)) ;;
           ret {| res_status := 200; res_headers := [];
                  res_body := JsonVideo "Video updated successfully" updatedVideo |}
     end)
    (fun error =>
       call (ConsoleError "Update video error:") ;;
       ret (respond_json 500 "Error updating video")).

(** *** Range-aware streaming *)

Record Request := {
  params_id : string;
  query_token : option string;
  authorization : option string;
  range : option string;
  origin : option string
}.

Definition status_eqb (a b : Status) : bool :=
  match a, b with
  | uploading, uploading | processing, processing | completed, completed
  | failed, failed | archived, archived => true
  | _, _ => false
  end.

(** [req.query.token || (req.headers.authorization
    && req.headers.authorization.split(' ')[1])]. *)
Definition token_of (req : Request) : option string :=
  if JsString.truthy (query_token req) then query_token req
  else if JsString.truthy (authorization req)
  then match authorization req with
       | Some header => nth_error (JsString.split " " header) 1
       | None => None
       end
  else authorization req.

(** [fs.createReadStream(path, { start, end })] on a file holding [bytes]:
    Node rejects options that are not non-negative integers or that have
    [start > end] with a RangeError; the stream then delivers the bytes from
    offset [start] up to offset [end] inclusive, or up to the end of the
    file if that comes first. *)
Definition createReadStream (bytes : list Byte.byte) (start end_ : option Z)
    : M (list Byte.byte) :=
  match start, end_ with
  | Some s, Some e =>
      if (s <? 0)%Z || (e <? 0)%Z || (e <? s)%Z
      then throw (RangeError "The value of 'start' is out of range.")
      else ret (firstn (Z.to_nat (e - s + 1)) (skipn (Z.to_nat s) bytes))
  | _, _ => throw (RangeError "The value is out of range. It must be an integer.")
  end.

(** Subtraction and addition of possibly-NaN integers. *)
Definition chunksize_of (start end_ : option Z) : option Z :=
  match start, end_ with
  | Some s, Some e => Some ((e - s) + 1)
  | _, _ => None
  end.

Definition corsHeaders (req : Request) : list (string * string) :=
  [ ("Access-Control-Allow-Origin",
     match JsString.nonempty (origin req) with
     | Some o => o
     | None => "http://localhost:5173"
     end);
    ("Access-Control-Allow-Credentials", "true");
    ("Access-Control-Expose-Headers", "Content-Range, Content-Length, Accept-Ranges") ].

(** [video.optimizedPath || video.filePath]. *)
Definition artifact_path (video : Video) : string :=
  match JsString.nonempty (optimizedPath video) with
  | Some p => p
  | None => filePath video
  end.

(** The value of a response header, if it is set. *)
Definition header (name : string) (resp : Response) : option string :=
  match List.find (fun kv => String.eqb (fst kv) name) (res_headers resp) with
  | Some kv => Some (snd kv)
  | None => None
  end.

(** [GET /:id/stream]. *)
Definition stream (env : Env) (req : Request) : M Response :=
  try_catch
    (match JsString.nonempty (token_of req) with
     | None => ret (respond_json 401 "Token required")
     | Some token =>
         let* decoded :=
           match jwt_verify env token with
           | Some decoded => ret decoded
           | None => throw (JsonWebTokenError "invalid token")
           end in
         match decoded ≫= find_user env with
         | None => ret (respond_json 401 "User not found")
         | Some user =>
             let* docs := (fun w => (Returned (db w), w)) in
             match docs !! params_id req with
             | None => ret (respond_json 404 "Video not found")
             | Some video =>
                 if negb (isActive video) || negb (status_eqb (status video) completed)
                 then ret (respond_json 404
                             ("Video not ready for streaming. Status: "
                              ++ status_name (status video)))
                 else if negb (canBeViewedBy video user)
                 then ret (respond_json 403 "Access denied to this video")
                 else
                   let videoPath := artifact_path video in
                   let filePath := path_resolve env videoPath in
                   match disk env filePath with
                   | None => ret (respond_json 404 "Video file not found on disk")
                   | Some bytes =>
                       let fileSize := Z.of_nat (length bytes) in
                       match JsString.nonempty (range req) with
                       | Some range =>
                           let parts :=
                             JsString.split "-" (JsString.remove_first "bytes=" range) in
                           let start := JsString.parseInt_at parts 0 in
                           let end_ :=
                             if JsString.truthy (nth_error parts 1)
                             then JsString.parseInt_at parts 1
                             else Some (fileSize - 1) in
                           let chunksize := chunksize_of start end_ in
                           let* file := createReadStream bytes start end_ in
                           let head :=
                             [ ("Content-Range",
                                ("bytes " ++ JsString.show start ++ "-"
                                 ++ JsString.show end_ ++ "/"
                                 ++ JsString.show_Z fileSize)%string);
                               ("Accept-Ranges", "bytes");
                               ("Content-Length", JsString.show chunksize);
                               ("Content-Type", mimeType video) ]
                             ++ corsHeaders req in
                           ret {| res_status := 206; res_headers := head;
                                  res_body := FileStream file |}
                       | None =>
                           let head :=
                             [ ("Content-Length", JsString.show_Z fileSize);
                               ("Content-Type", mimeType video) ]
                             ++ corsHeaders req in
                           ret {| res_status := 200; res_headers := head;
                                  res_body := FileStream bytes |}
                       end
                   end
             end
         end
     end)
    (fun error =>
       call (ConsoleError "Video streaming error:") ;;
       ret (respond_json 500 "Error streaming video")).

End Routes.

(** ** Binary64 arithmetic

    The scores and the classification are computed by the engine in IEEE 754
    binary64. A double is modelled by the rational it denotes; every
    operation is the exact operation followed by rounding to the nearest
    double, ties to even, as the standard defines it. (Signed zeros are not
    told apart.) *)

Module Binary64.

Import JsNum.
Local Open Scope Q_scope.

(** [2^e]. *)
Definition pow2 (e : Z) : Q := (2 ^ e)%Q.

(** The binade of a positive rational: the [k] with [2^k <= x < 2^(k+1)]. *)
Definition ilog2 (x : Q) : Z :=
  let k := (Z.log2 (Qnum x) - Z.log2 (Zpos (Qden x)))%Z in
  if Qle_bool (pow2 k) x then k else (k - 1)%Z.

(** The exponent of the last place: 53 significant bits, and no exponent
    below that of the subnormal numbers. *)
Definition exponent (x : Q) : Z := Z.max (ilog2 x - 52) (-1074).

(** The nearest integer, the even one of two that are equally near. *)
Definition rne (y : Q) : Z :=
  let f := Qfloor y in
  match (y - inject_Z f ?= 1 # 2)%Q with
  | Lt => f
  | Gt => (f + 1)%Z
  | Eq => if Z.even f then f else (f + 1)%Z
  end.

(** The nearest multiple of the last place of a positive rational. *)
Definition nearest (x : Q) : Q :=
  (inject_Z (rne (x / pow2 (exponent x))) * pow2 (exponent x))%Q.

(** Rounding of a positive rational; what reaches [2^1024] overflows. *)
Definition round_pos (x : Q) : t :=
  let r := nearest x in
  if Qle_bool (pow2 1024) r then PInf else Num (Qred r).

(** Rounding to the nearest double. *)
Definition fl (x : Q) : t :=
  match (x ?= 0)%Q with
  | Eq => Num 0
  | Gt => round_pos x
  | Lt => neg (round_pos (- x))
  end.

(** A decimal literal of the source. *)
Definition lit (q : Q) : t := fl q.

(** [x + y], [x - y], [x * y], [x / y] on doubles; the special values
    behave as in [JsNum]. *)
Definition add (x y : t) : t :=
  match x, y with
  | Num a, Num b => fl (a + b)%Q
  | _, _ => JsNum.add x y
  end.

Definition sub (x y : t) : t := add x (neg y).

Definition mul (x y : t) : t :=
  match x, y with
  | Num a, Num b => fl (a * b)%Q
  | _, _ => JsNum.mul x y
  end.

Definition div (x y : t) : t :=
  match x, y with
  | Num a, Num b => if Qeq_bool b 0 then JsNum.div x y else fl (a / b)%Q
  | _, _ => JsNum.div x y
  end.

(** [Math.round(x * 100) / 100]. *)
Definition round2 (x : t) : t := div (round (mul x (Num 100))) (Num 100).

(** The rational is a double. *)
Definition is_double (q : Q) : Prop := exists q', fl q = Num q' /\ (q' == q)%Q.

End Binary64.

(** ** Scoring and classification in binary64

    [analyzeFrame] and stage 3 of [analyzeSensitivity] with the arithmetic
    of the engine; [Sensitivity] has them over exact rationals. *)

Module Doubles.

Import JsNum Sensitivity.

Definition channel_average (f : ChannelStats -> Q) (cs : list ChannelStats) : JNum :=
  Binary64.div
    (fold_left (fun sum channel => Binary64.add sum (Num (f channel))) cs (Num 0))
    (of_nat (length cs)).

(** [analyzeFrame]: [image] is [None] when sharp throws, [random] is the
    value [Math.random()] returns for this frame. *)
Definition analyzeFrame (image : option SharpImage) (random : Q) : option FrameAnalysis :=
  match image with
  | None => None
  | Some img =>
      let brightness := channel_average mean (channels img) in
      let contrast := channel_average stdev (channels img) in
      let s0 := Num 0 in
      let s1 := if lt brightness (Num 50) || gt brightness (Num 200)
                then Binary64.add s0 (Binary64.lit (1 # 10)) else s0 in
      let s2 := if gt contrast (Num 80)
                then Binary64.add s1 (Binary64.lit (1 # 10)) else s1 in
      let randomFactor := Binary64.mul (Num random) (Binary64.lit (3 # 10)) in
      let s3 := Binary64.add s2 randomFactor in
      Some {| suspicionScore := min s3 (Num 1);
              brightness := brightness;
              contrast := contrast;
              width := img_width img;
              height := img_height img |}
  end.

(** The body of the [forEach] over [allAnalyses]. *)
Definition accumulate (acc : Totals) (analysis : FrameAnalysis) : Totals :=
  {| totalSuspicion := Binary64.add (totalSuspicion acc) (suspicionScore analysis);
     sumBrightness := Binary64.add (sumBrightness acc) (brightness analysis);
     sumContrast := Binary64.add (sumContrast acc) (contrast analysis);
     highSuspicionFrames :=
       if gt (suspicionScore analysis) (Binary64.lit (6 # 10))
       then S (highSuspicionFrames acc) else highSuspicionFrames acc |}.

(** Stage 3 of [analyzeSensitivity]: aggregation and classification of the
    scored frames into the [results] object. *)
Definition classify (allAnalyses : list FrameAnalysis) : AnalysisResults :=
  let frameCount := length allAnalyses in
  let totals := fold_left accumulate allAnalyses no_totals in
  let high := highSuspicionFrames totals in
  let avgSuspicion := Binary64.div (totalSuspicion totals) (of_nat frameCount) in
  let avgBrightness := Binary64.div (sumBrightness totals) (of_nat frameCount) in
  let avgContrast := Binary64.div (sumContrast totals) (of_nat frameCount) in
  let '(result, confidence, notes) :=
    if gt avgSuspicion (Binary64.lit (7 # 10))
       || gt (of_nat high) (Binary64.mul (of_nat frameCount) (Binary64.lit (3 # 10)))
    then (flagged, min avgSuspicion (Binary64.lit (9 # 10)),
          "Potentially inappropriate content detected in video frames.")
    else if gt avgSuspicion (Binary64.lit (4 # 10)) || (0 <? high)%nat
    then (under_review,
          min (Binary64.mul avgSuspicion (Binary64.lit (8 # 10))) (Binary64.lit (7 # 10)),
          "Some potentially concerning content detected. Manual review recommended.")
    else (safe,
          max (Binary64.lit (85 # 100)) (Binary64.sub (Binary64.lit (98 # 100)) avgSuspicion),
          "Content appears to be safe for general audiences.") in
  {| ar_status := st_completed;
     ar_result := result;
     ar_confidence := Binary64.round2 confidence;
     ar_flaggedContent :=
       {| violence := false; adult := gt avgSuspicion (Binary64.lit (6 # 10));
          hate := false; drugs := false; weapons := false |};
     ar_notes := notes;
     ar_details :=
       {| framesAnalyzed := frameCount;
          averageScores :=
            Some {| avg_suspicion := Binary64.round2 avgSuspicion;
                    avg_brightness := Binary64.round2 avgBrightness;
                    avg_contrast := Binary64.round2 avgContrast;
                    avg_highSuspicionFrames := high |};
          error := None |} |}.

(** *** The classification rule in the words of the specification *)

(** Mean suspicion over the scored frames, summed in their order. *)
Definition spec_avgSuspicion (l : list FrameAnalysis) : JNum :=
  Binary64.div (fold_left Binary64.add (map suspicionScore l) (Num 0))
    (of_nat (length l)).

(** Whether the suspicion of a frame exceeds 0.6. *)
Definition high_suspicion (a : FrameAnalysis) : bool :=
  gt (suspicionScore a) (Binary64.lit (6 # 10)).

(** Number of frames whose suspicion exceeds 0.6. *)
Definition spec_highCount (l : list FrameAnalysis) : nat :=
  length (List.filter high_suspicion l).

(** Fraction of the scored frames whose suspicion exceeds 0.6. *)
Definition spec_highRatio (l : list FrameAnalysis) : Q :=
  (inject_Z (Z.of_nat (spec_highCount l)) / inject_Z (Z.of_nat (length l)))%Q.

End Doubles.

(** ** Listing and pagination ([GET /] of the video routes) *)

Module Listing.

Import JsNum Sensitivity VideoModel Routes.

(** [Math.ceil]. *)
Definition ceil (x : JNum) : JNum :=
  match x with
  | Num q => Num (inject_Z (Qceiling q))
  | _ => x
  end.

Record Pagination := {
  currentPage : Z;
  totalPages : JNum;
  totalVideos : Z;
  hasNextPage : bool;
  hasPrevPage : bool
}.

(** The [pagination] object of the answer; [page] and [limit] are the
    values of [parseInt(req.query.page) || 1] and
    [parseInt(req.query.limit) || 10]. *)
Definition paginate (page limit total : Z) : Pagination :=
  {| currentPage := page;
     totalPages := ceil (div (of_Z total) (of_Z limit));
     totalVideos := total;
     hasNextPage := lt (of_Z page) (ceil (div (of_Z total) (of_Z limit)));
     hasPrevPage := (1 <? page)%Z |}.

(** [(page - 1) * limit]. *)
Definition skip_of (page limit : Z) : Z := (page - 1) * limit.

(** The optional filters of the request; the text [search] is matched by
    the text index of the database. *)
Record Filters := {
  by_status : option Status;
  by_sensitivity : option Verdict;
  by_search : option string
}.

Definition verdict_eqb (a b : Verdict) : bool :=
  match a, b with
  | safe, safe | flagged, flagged | under_review, under_review => true
  | _, _ => false
  end.

(** Whether a document matches the [query] object that the handler builds
    for [user]; [text_matches] is the [$text] operator. *)
Definition matches_query (text_matches : string -> Video -> bool) (user : User)
    (filters : Filters) (video : Video) : bool :=
  String.eqb (organizationId video) (user_organizationId user)
  && isActive video
  && (if negb (String.eqb (role user) "admin")
      then String.eqb (uploadedBy video) (user_id user)
           || visibility_eqb (visibility video) organization
           || visibility_eqb (visibility video) public
      else true)
  && match by_status filters with
     | Some s => status_eqb (status video) s
     | None => true
     end
  && match by_sensitivity filters with
     | Some r =>
         match sa_result (sensitivityAnalysis video) with
         | Some r' => verdict_eqb r' r
         | None => false
         end
     | None => true
     end
  && match by_search filters with
     | Some text => text_matches text video
     | None => true
     end.

(** A request without filters. *)
Definition no_filters : Filters :=
  {| by_status := None; by_sensitivity := None; by_search := None |}.

(** [Video.find(query).sort(...).skip(skip).limit(limit)] on the collection
    [sorted], given latest first. *)
Definition find_page (text_matches : string -> Video -> bool) (user : User)
    (filters : Filters) (sorted : list Video) (page limit : Z) : list Video :=
  firstn (Z.to_nat limit)
    (skipn (Z.to_nat (skip_of page limit))
       (List.filter (matches_query text_matches user filters) sorted)).

(** [Video.countDocuments(query)]. *)
Definition count_matches (text_matches : string -> Video -> bool) (user : User)
    (filters : Filters) (sorted : list Video) : Z :=
  Z.of_nat (length (List.filter (matches_query text_matches user filters) sorted)).

End Listing.

(** ** Dashboard counters ([GET /dashboard-stats] of the user routes) *)

Module Dashboard.

Import Sensitivity VideoModel.

Definition verdict_name (r : Verdict) : string :=
  match r with
  | safe => "safe" | flagged => "flagged" | under_review => "under-review"
  end.

(** [acc[key] = (acc[key] || 0) + 1] on the counters object. *)
Definition bump (acc : gmap string nat) (key : string) : gmap string nat :=
  <[ key := (default 0 (acc !! key) + 1)%nat ]> acc.

(** [stats.statusBreakdown.reduce(..., {})]. *)
Definition statusCounts (statusBreakdown : list Status) : gmap string nat :=
  fold_left (fun acc status => bump acc (status_name status)) statusBreakdown ∅.

(** [stats.sensitivityBreakdown.reduce(..., {})]: a [null] result is not
    counted. *)
Definition sensitivityCounts (sensitivityBreakdown : list (option Verdict))
    : gmap string nat :=
  fold_left
    (fun acc result =>
       match result with
       | Some r => bump acc (verdict_name r)
       | None => acc
       end) sensitivityBreakdown ∅.

(** The [$match] and the two [$push] accumulators of the aggregation. *)
Definition breakdown (organization : string) (videos : list Video)
    : list Status * list (option Verdict) :=
  let matched :=
    List.filter (fun v => String.eqb (organizationId v) organization && isActive v)
      videos in
  (map status matched, map (fun v => sa_result (sensitivityAnalysis v)) matched).

End Dashboard.

(** ** Roles and deactivation ([PUT /:userId/role], [PUT /:userId/deactivate]) *)

Module Accounts.

(** The fields of a User document that the routes below read and write. *)
Record Account := {
  acc_id : string;
  acc_organizationId : string;
  acc_email : string;
  acc_role : string;
  acc_isActive : bool
}.

Definition set_role (r : string) (a : Account) : Account :=
  {| acc_id := acc_id a; acc_organizationId := acc_organizationId a;
     acc_email := acc_email a; acc_role := r; acc_isActive := acc_isActive a |}.

Definition set_active (b : bool) (a : Account) : Account :=
  {| acc_id := acc_id a; acc_organizationId := acc_organizationId a;
     acc_email := acc_email a; acc_role := acc_role a; acc_isActive := b |}.

Definition set_email (e : string) (a : Account) : Account :=
  {| acc_id := acc_id a; acc_organizationId := acc_organizationId a;
     acc_email := e; acc_role := acc_role a; acc_isActive := acc_isActive a |}.

(** [User.findOne({ _id, organizationId, isActive: true })]. *)
Definition findOne_member (users : gmap string Account) (id organization : string)
    : option Account :=
  match users !! id with
  | Some a =>
      if String.eqb (acc_organizationId a) organization && acc_isActive a
      then Some a else None
  | None => None
  end.

Definition is_active_admin (organization : string) (a : Account) : bool :=
  String.eqb (acc_organizationId a) organization
  && String.eqb (acc_role a) "admin"
  && acc_isActive a.

(** [User.countDocuments({ organizationId, role: 'admin', isActive: true })]. *)
Definition adminCount (users : gmap string Account) (organization : string) : nat :=
  size (filter (fun kv => is_active_admin organization kv.2 = true) users).

(** [PUT /:userId/role] once the body has passed validation, for the
    requester [me]: the status of the answer and the users afterwards. *)
Definition change_role (users : gmap string Account) (me : Account)
    (userId role : string) : Z * gmap string Account :=
  match findOne_member users userId (acc_organizationId me) with
  | None => (404, users)
  | Some user =>
      if String.eqb (acc_id user) (acc_id me) && negb (String.eqb role "admin")
         && (adminCount users (acc_organizationId me) <=? 1)%nat
      then (400, users)
      else (200, <[ acc_id user := set_role role user ]> users)
  end.

(** [PUT /:userId/deactivate]. *)
Definition deactivate (users : gmap string Account) (me : Account) (userId : string)
    : Z * gmap string Account :=
  match findOne_member users userId (acc_organizationId me) with
  | None => (404, users)
  | Some user =>
      if String.eqb (acc_id user) (acc_id me)
         && (adminCount users (acc_organizationId me) <=? 1)%nat
      then (400, users)
      else (200, <[ acc_id user := set_active false user ]> users)
  end.

(** [User.findOne({ email, _id: { $ne: me } })]. *)
Definition findOne_email (users : gmap string Account) (email me : string)
    : option Account :=
  snd <$> head (map_to_list
                  (filter (fun kv => acc_email kv.2 = email /\ kv.1 <> me) users)).

(** [PUT /profile] once the body has passed validation, as far as the
    email goes ([None] when the body has none): the status of the answer
    and the users afterwards. The lookup for another holder of the email
    is made for a truthy email only; [findByIdAndUpdate] writes every field
    that the body defines, and the answer reads the document it returns. *)
Definition update_profile (users : gmap string Account) (me : Account)
    (email : option string) : Z * gmap string Account :=
  let taken :=
    match JsString.nonempty email with
    | Some e => findOne_email users e (acc_id me)
    | None => None
    end in
  match taken with
  | Some _ => (400, users)
  | None =>
      match users !! acc_id me with
      | None => (500, users)
      | Some user =>
          (200, match email with
                | Some e => <[ acc_id me := set_email e user ]> users
                | None => users
                end)
      end
  end.

End Accounts.

(** ** Names of the stored uploads ([utils/upload.js]) *)

Module UploadNames.

(** The characters that [/[^a-zA-Z0-9-_]/g] leaves alone. *)
Definition kept (c : ascii) : bool :=
  let n := nat_of_ascii c in
  ((97 <=? n) && (n <=? 122))%nat || ((65 <=? n) && (n <=? 90))%nat
  || ((48 <=? n) && (n <=? 57))%nat || Ascii.eqb c "-" || Ascii.eqb c "_".

(** [baseName.replace(/[^a-zA-Z0-9-_]/g, '_')]. *)
Fixpoint sanitize (baseName : string) : string :=
  match baseName with
  | EmptyString => EmptyString
  | String c rest => String (if kept c then c else "_"%char) (sanitize rest)
  end.

(** The stored name: the sanitized base name, the unique suffix, and the
    extension of the original name. *)
Definition stored_name (baseName uniqueSuffix ext : string) : string :=
  (sanitize baseName ++ "-" ++ uniqueSuffix ++ ext)%string.

End UploadNames.

(** ** The validators of the Video schema ([models/Video.js])

    [save()] rejects a document that one of the validators of the schema
    refuses, or that holds a number Mongoose cannot cast. [schema_accepts]
    says, over the fields of the model, that none of them does; where the
    outcome of a run rests on its writes being accepted, the theorem says
    so with [writes_accepted]. The fields that the model of a document
    leaves out ([description], [originalName], [tags]) do not change after
    the upload, whose handler has [request_accepted] for them; the ids of
    the uploader and of the organization are those of stored documents. *)

Module Schema.

Import JsNum Sensitivity VideoModel Runtime.

(** A [Number] path: the cast refuses NaN. *)
Definition castable (x : JNum) : bool :=
  match x with
  | NaN => false
  | _ => true
  end.

(** [min: lo, max: hi] on a number. *)
Definition within (lo hi : Z) (x : JNum) : bool :=
  castable x && negb (lt x (of_Z lo)) && negb (gt x (of_Z hi)).

(** A character that [trim] keeps: a printable ASCII character other than
    the space. *)
Definition visible (c : ascii) : bool :=
  (32 <? nat_of_ascii c)%nat && (nat_of_ascii c <? 127)%nat.

Fixpoint has_visible (s : string) : bool :=
  match s with
  | EmptyString => false
  | String c rest => visible c || has_visible rest
  end.

(** [required] on a string: the empty string is refused. *)
Definition present (s : string) : bool := negb (String.eqb s "").

(** [trim: true, maxlength: n]: at most [n] characters once trimmed, which
    a text of at most [n] characters is. *)
Definition at_most (n : nat) (s : string) : bool := (String.length s <=? n)%nat.

Definition accepts_scores (scores : option AverageScores) : bool :=
  match scores with
  | Some s => castable (avg_suspicion s) && castable (avg_brightness s)
              && castable (avg_contrast s)
  | None => true
  end.

(** [sensitivityAnalysis]: [confidence] has [min: 0, max: 100], [notes] has
    [maxlength: 500]; [null] passes both. The enumerations hold by type. *)
Definition accepts_analysis (sa : SensitivityAnalysis) : bool :=
  match sa_confidence sa with Some c => within 0 100 c | None => true end
  && match sa_notes sa with Some notes => at_most 500 notes | None => true end
  && accepts_scores (averageScores (sa_details sa)).

Definition accepts_metadata (m : option Metadata) : bool :=
  match m with
  | Some m => castable (md_bitrate m) && castable (md_frameRate m)
  | None => true
  end.

(** The validators and casts of the fields that the model has: [title] is
    required and has [maxlength: 200] after [trim]; [filename], [filePath],
    [mimeType], [uploadedBy] and [organizationId] are required;
    [processingProgress] has [min: 0, max: 100]; the numbers are numbers. *)
Definition schema_accepts (v : Video) : bool :=
  has_visible (title v) && at_most 200 (title v)
  && present (filename v) && present (filePath v) && present (mimeType v)
  && present (uploadedBy v) && present (organizationId v)
  && castable (duration v)
  && (0 <=? processingProgress v)%Z && (processingProgress v <=? 100)%Z
  && accepts_analysis (sensitivityAnalysis v)
  && accepts_metadata (metadata v).

Definition accepted_call (c : Call) : bool :=
  match c with
  | Save document => schema_accepts document
  | _ => true
  end.

(** The calls a handler makes from a world, latest first. *)
Definition calls_of {A} (m : M A) (w : World) : list Call :=
  take (length (calls (world_after m w)) - length (calls w)) (calls (world_after m w)).

(** Every document the handler saves is one the schema accepts. *)
Definition writes_accepted {A} (m : M A) (w : World) : bool :=
  forallb accepted_call (calls_of m w).

End Schema.

(** ** The upload route ([POST /upload]) *)

Module UploadRoute.

Import JsNum Sensitivity VideoModel Broadcast Runtime Processor Routes.
Local Open Scope js_scope.

(** [req.file], as multer leaves it. *)
Record UploadedFile := {
  file_filename : string;
  file_originalname : string;
  file_path : string;
  file_size : Z;
  file_mimetype : string
}.

(** An element of the array that [JSON.parse] returns: a string, or a value
    of another kind (a number, a boolean, null, an array, an object). *)
Inductive TagValue :=
| TagText (text : string)
| TagOther.

(** What [JSON.parse(tagsString)] does: it returns an array, or it throws
    or returns a value that is not an array. *)
Inductive ParsedTags :=
| TagArray (tags : list TagValue)
| NoArray.

(** What the handler reads of the request. [validation_failed] is
    [!errors.isEmpty()] for the result of express-validator; [body_tags] is
    [None] when the body has no tags, and else what [JSON.parse] does with
    them; [new_id] is the id that Mongoose gives the new document. *)
Record UploadRequest := {
  validation_failed : bool;
  file : option UploadedFile;
  body_title : string;
  body_description : option string;
  body_visibility : option Visibility;
  body_tags : option ParsedTags;
  user : User;
  new_id : string
}.

(** [if (req.file) await fsPromises.unlink(req.file.path).catch(console.error)]. *)
Definition remove_upload (env : Env) (file : option UploadedFile) : M unit :=
  match file with
  | Some f =>
      call (Unlink (file_path f)) ;;
      match unlink_error env (file_path f) with
      | Some message => call (ConsoleError message)
      | None => ret tt
      end
  | None => ret tt
  end.

(** [const tags = JSON.parse(tagsString)] up to the call of [tags.map],
    where [tagsString] is ['[]'] when the body has no tags: a syntax error
    of [JSON.parse], or the type error of a value without [map]. *)
Definition parse_tags (req : UploadRequest) : M (list TagValue) :=
  match body_tags req with
  | None => ret []
  | Some (TagArray tags) => ret tags
  | Some NoArray => throw (Error "tags is not a JSON array")
  end.

(** [tags.map(tag => tag.trim())]: only a string has [trim]. The trimmed
    tags go into the document, in a field the model leaves out. *)
Fixpoint trim_tags (tags : list TagValue) : M unit :=
  match tags with
  | [] => ret tt
  | TagText _ :: rest => trim_tags rest
  | TagOther :: _ => throw (TypeError "tag.trim is not a function")
  end.

(** The handler of [POST /upload], behind [authenticateToken], multer and
    the validators. The pipeline is not awaited by the handler; as in
    [upload], its effects are sequenced before the answer, which does not
    depend on them. *)
Definition post_upload (env : Env) (app : gmap string Io) (req : UploadRequest)
    : M Response :=
  try_catch
    (if validation_failed req
     then
       remove_upload env (file req) ;;
       ret (respond_json 400 "Validation failed")
     else
       match file req with
       | None => ret (respond_json 400 "Video file is required")
       | Some f =>
           let* tags := parse_tags req in
           trim_tags tags ;;
           let video :=
             new_Video (new_id req) (body_title req) (file_filename f) (file_path f)
               (file_size f) (file_mimetype f) (user_id (user req))
               (user_organizationId (user req))
               (default private (body_visibility req)) in
           hold video ;;
           save ;;
           let io := app_get app "io" in
           emit_to io (room_of (user_id (user req)))
             (UploadComplete (_id video) (title video) (filename video)) ;;
           processVideoAsync env video io ;;
           ret {| res_status := 201; res_headers := [];
                  res_body := Json true
                                "Video uploaded successfully and processing started"
                                None |}
       end)
    (fun error =>
       call (ConsoleError "Video upload error:") ;;
       remove_upload env (file req) ;;
       ret (respond_json 500 "Error uploading video")).





End UploadRoute.

(** * Specification-side definitions *)

Module StreamSpec.

Import VideoModel Runtime Routes.

(** The serving preconditions: a token that verifies to an existing user, an
    active and completed video that this user may view, and its artifact on
    disk holding [bytes]. *)
Definition servable (env : Env) (w : World) (req : Request) (video : Video)
    (bytes : list Byte.byte) : Prop :=
  exists token uid user,
    JsString.nonempty (token_of req) = Some token
    /\ jwt_verify env token = Some (Some uid)
    /\ find_user env uid = Some user
    /\ db w !! params_id req = Some video
    /\ isActive video = true
    /\ status video = completed
    /\ canBeViewedBy video user = true
    /\ disk env (path_resolve env (artifact_path video)) = Some bytes.

(** The bytes of the file at offsets [first] to [last], both included. *)
Definition byte_span (bytes : list Byte.byte) (first last : N) : list Byte.byte :=
  firstn (N.to_nat (last - first + 1)) (skipn (N.to_nat first) bytes).

(** The 206 answer for the bytes [first] to [last] of a file holding [bytes]. *)
Definition partial_content (resp : Response) (bytes : list Byte.byte) (first last : N)
    : Prop :=
  res_status resp = 206
  /\ header "Content-Range" resp
     = Some ("bytes " ++ JsString.show_N first ++ "-" ++ JsString.show_N last ++ "/"
             ++ JsString.show_N (N.of_nat (length bytes)))%string
  /\ header "Accept-Ranges" resp = Some "bytes"
  /\ header "Content-Length" resp = Some (JsString.show_N (last - first + 1))
  /\ exists streamed,
       res_body resp = FileStream streamed
       /\ streamed = byte_span bytes first last
       /\ N.of_nat (length streamed) = (last - first + 1)%N.

(** The 200 answer with the whole file. *)
Definition full_content (resp : Response) (bytes : list Byte.byte) : Prop :=
  res_status resp = 200
  /\ header "Content-Length" resp = Some (JsString.show_N (N.of_nat (length bytes)))
  /\ res_body resp = FileStream bytes.

End StreamSpec.


Module RecordSpec.

Import Sensitivity VideoModel Runtime Processor Routes.

(** [sensitivity.result] and [sensitivity.confidence] both hold a value. *)
Definition verdict_set (v : Video) : Prop :=
  is_Some (sa_result (sensitivityAnalysis v))
  /\ is_Some (sa_confidence (sensitivityAnalysis v)).

Definition analysis_completed (v : Video) : Prop :=
  sa_status (sensitivityAnalysis v) = st_completed.

(** The worlds the server can be in: it starts empty and serves uploads,
    re-analyses, views, edits and deletions, one after the other, each in
    whatever environment it meets. *)
Inductive reachable : World -> Prop :=
| reach_start :
    reachable {| held := None; db := ∅; dirs := ∅; outbox := []; calls := [] |}
| reach_upload w env id title filename filePath fileSize mimeType user organization
    visibility :
    reachable w ->
    reachable (world_after
                 (upload env server_app
                    (new_Video id title filename filePath fileSize mimeType user
                       organization visibility)) w)
| reach_reanalyze w env id :
    reachable w -> reachable (world_after (reanalyze env server_app id) w)
| reach_view w user id :
    reachable w -> reachable (world_after (view user id) w)
| reach_update w user id new_title new_visibility :
    reachable w ->
    reachable (world_after (update_video user id new_title new_visibility) w)
| reach_delete w user id :
    reachable w -> reachable (world_after (delete_video user id) w).

(** The states a Video Record has gone through: every document written to
    the database so far. *)
Definition record_state (w : World) (v : Video) : Prop := In (Save v) (calls w).

(** A document whose analysis is completed carries a verdict. *)
Definition sound_record (v : Video) : Prop := analysis_completed v -> verdict_set v.

(** The held document, the stored documents and every document ever saved
    are sound. *)
Definition records_sound (w : World) : Prop :=
  (forall v, held w = Some v -> sound_record v)
  /\ (forall id v, db w !! id = Some v -> sound_record v)
  /\ (forall v, In (Save v) (calls w) -> sound_record v).


End RecordSpec.

Module RunSpec.

Import Sensitivity VideoModel Broadcast Runtime Processor Routes.

(** The world [w] after more events and calls (latest first), with the
    directories [ds]. *)
Definition extend (w : World) (ds : gset string) (events : list Emitted)
    (cs : list Call) : World :=
  {| held := held w; db := db w; dirs := ds;
     outbox := events ++ outbox w; calls := cs ++ calls w |}.

(** Runs the steps of a handler that do not depend on the environment. *)
Ltac run_handler :=
  cbv beta iota zeta delta
    [world_after outcome_of fst snd extend
     try_catch try_catch_var bind ret throw modify call
     hold mutate save the_video updateProgress emit emit_to
     push_event push_call set_held set_db set_dirs
     held db dirs outbox calls
     fs_mkdir fs_rmdir_logged
     processVideoAsync upload reanalyze analysis_failed];
  cbn [app].


(** The calls of the transcoding stage. *)
Definition transcode_call (c : Call) : Prop :=
  match c with
  | Mkdir _ | FfmpegTranscode _ _ | ConsoleError _ => True
  | _ => False
  end.

(** The transcoding stage fails: its directory cannot be made, the encoder
    exits with an error, or the optimized artifact does not exist after the
    encoder has exited. *)
Definition transcode_fails (env : Env) (inputPath outputPath : string) : Prop :=
  mkdir_error env (path_dirname env outputPath) <> None
  \/ transcode_ok env inputPath outputPath = false
  \/ stat_size env outputPath = None.


(** The world in which re-analysis calls the engine: the document is held
    and stored with its analysis status set to processing. *)
Definition reopened_world (video : Video) (w : World) : World :=
  {| held := Some (set_sa_status st_processing video);
     db := <[ _id video := set_sa_status st_processing video ]> (db w);
     dirs := dirs w;
     outbox := outbox w;
     calls := Save (set_sa_status st_processing video) :: calls w |}.

(** What re-analysis does from there: the engine runs with the handle found
    under [socketio], its results are merged and saved and the request is
    answered 200, or an exception is answered 500. *)
Definition engine_pass (env : Env) (app : gmap string Io) (video : Video) : M Response :=
  try_catch
    (bind (analyzeSensitivity env (filePath video) (_id video) (app_get app "socketio"))
       (fun analysisResults =>
          bind (mutate (merge_analysis analysisResults)) (fun _ =>
          bind save (fun _ =>
          bind the_video (fun video =>
          ret {| res_status := 200; res_headers := [];
                 res_body := JsonAnalysis "Sensitivity analysis completed"
                               (sensitivityAnalysis video) |})))))
    (fun error =>
       bind (call (ConsoleError "Re-analysis error:")) (fun _ =>
       ret {| res_status := 500; res_headers := [];
              res_body := Json false "Error re-analyzing video"
                            (Some (message_of error)) |})).

(** The events that the analysis engine publishes. *)
Definition is_analysis_event (e : Emitted) : bool :=
  match payload e with
  | AnalysisProgress _ _ _ | AnalysisComplete _ _ | AnalysisError _ _ => true
  | _ => false
  end.

End RunSpec.

Module ProgramLogic.

Import Runtime.

(** From a world in [P], the handler ends in [Q] if it returns and in [E]
    if it throws. *)
Definition triple {A} (P : World -> Prop) (m : M A)
    (Q : A -> World -> Prop) (E : Exn -> World -> Prop) : Prop :=
  forall w, P w ->
    match m w with
    | (Returned a, w') => Q a w'
    | (Thrown e, w') => E e w'
    end.

(** The handler keeps the invariant [I], however it ends. *)
Definition keeps {A} (I : World -> Prop) (m : M A) : Prop :=
  triple I m (fun _ => I) (fun _ => I).

Definition is_save (c : Call) : bool :=
  match c with Save _ => true | _ => false end.

(** An invariant that events, external calls other than a save, and changes
    of the directories cannot break. *)
Record stable (I : World -> Prop) : Prop := {
  stable_event : forall e w, I w -> I (push_event e w);
  stable_call : forall c w, is_save c = false -> I w -> I (push_call c w);
  stable_dirs : forall f w, I w -> I (set_dirs f w)
}.

End ProgramLogic.

(** ** What the analysis engine can return *)

Module EngineSpec.

Import JsNum Sensitivity Runtime.
Local Open Scope Q_scope.



(** An analysis that [analyzeFrame] produced for a frame that sharp read. *)
Definition scored_by (env : Env) (a : FrameAnalysis) : Prop :=
  exists framePath img,
    sharp env framePath = Some img
    /\ analyzeFrame (Some img) (math_random env framePath) = Some a.

(** The two kinds of results: a classification of the frames that were
    scored, or the object of the [catch] block. *)
Definition engine_result (env : Env) (results : AnalysisResults) : Prop :=
  (exists analyses, Forall (scored_by env) analyses /\ results = classify analyses)
  \/ (exists message, results = failed_results message).



End EngineSpec.

(** ** Words of a header *)

Module TokenSpec.

(** The string does not contain the character. *)
Fixpoint free_of (c : ascii) (s : string) : bool :=
  match s with
  | EmptyString => true
  | String c' rest => negb (Ascii.eqb c' c) && free_of c rest
  end.

(** Every character of the string satisfies [p]. *)
Fixpoint all_chars (p : ascii -> bool) (s : string) : bool :=
  match s with
  | EmptyString => true
  | String c rest => p c && all_chars p rest
  end.

End TokenSpec.

(** ** Counters *)

Module CounterSpec.

Import Sensitivity VideoModel.

(** A counter of the dashboard: the key is absent when nothing was counted. *)
Definition counter (n : nat) : option nat :=
  match n with
  | O => None
  | S _ => Some n
  end.

(** A counter that held [before], after [n] more items. *)
Definition counted (before : option nat) (n : nat) : option nat :=
  match n with
  | O => before
  | S _ => Some (default 0 before + n)%nat
  end.

(** The number of active videos of the organization that satisfy [p]. *)
Definition videos_with (organization : string) (p : Video -> bool) (videos : list Video)
    : nat :=
  length (List.filter
            (fun v => String.eqb (organizationId v) organization && isActive v && p v)
            videos).

Definition has_verdict (r : Verdict) (v : Video) : bool :=
  match sa_result (sensitivityAnalysis v) with
  | Some r' => Listing.verdict_eqb r' r
  | None => false
  end.

End CounterSpec.

(** ** The stages *)

Module StageSpec.

Import Runtime Processor.

(** The probe reports no frame rate to evaluate: the probing tool fails, or
    it finds no video stream, or the stream has no [r_frame_rate] or an
    empty one. *)
Definition nothing_to_evaluate (env : Env) (videoPath : string) : Prop :=
  forall metadata stream,
    ffprobe env videoPath = Some metadata ->
    find_stream "video" (streams metadata) = Some stream ->
    r_frame_rate stream = None \/ r_frame_rate stream = Some "".

Definition is_eval (c : Call) : bool :=
  match c with
  | Eval _ => true
  | _ => false
  end.

End StageSpec.

(** ** Administrators *)

Module AccountSpec.

Import Accounts.

(** The organization has an active administrator. *)
Definition has_admin (organization : string) (users : gmap string Account) : Prop :=
  exists id a, users !! id = Some a /\ is_active_admin organization a = true.

(** Every document is stored under its own id. *)
Definition keyed (users : gmap string Account) : Prop :=
  forall id a, users !! id = Some a -> acc_id a = id.

(** No two documents hold the same email. *)
Definition emails_unique (users : gmap string Account) : Prop :=
  forall i j a b,
    users !! i = Some a -> users !! j = Some b -> acc_email a = acc_email b -> i = j.

End AccountSpec.

(** ** The store *)

Module StoreSpec.

Import VideoModel Runtime.

(** Every document is stored under its own id, and every document that was
    ever written has a document stored under its id. *)
Definition records_kept (w : World) : Prop :=
  (forall id v, db w !! id = Some v -> _id v = id)
  /\ (forall v, In (Save v) (calls w) -> is_Some (db w !! _id v)).

End StoreSpec.

(** * A concrete deployment, for the examples *)

Module Sample.

Import JsNum Sensitivity VideoModel Broadcast Runtime Processor Routes.

Definition image : SharpImage :=
  {| img_width := 640; img_height := 480;
     channels := [ {| mean := 120; stdev := 40 |}; {| mean := 100; stdev := 30 |} ] |}.

Definition probe_output : ProbeOutput :=
  {| format := {| pf_duration := Num 12; pf_bit_rate := Num 800000 |};
     streams :=
       [ {| codec_type := "video"; ps_width := Some 640; ps_height := Some 480;
            codec_name := Some "h264"; r_frame_rate := Some "30000/1001";
            display_aspect_ratio := Some "4:3" |};
         {| codec_type := "audio"; ps_width := None; ps_height := None;
            codec_name := Some "aac"; r_frame_rate := Some "0/0";
            display_aspect_ratio := None |} ] |}.

Definition owner : User :=
  {| user_id := "u1"; user_organizationId := "o1"; role := "editor" |}.

Definition file_bytes : list Byte.byte := repeat Byte.x2a 10.

(** Every tool works; the token [good] is the owner's, any other is rejected. *)
Definition env : Env :=
  {| absolute_path := fun p => ("/srv/" ++ p)%string;
     path_dirname := fun _ => "/srv/uploads/videos";
     mkdir_error := fun _ => None;
     rmdir_error := fun _ => None;
     ffmpeg_frames := fun _ _ => inr ["frame_001.jpg"; "frame_002.jpg"; "ffmpeg.log"];
     sharp := fun _ => Some image;
     math_random := fun _ => (1 # 2)%Q;
     stat_size := fun _ => Some 1000;
     ffprobe := fun _ => Some probe_output;
     js_eval := fun source =>
       if String.eqb source "30000/1001" then Some (Num (30000 # 1001)) else None;
     transcode_ok := fun _ _ => true;
     thumbnail_ok := fun _ _ => true;
     access_ok := fun _ => true;
     date_now := "1700000000000";
     jwt_verify := fun token => if String.eqb token "good" then Some (Some "u1") else None;
     find_user := fun id => if String.eqb id "u1" then Some owner else None;
     path_resolve := fun p => ("/srv/" ++ p)%string;
     disk := fun _ => Some file_bytes;
     unlink_error := fun _ => None |}.

(** The same deployment where the recursive removal is refused. *)
Definition env_busy : Env :=
  {| absolute_path := absolute_path env; path_dirname := path_dirname env;
     mkdir_error := mkdir_error env;
     rmdir_error := fun _ => Some "EBUSY: resource busy or locked";
     ffmpeg_frames := ffmpeg_frames env; sharp := sharp env;
     math_random := math_random env; stat_size := stat_size env;
     ffprobe := ffprobe env; js_eval := js_eval env;
     transcode_ok := transcode_ok env; thumbnail_ok := thumbnail_ok env;
     access_ok := access_ok env; date_now := date_now env;
     jwt_verify := jwt_verify env; find_user := find_user env;
     path_resolve := path_resolve env; disk := disk env;
     unlink_error := unlink_error env |}.

(** The same deployment where the sampling run leaves no frame behind. *)
Definition env_no_frames : Env :=
  {| absolute_path := absolute_path env; path_dirname := path_dirname env;
     mkdir_error := mkdir_error env; rmdir_error := rmdir_error env;
     ffmpeg_frames := fun _ _ => inr [];
     sharp := sharp env;
     math_random := math_random env; stat_size := stat_size env;
     ffprobe := ffprobe env; js_eval := js_eval env;
     transcode_ok := transcode_ok env; thumbnail_ok := thumbnail_ok env;
     access_ok := access_ok env; date_now := date_now env;
     jwt_verify := jwt_verify env; find_user := find_user env;
     path_resolve := path_resolve env; disk := disk env;
     unlink_error := unlink_error env |}.


(** The freshly uploaded document of the owner. *)
Definition uploaded : Video :=
  new_Video "v1" "Holiday" "holiday-1.mp4" "uploads/videos/holiday-1.mp4" 1000
    "video/mp4" "u1" "o1" private.

Definition empty_world : World :=
  {| held := None; db := ∅; dirs := ∅; outbox := []; calls := [] |}.

(** A processed video ready to be streamed. *)
Definition ready : Video :=
  set_status completed
    (set_processingProgress 100
       (set_optimizedPath (Some "uploads/optimized/v1.mp4") uploaded)).

Definition ready_world : World :=
  {| held := None; db := {[ "v1" := ready ]}; dirs := ∅; outbox := []; calls := [] |}.

(** A video whose analysis is under way. *)
Definition analysing : Video := set_sa_status st_processing ready.

Definition analysing_world : World :=
  {| held := None; db := {[ "v1" := analysing ]}; dirs := ∅; outbox := []; calls := [] |}.

(** The world after the upload of [uploaded] where every tool works, and the
    document stored then. *)
Definition processed_world : World :=
  world_after (upload env server_app uploaded) empty_world.

Definition processed : Video := default uploaded (db processed_world !! "v1").

(** The world after the same upload where no frame can be sampled, and the
    document stored then. *)
Definition unscored_world : World :=
  world_after (upload env_no_frames server_app uploaded) empty_world.

Definition unscored : Video := default uploaded (db unscored_world !! "v1").


Definition get (token range : option string) : Request :=
  {| params_id := "v1"; query_token := token; authorization := None;
     range := range; origin := None |}.

End Sample.

(** ** Further sample cases *)

Module Cases.

Import JsNum Sensitivity VideoModel Broadcast Runtime Processor Routes UploadRoute.

(** An administrator of another organization. *)
Definition stranger : User :=
  {| user_id := "u9"; user_organizationId := "o9"; role := "admin" |}.

(** An administrator of the owner's organization. *)
Definition manager : User :=
  {| user_id := "u2"; user_organizationId := "o1"; role := "admin" |}.

(** The sample video made public, and the world that stores it. *)
Definition shared : Video := set_visibility public Sample.ready.

Definition shared_world : World :=
  {| held := None; db := {[ "v1" := shared ]}; dirs := ∅; outbox := []; calls := [] |}.

(** The sample deployment where sharp rejects every frame. *)
Definition env_unreadable : Env :=
  {| absolute_path := absolute_path Sample.env; path_dirname := path_dirname Sample.env;
     mkdir_error := mkdir_error Sample.env; rmdir_error := rmdir_error Sample.env;
     ffmpeg_frames := ffmpeg_frames Sample.env; sharp := fun _ => None;
     math_random := math_random Sample.env; stat_size := stat_size Sample.env;
     ffprobe := ffprobe Sample.env; js_eval := js_eval Sample.env;
     transcode_ok := transcode_ok Sample.env; thumbnail_ok := thumbnail_ok Sample.env;
     access_ok := access_ok Sample.env; date_now := date_now Sample.env;
     jwt_verify := jwt_verify Sample.env; find_user := find_user Sample.env;
     path_resolve := path_resolve Sample.env; disk := disk Sample.env;
     unlink_error := unlink_error Sample.env |}.

(** The sample deployment where the probing tool fails. *)
Definition env_no_probe : Env :=
  {| absolute_path := absolute_path Sample.env; path_dirname := path_dirname Sample.env;
     mkdir_error := mkdir_error Sample.env; rmdir_error := rmdir_error Sample.env;
     ffmpeg_frames := ffmpeg_frames Sample.env; sharp := sharp Sample.env;
     math_random := math_random Sample.env; stat_size := stat_size Sample.env;
     ffprobe := fun _ => None; js_eval := js_eval Sample.env;
     transcode_ok := transcode_ok Sample.env; thumbnail_ok := thumbnail_ok Sample.env;
     access_ok := access_ok Sample.env; date_now := date_now Sample.env;
     jwt_verify := jwt_verify Sample.env; find_user := find_user Sample.env;
     path_resolve := path_resolve Sample.env; disk := disk Sample.env;
     unlink_error := unlink_error Sample.env |}.

(** The world in which a handler holds the sample video. *)
Definition held_world : World :=
  {| held := Some Sample.ready; db := {[ "v1" := Sample.ready ]}; dirs := ∅;
     outbox := []; calls := [] |}.

(** The collection with the sample video and its public copy. *)
Definition two_videos : list Video := [Sample.ready; shared].

(** An organization with one administrator and one editor. *)
Definition boss : Accounts.Account :=
  {| Accounts.acc_id := "a1"; Accounts.acc_organizationId := "o1";
     Accounts.acc_email := "boss@example.org";
     Accounts.acc_role := "admin"; Accounts.acc_isActive := true |}.

Definition clerk : Accounts.Account :=
  {| Accounts.acc_id := "a2"; Accounts.acc_organizationId := "o1";
     Accounts.acc_email := "clerk@example.org";
     Accounts.acc_role := "editor"; Accounts.acc_isActive := true |}.

Definition staff : gmap string Accounts.Account := {[ "a1" := boss; "a2" := clerk ]}.

(** The upload of the sample file by its owner, with two tags. *)
Definition holiday_file : UploadedFile :=
  {| file_filename := "holiday-1.mp4"; file_originalname := "holiday.mp4";
     file_path := "uploads/videos/holiday-1.mp4"; file_size := 1000;
     file_mimetype := "video/mp4" |}.


(** The same upload with the tags ['[1]']: an array, but not of strings. *)
Definition upload_of_numbers : UploadRequest :=
  {| validation_failed := false; file := Some holiday_file;
     body_title := "Holiday"; body_description := None; body_visibility := None;
     body_tags := Some (TagArray [TagOther]);
     user := Sample.owner; new_id := "v1" |}.

(** A dark frame of high contrast. *)
Definition dark_image : SharpImage :=
  {| img_width := 640; img_height := 480;
     channels := [ {| mean := 10; stdev := 90 |} ] |}.

(** The double 0.6666666666666667, a value of [Math.random()]. *)
Definition two_thirds : Q := 3002399751580331 # 4503599627370496.

(** The dark frame as the engine scores it with that random value. *)
Definition dark_frames : list FrameAnalysis :=
  match Doubles.analyzeFrame (Some dark_image) two_thirds with
  | Some analysis => [analysis]
  | None => []
  end.

Definition frame_scoring (score : JNum) : FrameAnalysis :=
  {| suspicionScore := score; brightness := Num 40; contrast := Num 90;
     width := 640; height := 480 |}.

(** Three frames of scores 0.8, 0.7 and 0.63. *)
Definition suspicious_frames : list FrameAnalysis :=
  map (fun q => frame_scoring (Binary64.lit q)) [80 # 100; 70 # 100; 63 # 100]%Q.

(** Four frames of mean score 0.5, one of them of high suspicion. *)
Definition mixed_frames : list FrameAnalysis :=
  map (fun q => frame_scoring (Binary64.lit q)) [3 # 4; 1 # 2; 1 # 2; 1 # 4]%Q.

(** Two frames of score 0.1. *)
Definition calm_frames : list FrameAnalysis :=
  map (fun q => frame_scoring (Binary64.lit q)) [1 # 10; 1 # 10]%Q.

End Cases.

(** * Properties *)

Import Sensitivity VideoModel Broadcast Runtime Processor Routes UploadRoute.
Import StreamSpec RecordSpec RunSpec ProgramLogic EngineSpec StageSpec CounterSpec
  AccountSpec StoreSpec.


(** ** Numbers and the accumulators of the classification *)

Section Classification.

Import JsNum Sensitivity.
Local Open Scope Q_scope.



Lemma min_Num (a b : Q) : min (Num a) (Num b) = Num (Qmin a b).
Proof.
  unfold min, cmp, Qmin, GenericMinMax.gmin. destruct (a ?= b); reflexivity.
Qed.


Lemma max_is_Qmax (a b : Q) : Qmax a b == (if Qlt_le_dec a b then b else a).
Proof.
  destruct (Qlt_le_dec a b) as [H|H].
  - apply Q.max_r. apply Qlt_le_weak; exact H.
  - apply Q.max_l; exact H.
Qed.

Lemma div_Num_pos (a : Q) (n : nat) :
  (0 < n)%nat -> div (Num a) (of_nat n) = Num (a / inject_Z (Z.of_nat n)).
Proof.
  intros Hn. unfold div, of_nat, of_Z.
  destruct (Qeq_bool (inject_Z (Z.of_nat n)) 0) eqn:E; [|reflexivity].
  apply Qeq_bool_eq in E. unfold Qeq in E. simpl in E. lia.
Qed.


(** Every frame that [analyzeFrame] scores has a finite suspicion score. *)
Lemma analyzeFrame_finite (image : option SharpImage) (random : Q) (a : FrameAnalysis) :
  analyzeFrame image random = Some a -> is_finite (suspicionScore a).
Proof.
  unfold analyzeFrame. destruct image as [img|]; [|discriminate].
  intros E. injection E as <-. cbn [suspicionScore]. rewrite min_Num. exact Logic.I.
Qed.


End Classification.

(** ** Rounding to the nearest double *)

Section Rounding.

Import JsNum Binary64.
Local Open Scope Q_scope.

Lemma pow2_pos (e : Z) : 0 < pow2 e.
Proof. apply Qpower_0_lt. reflexivity. Qed.

Lemma pow2_add (a b : Z) : pow2 (a + b) == pow2 a * pow2 b.
Proof. apply Qpower_plus. discriminate. Qed.

Lemma pow2_le (a b : Z) : (a <= b)%Z -> pow2 a <= pow2 b.
Proof. intros H. apply Qpower_le_compat_l; [exact H|discriminate]. Qed.

Lemma pow2_lt (a b : Z) : (a < b)%Z -> pow2 a < pow2 b.
Proof. intros H. apply Qpower_lt_compat_l; [exact H|reflexivity]. Qed.

Lemma pow2_succ (a : Z) : pow2 (a + 1) == 2 * pow2 a.
Proof. rewrite pow2_add. change (pow2 1) with 2. ring. Qed.

Lemma pow2_inject (e : Z) : (0 <= e)%Z -> pow2 e == inject_Z (2 ^ e).
Proof. intros H. symmetry. apply (Zpower_Qpower 2 e H). Qed.

Lemma pow2_inverse (e : Z) : pow2 e * pow2 (- e) == 1.
Proof. rewrite <- pow2_add. replace (e + - e)%Z with 0%Z by lia. reflexivity. Qed.

(** Division by a power of two is multiplication by the opposite power. *)
Lemma div_pow2 (x : Q) (e : Z) : x / pow2 e == x * pow2 (- e).
Proof.
  pose proof (pow2_pos e) as P. pose proof (pow2_inverse e) as I.
  apply Qmult_inj_r with (z := pow2 e); [lra|].
  rewrite Qmult_comm, Qmult_div_r by lra.
  rewrite <- Qmult_assoc, (Qmult_comm (pow2 (- e))), I. ring.
Qed.

Lemma ilog2_spec (x : Q) : 0 < x -> pow2 (ilog2 x) <= x /\ x < pow2 (ilog2 x + 1).
Proof.
  intros Hx. destruct x as [n d]. unfold ilog2. cbn [Qnum Qden].
  assert (Hn : (0 < n)%Z) by (unfold Qlt in Hx; simpl in Hx; lia).
  set (a := Z.log2 n). set (b := Z.log2 (Z.pos d)).
  destruct (Z.log2_spec n Hn) as [La Ua]. fold a in La, Ua.
  destruct (Z.log2_spec (Z.pos d) eq_refl) as [Lb Ub]. fold b in Lb, Ub.
  assert (Ha : (0 <= a)%Z) by apply Z.log2_nonneg.
  assert (Hb : (0 <= b)%Z) by apply Z.log2_nonneg.
  rewrite Zle_Qle in La, Lb. rewrite Zlt_Qlt in Ua, Ub.
  rewrite <- Z.add_1_r in Ua, Ub.
  rewrite <- pow2_inject in La, Lb, Ua, Ub by lia.
  assert (E : (n # d) * inject_Z (Z.pos d) == inject_Z n).
  { unfold Qeq, Qmult, inject_Z. simpl. lia. }
  set (x := n # d) in *. set (qn := inject_Z n) in *.
  set (qd := inject_Z (Z.pos d)) in *.
  pose proof (pow2_pos b) as Pb. pose proof (pow2_pos (a - b)) as Pk.
  assert (Ea : pow2 a == pow2 (a - b) * pow2 b).
  { rewrite <- pow2_add. replace (a - b + b)%Z with a by lia. reflexivity. }
  pose proof (pow2_succ a) as Sa. pose proof (pow2_succ b) as Sb.
  pose proof (pow2_succ (a - b)) as Sk.
  assert (Sk' : pow2 (a - b) == 2 * pow2 (a - b - 1)).
  { rewrite <- pow2_succ. replace (a - b - 1 + 1)%Z with (a - b)%Z by lia. reflexivity. }
  destruct (Qle_bool (pow2 (a - b)) x) eqn:B.
  - apply Qle_bool_iff in B. split; [exact B|].
    rewrite Sk. nra.
  - assert (B' : x < pow2 (a - b)).
    { apply Qnot_le_lt. intros C. apply Qle_bool_iff in C. congruence. }
    replace (a - b - 1 + 1)%Z with (a - b)%Z by lia.
    split; [|exact B']. nra.
Qed.

Lemma ilog2_unique (x : Q) (k : Z) : pow2 k <= x -> x < pow2 (k + 1) -> ilog2 x = k.
Proof.
  intros L U.
  assert (Hx : 0 < x) by (pose proof (pow2_pos k); lra).
  destruct (ilog2_spec x Hx) as [L' U'].
  assert (A : (k < ilog2 x + 1)%Z).
  { apply Qpower_lt_compat_l_inv with (q := 2); [|reflexivity]. fold (pow2 k) (pow2 (ilog2 x + 1)). lra. }
  assert (B : (ilog2 x < k + 1)%Z).
  { apply Qpower_lt_compat_l_inv with (q := 2); [|reflexivity]. fold (pow2 (ilog2 x)) (pow2 (k + 1)). lra. }
  lia.
Qed.

Lemma ilog2_mono (x y : Q) : 0 < x -> x <= y -> (ilog2 x <= ilog2 y)%Z.
Proof.
  intros Hx Hxy.
  destruct (ilog2_spec x Hx) as [L _].
  destruct (ilog2_spec y ltac:(lra)) as [_ U].
  assert (A : (ilog2 x < ilog2 y + 1)%Z).
  { apply Qpower_lt_compat_l_inv with (q := 2); [|reflexivity].
    fold (pow2 (ilog2 x)) (pow2 (ilog2 y + 1)). lra. }
  lia.
Qed.

(** The exponent of the last place of a positive rational. *)
Lemma exponent_spec (x : Q) :
  0 < x ->
  (-1074 <= exponent x)%Z /\ x < pow2 (exponent x + 53) /\
  (pow2 (exponent x + 52) <= x \/ exponent x = (-1074)%Z).
Proof.
  intros Hx. destruct (ilog2_spec x Hx) as [L U]. unfold exponent.
  destruct (Z.max_spec (ilog2 x - 52) (-1074)) as [[H ->]|[H ->]].
  - split; [lia|]. split; [|right; reflexivity].
    eapply Qlt_le_trans; [exact U|]. apply pow2_le. lia.
  - split; [lia|]. replace (ilog2 x - 52 + 53)%Z with (ilog2 x + 1)%Z by lia.
    replace (ilog2 x - 52 + 52)%Z with (ilog2 x) by lia. split; [exact U|left; exact L].
Qed.

Lemma exponent_mono (x y : Q) : 0 < x -> x <= y -> (exponent x <= exponent y)%Z.
Proof. intros Hx Hxy. pose proof (ilog2_mono x y Hx Hxy). unfold exponent. lia. Qed.

Lemma exponent_normal (x : Q) (e : Z) :
  (-1074 <= e)%Z -> pow2 (e + 52) <= x -> x < pow2 (e + 53) -> exponent x = e.
Proof.
  intros He L U. unfold exponent. rewrite (ilog2_unique x (e + 52)); [lia|exact L|].
  replace (e + 52 + 1)%Z with (e + 53)%Z by lia. exact U.
Qed.

(** *** The nearest integer *)

Lemma rne_spec (y : Q) : inject_Z (rne y) - (1 # 2) <= y /\ y <= inject_Z (rne y) + (1 # 2).
Proof.
  unfold rne. pose proof (Qfloor_le y) as L. pose proof (Qlt_floor y) as U.
  rewrite inject_Z_plus in U. change (inject_Z 1) with 1 in U.
  set (f := Qfloor y) in *.
  destruct (Qcompare_spec (y - inject_Z f) (1 # 2)) as [C|C|C].
  - destruct (Z.even f); rewrite ?inject_Z_plus;
      change (inject_Z 1) with 1; lra.
  - lra.
  - rewrite inject_Z_plus. change (inject_Z 1) with 1. lra.
Qed.

(** An integer that is nearer than one half is the nearest. *)
Lemma rne_above (y : Q) (n : Z) : inject_Z n - (1 # 2) < y -> (n <= rne y)%Z.
Proof.
  intros H. destruct (rne_spec y) as [_ U].
  assert (A : (n < rne y + 1)%Z); [|lia].
  rewrite Zlt_Qlt, inject_Z_plus. change (inject_Z 1) with 1. lra.
Qed.

Lemma rne_below (y : Q) (n : Z) : y < inject_Z n + (1 # 2) -> (rne y <= n)%Z.
Proof.
  intros H. destruct (rne_spec y) as [L _].
  assert (A : (rne y < n + 1)%Z); [|lia].
  rewrite Zlt_Qlt, inject_Z_plus. change (inject_Z 1) with 1. lra.
Qed.

Lemma rne_comp (y y' : Q) : y == y' -> rne y = rne y'.
Proof.
  intros E. unfold rne. rewrite (Qfloor_comp _ _ E).
  assert (C : (y - inject_Z (Qfloor y') ?= 1 # 2) = (y' - inject_Z (Qfloor y') ?= 1 # 2)).
  { apply Qcompare_comp; [rewrite E|]; reflexivity. }
  rewrite C. reflexivity.
Qed.

Lemma rne_inject (n : Z) : rne (inject_Z n) = n.
Proof.
  apply Z.le_antisymm.
  - apply rne_below. lra.
  - apply rne_above. lra.
Qed.

Lemma rne_mono (y y' : Q) : y <= y' -> (rne y <= rne y')%Z.
Proof.
  intros H. unfold rne.
  pose proof (Qfloor_le y) as L. pose proof (Qlt_floor y) as U.
  pose proof (Qfloor_le y') as L'. pose proof (Qlt_floor y') as U'.
  pose proof (Qfloor_resp_le _ _ H) as F.
  rewrite inject_Z_plus in U, U'. change (inject_Z 1) with 1 in U, U'.
  set (f := Qfloor y) in *. set (f' := Qfloor y') in *. clearbody f f'.
  destruct (Z.eq_dec f f') as [E|N].
  - subst f'.
    destruct (Qcompare_spec (y - inject_Z f) (1 # 2)) as [C|C|C],
      (Qcompare_spec (y' - inject_Z f) (1 # 2)) as [C'|C'|C'];
      try destruct (Z.even f); try lia; exfalso; lra.
  - assert (f + 1 <= f')%Z by lia.
    destruct (y - inject_Z f ?= 1 # 2), (y' - inject_Z f' ?= 1 # 2);
      try destruct (Z.even f); try destruct (Z.even f'); lia.
Qed.

(** *** The nearest double *)

Lemma scaled_le (x y : Q) (e : Z) : x <= y -> x / pow2 e <= y / pow2 e.
Proof.
  intros H. rewrite !div_pow2. pose proof (pow2_pos (- e)). nra.
Qed.

Lemma nearest_above (x : Q) (n : Z) :
  inject_Z n * pow2 (exponent x) - (1 # 2) * pow2 (exponent x) < x ->
  inject_Z n * pow2 (exponent x) <= nearest x.
Proof.
  intros H. unfold nearest. pose proof (pow2_pos (exponent x)) as P.
  assert (A : (n <= rne (x / pow2 (exponent x)))%Z).
  { apply rne_above. apply Qlt_shift_div_l; [exact P|]. lra. }
  rewrite Zle_Qle in A. nra.
Qed.

Lemma nearest_below (x : Q) (n : Z) :
  x < inject_Z n * pow2 (exponent x) + (1 # 2) * pow2 (exponent x) ->
  nearest x <= inject_Z n * pow2 (exponent x).
Proof.
  intros H. unfold nearest. pose proof (pow2_pos (exponent x)) as P.
  assert (A : (rne (x / pow2 (exponent x)) <= n)%Z).
  { apply rne_below. apply Qlt_shift_div_r; [exact P|]. lra. }
  rewrite Zle_Qle in A. nra.
Qed.

Lemma nearest_nonneg (x : Q) : 0 < x -> 0 <= nearest x.
Proof.
  intros Hx. pose proof (pow2_pos (exponent x)) as P.
  rewrite <- (Qmult_0_l (pow2 (exponent x))). change 0 with (inject_Z 0) at 1.
  apply nearest_above. change (inject_Z 0) with 0. lra.
Qed.

Lemma nearest_mono (x y : Q) : 0 < x -> x <= y -> nearest x <= nearest y.
Proof.
  intros Hx Hxy. assert (Hy : 0 < y) by lra.
  pose proof (exponent_mono x y Hx Hxy) as M.
  destruct (exponent_spec x Hx) as (Lx & Ux & _).
  destruct (exponent_spec y Hy) as (Ly & _ & Ny).
  pose proof (pow2_pos (exponent x)) as Px. pose proof (pow2_pos (exponent y)) as Py.
  destruct (Z.eq_dec (exponent x) (exponent y)) as [E|N].
  - unfold nearest. rewrite E.
    pose proof (rne_mono _ _ (scaled_le x y (exponent y) Hxy)) as R.
    rewrite Zle_Qle in R. apply Qmult_le_compat_r; [exact R|lra].
  - destruct Ny as [Ny|Ny]; [|lia].
    apply Qle_trans with (pow2 (exponent x + 53)).
    + rewrite (pow2_add (exponent x) 53), Qmult_comm, (pow2_inject 53) by lia.
      apply nearest_below. rewrite <- (pow2_inject 53), Qmult_comm, <- pow2_add by lia. lra.
    + apply Qle_trans with (pow2 (exponent y + 52)); [apply pow2_le; lia|].
      rewrite (pow2_add (exponent y) 52), Qmult_comm, (pow2_inject 52) by lia.
      apply nearest_above. rewrite <- (pow2_inject 52), Qmult_comm, <- pow2_add by lia. lra.
Qed.

Lemma fl_positive (x : Q) : 0 < x -> fl x = round_pos x.
Proof.
  intros Hx. unfold fl. destruct (Qcompare_spec x 0) as [C|C|C]; try lra. reflexivity.
Qed.

Lemma round_pos_finite (x : Q) :
  nearest x < pow2 1024 -> round_pos x = Num (Qred (nearest x)).
Proof.
  intros H. unfold round_pos. destruct (Qle_bool (pow2 1024) (nearest x)) eqn:B; [|reflexivity].
  apply Qle_bool_iff in B. lra.
Qed.

Lemma round_pos_Num (x r : Q) :
  round_pos x = Num r -> r == nearest x /\ nearest x < pow2 1024.
Proof.
  unfold round_pos. destruct (Qle_bool (pow2 1024) (nearest x)) eqn:B; [discriminate|].
  intros E. injection E as <-. split; [apply Qred_correct|].
  apply Qnot_le_lt. intros C. apply Qle_bool_iff in C. congruence.
Qed.

(** Rounding is monotone: below a finite double is a finite double. *)
Lemma fl_le (x y v : Q) :
  0 <= x -> x <= y -> fl y = Num v -> exists u, fl x = Num u /\ 0 <= u /\ u <= v.
Proof.
  intros Hx Hxy Hv.
  destruct (Qcompare_spec x 0) as [C|C|C]; try lra.
  - exists 0. unfold fl. rewrite (proj1 (Qeq_alt x 0) C). split; [reflexivity|].
    split; [lra|]. destruct (Qcompare_spec y 0) as [D|D|D]; try lra.
    + unfold fl in Hv. rewrite (proj1 (Qeq_alt y 0) D) in Hv. injection Hv as <-. lra.
    + rewrite (fl_positive y D) in Hv. apply round_pos_Num in Hv as [-> _].
      apply nearest_nonneg, D.
  - assert (Hy : 0 < y) by lra.
    rewrite (fl_positive y Hy) in Hv. apply round_pos_Num in Hv as [Ev Fv].
    pose proof (nearest_mono x y C Hxy) as M.
    exists (Qred (nearest x)). rewrite (fl_positive x C).
    split; [apply round_pos_finite; lra|]. rewrite Qred_correct, Ev.
    split; [apply nearest_nonneg, C|exact M].
Qed.

(** The doubles below one end at [1 - 2^-53]. *)
Lemma double_below_one (r : Q) : is_double r -> r < 1 -> r <= 1 - pow2 (-53).
Proof.
  intros (q & Hq & Eq) H1.
  destruct (Qlt_le_dec (1 - pow2 (-53)) r) as [C|C]; [exfalso|exact C].
  change (pow2 (-53)) with (1 # 9007199254740992) in C.
  assert (Hr : 0 < r) by lra.
  rewrite (fl_positive r Hr) in Hq. apply round_pos_Num in Hq as [Hq _].
  assert (E : exponent r = (-53)%Z).
  { apply exponent_normal; [lia| |].
    - change (pow2 (-53 + 52)) with (1 # 2). lra.
    - change (pow2 (-53 + 53)) with 1. exact H1. }
  unfold nearest in Hq. rewrite E in Hq.
  change (pow2 (-53)) with (1 # 9007199254740992) in Hq.
  set (m := rne (r / (1 # 9007199254740992))) in *.
  assert (A : (9007199254740991 < m)%Z).
  { rewrite Zlt_Qlt. change (inject_Z 9007199254740991) with 9007199254740991. lra. }
  assert (B : (m < 9007199254740992)%Z).
  { rewrite Zlt_Qlt. change (inject_Z 9007199254740992) with 9007199254740992. lra. }
  lia.
Qed.
End Rounding.

Section Ratio.

Import JsNum Binary64.
Local Open Scope Q_scope.

Lemma lit_three_tenths : lit (3 # 10) = Num (5404319552844595 # 18014398509481984).
Proof. vm_compute. reflexivity. Qed.




End Ratio.

(** ** The classification rule in binary64 *)

Section ClassificationRule.

Import JsNum Sensitivity Binary64.
Local Open Scope Q_scope.






(** The dark frame with the random value 0.6666666666666667: the engine
    scores the double 0.4, which does not exceed 0.4, and answers safe with
    confidence 0.85. *)
Example dark_frame_is_safe :
  map suspicionScore Cases.dark_frames = [lit (4 # 10)]
  /\ ar_result (Doubles.classify Cases.dark_frames) = safe
  /\ ar_confidence (Doubles.classify Cases.dark_frames) = lit (85 # 100).
Proof. repeat split; vm_compute; reflexivity. Qed.

(** The three examples of the specification: mean 0.71, mean 0.5 with one
    high frame, mean 0.1. *)
Example classification_examples :
  (Doubles.spec_avgSuspicion Cases.suspicious_frames = lit (71 # 100)
   /\ ar_result (Doubles.classify Cases.suspicious_frames) = flagged
   /\ ar_confidence (Doubles.classify Cases.suspicious_frames) = lit (71 # 100))
  /\ (Doubles.spec_avgSuspicion Cases.mixed_frames = lit (5 # 10)
      /\ Doubles.spec_highCount Cases.mixed_frames = 1%nat
      /\ ar_result (Doubles.classify Cases.mixed_frames) = under_review
      /\ ar_confidence (Doubles.classify Cases.mixed_frames) = lit (4 # 10))
  /\ (Doubles.spec_avgSuspicion Cases.calm_frames = lit (1 # 10)
      /\ ar_result (Doubles.classify Cases.calm_frames) = safe
      /\ ar_confidence (Doubles.classify Cases.calm_frames) = lit (88 # 100)).
Proof. repeat split; vm_compute; reflexivity. Qed.

End ClassificationRule.

(** ** Range requests *)

Section RangeParsing.

Import JsString.

Lemma digit_of_not_dash (c : ascii) : digit_of c <> None -> Ascii.eqb c "-" = false.
Proof.
  destruct c as [[] [] [] [] [] [] [] []]; simpl; congruence.
Qed.

(** The printed digits of [d], then [rest], scan back to [d]. *)
Lemma scan_digits_printed (d : Decimal.uint) (rest : string) :
  (forall c r, rest = String c r -> digit_of c = None) ->
  scan_digits (NilEmpty.string_of_uint d ++ rest) = (d, rest).
Proof.
  intros Hrest.
  induction d; simpl; try (rewrite IHd; reflexivity).
  destruct rest as [|c r]; [reflexivity|].
  simpl. rewrite (Hrest c r eq_refl). reflexivity.
Qed.

Lemma split_printed (d : Decimal.uint) (rest : string) :
  split "-" (NilEmpty.string_of_uint d ++ String "-" rest)
  = NilEmpty.string_of_uint d :: split "-" rest.
Proof.
  induction d; simpl; try (rewrite IHd; reflexivity).
  reflexivity.
Qed.

Lemma split_printed_end (d : Decimal.uint) :
  split "-" (NilEmpty.string_of_uint d) = [NilEmpty.string_of_uint d].
Proof.
  induction d; simpl; try (rewrite IHd; reflexivity).
  reflexivity.
Qed.

Lemma scan_digits_printed_end (d : Decimal.uint) :
  scan_digits (NilEmpty.string_of_uint d) = (d, EmptyString).
Proof.
  induction d; simpl; try (rewrite IHd; reflexivity).
  reflexivity.
Qed.

Lemma to_uint_not_Nil (n : N) : N.to_uint n <> Decimal.Nil.
Proof.
  intros H. pose proof (DecimalN.Unsigned.of_to n) as E.
  rewrite H in E. destruct n; [discriminate H | discriminate E].
Qed.

(** [parseInt] reads back what a template literal prints for a natural. *)
Lemma parseInt_show_N (n : N) : parseInt (show_N n) = Some (Z.of_N n).
Proof.
  unfold show_N. pose proof (to_uint_not_Nil n) as Hnil.
  pose proof (DecimalN.Unsigned.of_to n) as Hof.
  destruct (N.to_uint n) as [|d|d|d|d|d|d|d|d|d|d] eqn:E; [congruence| ..];
    unfold parseInt; simpl; rewrite scan_digits_printed_end; rewrite <- Hof;
    reflexivity.
Qed.

Lemma show_N_nonempty (n : N) : truthy (Some (show_N n)) = true.
Proof.
  unfold show_N. pose proof (to_uint_not_Nil n) as Hnil.
  destruct (N.to_uint n); [congruence| ..]; reflexivity.
Qed.

Lemma show_Z_of_N (n : N) : show_Z (Z.of_N n) = show_N n.
Proof.
  destruct n as [|p]; [reflexivity|]. simpl. reflexivity.
Qed.

Lemma remove_first_unfold (pat s : string) :
  remove_first pat s
  = if String.prefix pat s then drop (String.length pat) s
    else match s with
         | EmptyString => EmptyString
         | String c s' => String c (remove_first pat s')
         end.
Proof. destruct s; reflexivity. Qed.

Lemma prefix_append (pat rest : string) : String.prefix pat (pat ++ rest) = true.
Proof.
  induction pat as [|c pat IH]; [destruct rest; reflexivity|].
  change (String c pat ++ rest)%string with (String c (pat ++ rest)%string).
  cbn [String.prefix]. rewrite IH.
  destruct (ascii_dec c c); congruence.
Qed.

Lemma drop_append (pat rest : string) : drop (String.length pat) (pat ++ rest) = rest.
Proof.
  induction pat as [|c pat IH]; [destruct rest; reflexivity|].
  change (String c pat ++ rest)%string with (String c (pat ++ rest)%string).
  cbn [String.length drop]. exact IH.
Qed.

Lemma remove_first_prefix (pat rest : string) : remove_first pat (pat ++ rest) = rest.
Proof.
  rewrite remove_first_unfold, prefix_append. apply drop_append.
Qed.

(** What the handler reads in [bytes=start-end]. *)
Lemma range_parts (first last : N) :
  split "-" (remove_first "bytes=" ("bytes=" ++ show_N first ++ "-" ++ show_N last))
  = [show_N first; show_N last].
Proof.
  rewrite remove_first_prefix. unfold show_N.
  change ("-" ++ NilEmpty.string_of_uint (N.to_uint last))%string
    with (String "-" (NilEmpty.string_of_uint (N.to_uint last))).
  rewrite split_printed, split_printed_end. reflexivity.
Qed.

(** What the handler reads in [bytes=start-]. *)
Lemma range_parts_open (first : N) :
  split "-" (remove_first "bytes=" ("bytes=" ++ show_N first ++ "-"))
  = [show_N first; EmptyString].
Proof.
  rewrite remove_first_prefix. unfold show_N.
  rewrite split_printed. reflexivity.
Qed.

End RangeParsing.

Section Streaming.


Lemma status_eqb_refl (s : Status) : status_eqb s s = true.
Proof. destruct s; reflexivity. Qed.

Lemma byte_span_length (bytes : list Byte.byte) (first last : N) :
  (first <= last)%N -> (N.to_nat last < length bytes)%nat ->
  N.of_nat (length (byte_span bytes first last)) = (last - first + 1)%N.
Proof.
  intros Hle Hlt. unfold byte_span.
  rewrite length_firstn, length_skipn. lia.
Qed.

Lemma createReadStream_inside (bytes : list Byte.byte) (first last : N) (w : World) :
  (first <= last)%N ->
  createReadStream bytes (Some (Z.of_N first)) (Some (Z.of_N last)) w
  = (Returned (byte_span bytes first last), w).
Proof.
  intros Hle. unfold createReadStream, byte_span.
  destruct (Z.ltb_spec (Z.of_N first) 0); [lia|].
  destruct (Z.ltb_spec (Z.of_N last) 0); [lia|].
  destruct (Z.ltb_spec (Z.of_N last) (Z.of_N first)); [lia|].
  cbn [orb ret].
  replace (Z.of_N last - Z.of_N first + 1) with (Z.of_N (last - first + 1)) by lia.
  assert (E : forall n : N, Z.to_nat (Z.of_N n) = N.to_nat n).
  { intros n. rewrite <- N_nat_Z. apply Nat2Z.id. }
  rewrite !E. reflexivity.
Qed.

Lemma fileSize_shown (bytes : list Byte.byte) :
  JsString.show_Z (Z.of_nat (length bytes)) = JsString.show_N (N.of_nat (length bytes)).
Proof. rewrite <- show_Z_of_N. f_equal. lia. Qed.

(** The steps of the handler that the serving preconditions decide. *)
Ltac enter_stream H :=
  destruct H as (token & uid & user & Htok & Hjwt & Huser & Hdb & Hact & Hst & Hview & Hdisk);
  unfold outcome_of, stream, try_catch, bind;
  rewrite Htok, Hjwt; cbn [ret mbind option_bind];
  rewrite Huser, Hdb, Hact, Hst; cbn [negb orb status_eqb];
  rewrite Hview; cbn [negb];
  rewrite Hdisk.

(** C5 (amended). For every request that satisfies the serving
    preconditions: a header [Range: bytes=start-end] with
    start <= end < fileSize is answered with status 206, Content-Range
    [bytes start-end/size], Accept-Ranges [bytes], Content-Length
    end-start+1, and exactly the bytes start..end of the file; a header
    [Range: bytes=start-] with start < fileSize is answered in the same way
    with end = fileSize-1; a request without Range header is answered with
    status 200, Content-Length the file size, and the whole file. *)
Theorem stream_serves_ranges (env : Env) (w : World) (req : Request) (video : Video)
    (bytes : list Byte.byte) :
  servable env w req video bytes ->
  (forall first last : N,
      range req = Some ("bytes=" ++ JsString.show_N first ++ "-" ++ JsString.show_N last)%string ->
      (first <= last)%N ->
      (N.to_nat last < length bytes)%nat ->
      exists resp, outcome_of (stream env req) w = Returned resp
                   /\ partial_content resp bytes first last)
  /\ (forall first : N,
      range req = Some ("bytes=" ++ JsString.show_N first ++ "-")%string ->
      (N.to_nat first < length bytes)%nat ->
      exists resp, outcome_of (stream env req) w = Returned resp
                   /\ partial_content resp bytes first (N.of_nat (length bytes) - 1))
  /\ (range req = None ->
      exists resp, outcome_of (stream env req) w = Returned resp
                   /\ full_content resp bytes).
Proof.
  intros Hserve. repeat split.
  - intros first last Hrange Hle Hlt.
    enter_stream Hserve. rewrite Hrange.
    change (JsString.nonempty (Some ?s)) with (Some s). cbv beta iota.
    rewrite !range_parts. cbn [JsString.parseInt_at nth_error].
    rewrite !parseInt_show_N, show_N_nonempty.
    rewrite createReadStream_inside by exact Hle.
    cbn [ret fst]. eexists. split; [reflexivity|].
    unfold partial_content, header. cbn. rewrite !show_Z_of_N, fileSize_shown.
    repeat split.
    + f_equal. replace (Z.of_N last - Z.of_N first + 1) with (Z.of_N (last - first + 1)) by lia.
      apply show_Z_of_N.
    + eexists. split; [reflexivity|]. split; [reflexivity|].
      apply byte_span_length; assumption.
  - intros first Hrange Hlt.
    enter_stream Hserve. rewrite Hrange.
    change (JsString.nonempty (Some ?s)) with (Some s). cbv beta iota.
    rewrite !range_parts_open. cbn [JsString.parseInt_at nth_error JsString.truthy].
    rewrite !parseInt_show_N.
    replace (Z.of_nat (length bytes) - 1) with (Z.of_N (N.of_nat (length bytes) - 1)) by lia.
    rewrite createReadStream_inside by lia.
    cbn [ret fst]. eexists. split; [reflexivity|].
    unfold partial_content, header. cbn. rewrite !show_Z_of_N, fileSize_shown.
    repeat split.
    + f_equal.
      replace (Z.of_N (N.of_nat (length bytes) - 1) - Z.of_N first + 1)
        with (Z.of_N (N.of_nat (length bytes) - 1 - first + 1)) by lia.
      apply show_Z_of_N.
    + eexists. split; [reflexivity|]. split; [reflexivity|].
      apply byte_span_length; lia.
  - intros Hrange.
    enter_stream Hserve. rewrite Hrange.
    cbn [JsString.nonempty ret fst]. eexists. split; [reflexivity|].
    unfold full_content, header. cbn. rewrite fileSize_shown. repeat split.
Qed.

End Streaming.

Section StreamingExamples.


Lemma sample_servable (range : option string) :
  servable Sample.env Sample.ready_world (Sample.get (Some "good") range)
    Sample.ready Sample.file_bytes.
Proof.
  exists "good", "u1", Sample.owner. repeat split; reflexivity.
Qed.

(** The bytes 0..99 of a 1000-byte file are not needed to see the rule at
    work: bytes 2..5 of the ten-byte sample file. *)
Lemma stream_serves_ranges_witness :
  exists resp,
    outcome_of (stream Sample.env (Sample.get (Some "good") (Some "bytes=2-5")))
      Sample.ready_world = Returned resp
    /\ partial_content resp Sample.file_bytes 2 5.
Proof.
  apply (proj1 (stream_serves_ranges Sample.env Sample.ready_world
                  (Sample.get (Some "good") (Some "bytes=2-5"))
                  Sample.ready Sample.file_bytes
                  (sample_servable (Some "bytes=2-5"))) 2%N 5%N).
  - reflexivity.
  - lia.
  - simpl. lia.
Defined.

(** C5, as stated, fails when the range reaches beyond the file: for
    [Range: bytes=0-19] on the ten-byte file the answer announces
    Content-Length 20 and streams the ten bytes there are. *)
Lemma range_beyond_file :
  servable Sample.env Sample.ready_world (Sample.get (Some "good") (Some "bytes=0-19"))
    Sample.ready Sample.file_bytes
  /\ range (Sample.get (Some "good") (Some "bytes=0-19"))
     = Some ("bytes=" ++ JsString.show_N 0 ++ "-" ++ JsString.show_N 19)%string
  /\ (exists resp streamed,
        outcome_of (stream Sample.env (Sample.get (Some "good") (Some "bytes=0-19")))
          Sample.ready_world = Returned resp
        /\ res_status resp = 206
        /\ header "Content-Length" resp = Some "20"
        /\ res_body resp = FileStream streamed
        /\ length streamed = 10%nat)
  /\ ~ (exists resp,
          outcome_of (stream Sample.env (Sample.get (Some "good") (Some "bytes=0-19")))
            Sample.ready_world = Returned resp
          /\ partial_content resp Sample.file_bytes 0 19).
Proof.
  split; [apply sample_servable|]. split; [reflexivity|]. split.
  - eexists. eexists. split; [vm_compute; reflexivity|]. repeat split.
  - intros (resp & Hout & _ & _ & _ & _ & streamed & Hbody & _ & Hlen).
    vm_compute in Hout. injection Hout as <-.
    simpl in Hbody. injection Hbody as <-.
    vm_compute in Hlen. discriminate Hlen.
Qed.

End StreamingExamples.

(** ** A program logic for the handlers *)

Section Rules.

Lemma keeps_ret {A} (I : World -> Prop) (a : A) : keeps I (ret a).
Proof. intros w Hw. exact Hw. Qed.

Lemma keeps_throw {A} (I : World -> Prop) (e : Exn) : keeps I (@throw A e).
Proof. intros w Hw. exact Hw. Qed.

Lemma keeps_bind {A B} (I : World -> Prop) (m : M A) (k : A -> M B) :
  keeps I m -> (forall a, keeps I (k a)) -> keeps I (bind m k).
Proof.
  intros Hm Hk w Hw. unfold bind. specialize (Hm w Hw).
  destruct (m w) as [[a|e] w']; [apply Hk; exact Hm | exact Hm].
Qed.

Lemma keeps_try_catch {A} (I : World -> Prop) (m : M A) (handler : Exn -> M A) :
  keeps I m -> (forall e, keeps I (handler e)) -> keeps I (try_catch m handler).
Proof.
  intros Hm Hh w Hw. unfold try_catch. specialize (Hm w Hw).
  destruct (m w) as [[a|e] w']; [exact Hm | apply Hh; exact Hm].
Qed.

Lemma keeps_modify (I : World -> Prop) (f : World -> World) :
  (forall w, I w -> I (f w)) -> keeps I (modify f).
Proof. intros Hf w Hw. apply Hf. exact Hw. Qed.

End Rules.

(** ** What the processing functions leave alone *)

Section Stable.

Variable I : World -> Prop.
Hypothesis I_stable : stable I.

Lemma keeps_call (c : Call) : is_save c = false -> keeps I (call c).
Proof. intros Hc. apply keeps_modify. intros w. apply stable_call; assumption. Qed.

Lemma keeps_emit (io : option Io) (p : Payload) : keeps I (emit io p).
Proof.
  destruct io; [|apply keeps_throw].
  apply keeps_modify. intros w. apply stable_event; assumption.
Qed.

Lemma keeps_emit_to (io : option Io) (room : string) (p : Payload) :
  keeps I (emit_to io room p).
Proof.
  destruct io; [|apply keeps_throw].
  apply keeps_modify. intros w. apply stable_event; assumption.
Qed.

Lemma keeps_set_dirs (f : gset string -> gset string) : keeps I (modify (set_dirs f)).
Proof. apply keeps_modify. intros w. apply stable_dirs; assumption. Qed.

(** One step of a proof that a handler keeps [I]. *)
Ltac keeps_step :=
  first
    [ apply keeps_ret
    | apply keeps_throw
    | apply keeps_emit
    | apply keeps_emit_to
    | apply keeps_set_dirs
    | apply keeps_call; reflexivity
    | apply keeps_bind; [|intros ?]
    | apply keeps_try_catch; [|intros ?]
    | match goal with
      | |- keeps _ (match ?x with _ => _ end) => destruct x
      end ].

Lemma keeps_fs_mkdir (env : Env) (dir : string) : keeps I (fs_mkdir env dir).
Proof. unfold fs_mkdir. repeat keeps_step. Qed.

Lemma keeps_fs_rmdir_logged (env : Env) (dir : string) : keeps I (fs_rmdir_logged env dir).
Proof. unfold fs_rmdir_logged. repeat keeps_step. Qed.

Lemma keeps_extractFrames (env : Env) (videoPath outputDir videoId : string)
    (io : option Io) :
  keeps I (extractFrames env videoPath outputDir videoId io).
Proof.
  unfold extractFrames. repeat first [apply keeps_fs_mkdir | keeps_step].
Qed.

Lemma keeps_score_frames (env : Env) (io : option Io) (videoId : string) (total : nat)
    (framePaths : list string) :
  forall allAnalyses processedFrames,
    keeps I (score_frames env io videoId total framePaths allAnalyses processedFrames).
Proof.
  induction framePaths as [|framePath rest IH]; intros allAnalyses processedFrames;
    cbn [score_frames]; [apply keeps_ret|].
  unfold analyzeFrame_at. repeat first [apply IH | keeps_step].
Qed.

Lemma keeps_analysis_failed (env : Env) (videoId : string) (io : option Io)
    (framesDir : option string) (error : Exn) :
  keeps I (analysis_failed env videoId io framesDir error).
Proof.
  unfold analysis_failed. repeat first [apply keeps_fs_rmdir_logged | keeps_step].
Qed.

Lemma keeps_try_catch_var {A B} (before : M unit) (value : A) (after : M B)
    (handler : option A -> Exn -> M B) :
  keeps I before -> keeps I after -> (forall x e, keeps I (handler x e)) ->
  keeps I (try_catch_var before value after handler).
Proof.
  intros Hb Ha Hh w Hw. unfold try_catch_var. specialize (Hb w Hw).
  destruct (before w) as [[a|e] w'].
  - apply keeps_try_catch; auto.
  - apply Hh. exact Hb.
Qed.

Lemma keeps_analyzeSensitivity (env : Env) (videoPath videoId : string) (io : option Io) :
  keeps I (analyzeSensitivity env videoPath videoId io).
Proof.
  unfold analyzeSensitivity. apply keeps_try_catch_var.
  - repeat keeps_step.
  - repeat first [ apply keeps_extractFrames | apply keeps_score_frames
                 | apply keeps_fs_rmdir_logged | keeps_step ].
  - intros x e. apply keeps_analysis_failed.
Qed.

Lemma keeps_extractVideoMetadata (env : Env) (videoPath : string) :
  keeps I (extractVideoMetadata env videoPath).
Proof.
  unfold extractVideoMetadata, frameRate_of, fs_stat. repeat keeps_step.
Qed.

Lemma keeps_generateThumbnail (env : Env) (videoPath outputPath : string) :
  keeps I (generateThumbnail env videoPath outputPath).
Proof.
  unfold generateThumbnail. repeat first [apply keeps_fs_mkdir | keeps_step].
Qed.

Lemma keeps_optimizeVideoForStreaming (env : Env) (inputPath outputPath : string) :
  keeps I (optimizeVideoForStreaming env inputPath outputPath).
Proof.
  unfold optimizeVideoForStreaming, fs_stat.
  repeat first [apply keeps_fs_mkdir | keeps_step].
Qed.

End Stable.

(** ** The sensitivity verdict and the analysis status *)

Section Verdict.


Lemma records_sound_stable : stable records_sound.
Proof.
  split.
  - intros e w H. exact H.
  - intros c w Hc (Hh & Hd & Hs). split; [|split]; auto.
    intros v [Hin|Hin]; [|auto].
    subst c. discriminate Hc.
  - intros f w H. exact H.
Qed.

Lemma keeps_hold (v : Video) : sound_record v -> keeps records_sound (hold v).
Proof.
  intros Hv w (Hh & Hd & Hs). split; [|split]; auto.
  intros v' E. cbn in E. injection E as <-. exact Hv.
Qed.

Lemma keeps_mutate (f : Video -> Video) :
  (forall v, sound_record v -> sound_record (f v)) -> keeps records_sound (mutate f).
Proof.
  intros Hf w Hw. unfold mutate, bind, the_video.
  destruct (held w) as [v|] eqn:E; [|exact Hw].
  apply keeps_hold; [|exact Hw]. apply Hf. destruct Hw as (Hh & _). auto.
Qed.

Lemma keeps_save : keeps records_sound save.
Proof.
  intros w Hw. unfold save, bind, the_video.
  destruct (held w) as [v|] eqn:E; [|exact Hw].
  destruct Hw as (Hh & Hd & Hs). split; [|split]; cbn; auto.
  - intros id v' Hl. destruct (decide (_id v = id)) as [<-|Hne].
    + rewrite lookup_insert_eq in Hl. injection Hl as <-. auto.
    + rewrite lookup_insert_ne in Hl by exact Hne. eauto.
  - intros v' [Hin|Hin]; [|auto].
    injection Hin as <-. auto.
Qed.

Lemma sound_same_analysis (v v' : Video) :
  sensitivityAnalysis v' = sensitivityAnalysis v -> sound_record v -> sound_record v'.
Proof.
  unfold sound_record, analysis_completed, verdict_set. intros ->. auto.
Qed.

Lemma sound_merge_analysis (r : AnalysisResults) (v : Video) :
  sound_record (merge_analysis r v).
Proof. intros _. split; eexists; reflexivity. Qed.

Lemma sound_set_sa_status (s : AnalysisStatus) (v : Video) :
  s <> st_completed -> sound_record (set_sa_status s v).
Proof. intros Hs Hc. contradiction. Qed.

Lemma sound_new_Video id title filename filePath fileSize mimeType user org vis :
  sound_record (new_Video id title filename filePath fileSize mimeType user org vis).
Proof. intros Hc. discriminate Hc. Qed.

(** One step of a proof that a route keeps the records sound. *)
Ltac sound_step :=
  first
    [ apply keeps_save
    | apply keeps_mutate; intros ? ?;
      first [ apply sound_merge_analysis
            | apply sound_set_sa_status; discriminate
            | eapply sound_same_analysis; [reflexivity | eassumption] ]
    | apply keeps_analyzeSensitivity; apply records_sound_stable
    | apply keeps_extractVideoMetadata; apply records_sound_stable
    | apply keeps_generateThumbnail; apply records_sound_stable
    | apply keeps_optimizeVideoForStreaming; apply records_sound_stable
    | apply keeps_emit_to; apply records_sound_stable
    | apply keeps_call; [apply records_sound_stable | reflexivity]
    | apply keeps_ret
    | apply keeps_throw
    | apply keeps_bind; [|intros ?]
    | apply keeps_try_catch; [|intros ?]
    | match goal with
      | |- keeps _ (match ?x with _ => _ end) => destruct x
      end ].

Lemma keeps_updateProgress (progress : Z) (st : option Status) :
  keeps records_sound (updateProgress progress st).
Proof. unfold updateProgress. repeat sound_step. Qed.

Lemma keeps_processVideoAsync (env : Env) (video : Video) (io : option Io) :
  sound_record video -> keeps records_sound (processVideoAsync env video io).
Proof.
  intros Hv. unfold processVideoAsync.
  apply keeps_bind; [apply keeps_hold; exact Hv | intros _].
  repeat first [apply keeps_updateProgress | sound_step].
Qed.

Lemma keeps_upload (env : Env) (app : gmap string Io) (video : Video) :
  sound_record video -> keeps records_sound (upload env app video).
Proof.
  intros Hv. unfold upload.
  apply keeps_try_catch; [|intros e; repeat sound_step].
  apply keeps_bind; [apply keeps_hold; exact Hv | intros _].
  repeat first [apply keeps_processVideoAsync; exact Hv | sound_step].
Qed.

(** Reading the stored documents hands over sound documents only. *)
Lemma keeps_read_db {A} (k : gmap string Video -> M A) :
  (forall docs, (forall id v, docs !! id = Some v -> sound_record v) ->
                keeps records_sound (k docs)) ->
  keeps records_sound (bind (fun w => (Returned (db w), w)) k).
Proof.
  intros Hk w Hw. unfold bind. apply Hk; [|exact Hw]. destruct Hw as (_ & Hd & _). exact Hd.
Qed.

Lemma findOne_active_Some docs id org v :
  findOne_active docs id org = Some v -> docs !! id = Some v.
Proof.
  unfold findOne_active. destruct (docs !! id) as [v'|]; [|discriminate].
  destruct (_ && _); [|discriminate]. congruence.
Qed.

Lemma keeps_reanalyze (env : Env) (app : gmap string Io) (id : string) :
  keeps records_sound (reanalyze env app id).
Proof.
  unfold reanalyze. apply keeps_try_catch; [|intros e; repeat sound_step].
  apply keeps_read_db. intros docs Hdocs.
  destruct (docs !! id) as [video|] eqn:E; [|apply keeps_ret].
  apply keeps_bind; [apply keeps_hold; eauto | intros _].
  repeat sound_step.
  intros w Hw. unfold the_video. destruct (held w); exact Hw.
Qed.

Lemma keeps_the_video : keeps records_sound the_video.
Proof. intros w Hw. unfold the_video. destruct (held w); exact Hw. Qed.

Lemma keeps_view (user : User) (id : string) : keeps records_sound (view user id).
Proof.
  unfold view. apply keeps_try_catch; [|intros e; repeat sound_step].
  apply keeps_read_db. intros docs Hdocs.
  destruct (findOne_active docs id (user_organizationId user)) as [video|] eqn:E;
    [|apply keeps_ret].
  apply findOne_active_Some in E.
  destruct (negb (canBeViewedBy video user)); [apply keeps_ret|].
  apply keeps_bind; [apply keeps_hold; eauto | intros _].
  repeat first [apply keeps_the_video | sound_step].
Qed.

Lemma keeps_delete_video (user : User) (id : string) :
  keeps records_sound (delete_video user id).
Proof.
  unfold delete_video. apply keeps_try_catch; [|intros e; repeat sound_step].
  apply keeps_read_db. intros docs Hdocs.
  destruct (findOne_active docs id (user_organizationId user)) as [video|] eqn:E;
    [|apply keeps_ret].
  apply findOne_active_Some in E.
  destruct (_ && _); [apply keeps_ret|].
  apply keeps_bind; [apply keeps_hold; eauto | intros _].
  repeat sound_step.
Qed.

Lemma keeps_stored (id : string) (v : Video) :
  sound_record v ->
  keeps records_sound
    (bind (call (Save v)) (fun _ => modify (set_db (fun docs => <[ id := v ]> docs)))).
Proof.
  intros Hv w (Hh & Hd & Hs). split; [|split]; cbn; auto.
  - intros id' v' Hl. destruct (decide (id = id')) as [<-|Hne].
    + rewrite lookup_insert_eq in Hl. injection Hl as <-. auto.
    + rewrite lookup_insert_ne in Hl by exact Hne. eauto.
  - intros v' [Hin|Hin]; [|auto].
    injection Hin as <-. auto.
Qed.

Lemma keeps_update_video (user : User) (id : string) (new_title : option string)
    (new_visibility : option Visibility) :
  keeps records_sound (update_video user id new_title new_visibility).
Proof.
  unfold update_video. apply keeps_try_catch; [|intros e; repeat sound_step].
  apply keeps_read_db. intros docs Hdocs.
  destruct (findOne_active docs id (user_organizationId user)) as [video|] eqn:E;
    [|apply keeps_ret].
  apply findOne_active_Some in E.
  destruct (_ && _); [apply keeps_ret|].
  set (updated := match new_visibility with Some _ => _ | None => _ end).
  assert (Hu : sound_record updated).
  { apply (sound_same_analysis video); [|eauto].
    subst updated. destruct new_visibility, new_title; reflexivity. }
  intros w Hw.
  pose proof (keeps_stored id updated Hu w Hw) as H.
  unfold bind in *. cbn in *. exact H.
Qed.

Lemma reachable_sound (w : World) : reachable w -> records_sound w.
Proof.
  induction 1 as [|w env id title filename filePath fileSize mimeType user org vis _ IH
                  |w env id _ IH|w user id _ IH|w user id nt nv _ IH|w user id _ IH].
  - split; [|split].
    + intros v E. discriminate E.
    + intros id v E. cbn in E. rewrite lookup_empty in E. discriminate E.
    + intros v [].
  - pose proof (keeps_upload env server_app _ (sound_new_Video id title filename filePath
                  fileSize mimeType user org vis) w IH) as H.
    unfold world_after. destruct (upload _ _ _ w) as [[r|e] w']; exact H.
  - pose proof (keeps_reanalyze env server_app id w IH) as H.
    unfold world_after. destruct (reanalyze _ _ _ w) as [[r|e] w']; exact H.
  - pose proof (keeps_view user id w IH) as H.
    unfold world_after. destruct (view _ _ w) as [[r|e] w']; exact H.
  - pose proof (keeps_update_video user id nt nv w IH) as H.
    unfold world_after. destruct (update_video _ _ _ _ w) as [[r|e] w']; exact H.
  - pose proof (keeps_delete_video user id w IH) as H.
    unfold world_after. destruct (delete_video _ _ w) as [[r|e] w']; exact H.
Qed.

(** C3 (amended). In every state a Video Record goes through in a
    reachable world, sensitivity.status = completed implies that
    sensitivity.result and sensitivity.confidence are set. *)
Theorem completed_carries_verdict (w : World) (v : Video) :
  reachable w -> record_state w v -> analysis_completed v -> verdict_set v.
Proof.
  intros Hw Hv. apply (reachable_sound w Hw). exact Hv.
Qed.

(** The invariant on the document stored after a successful upload. *)
Lemma completed_carries_verdict_witness : verdict_set Sample.processed.
Proof.
  apply (completed_carries_verdict Sample.processed_world Sample.processed).
  - apply (reach_upload _ Sample.env "v1" "Holiday" "holiday-1.mp4"
             "uploads/videos/holiday-1.mp4" 1000 "video/mp4" "u1" "o1" private).
    apply reach_start.
  - vm_compute. left. reflexivity.
  - vm_compute. reflexivity.
Defined.

(** C3, as stated, fails after a failed analysis run: the pipeline stores
    the degraded results of the engine, so the record has status failed
    together with result safe and confidence 0. *)
Lemma failed_analysis_carries_verdict :
  reachable Sample.unscored_world
  /\ record_state Sample.unscored_world Sample.unscored
  /\ sa_status (sensitivityAnalysis Sample.unscored) = st_failed
  /\ sa_result (sensitivityAnalysis Sample.unscored) = Some safe
  /\ sa_confidence (sensitivityAnalysis Sample.unscored) = Some (JsNum.Num 0)
  /\ ~ (forall w v, reachable w -> record_state w v ->
                    (verdict_set v <-> analysis_completed v)).
Proof.
  assert (Hreach : reachable Sample.unscored_world).
  { apply (reach_upload _ Sample.env_no_frames "v1" "Holiday" "holiday-1.mp4"
             "uploads/videos/holiday-1.mp4" 1000 "video/mp4" "u1" "o1" private).
    apply reach_start. }
  assert (Hstate : record_state Sample.unscored_world Sample.unscored).
  { vm_compute. left. reflexivity. }
  split; [exact Hreach|]. split; [exact Hstate|].
  split; [vm_compute; reflexivity|]. split; [vm_compute; reflexivity|].
  split; [vm_compute; reflexivity|].
  intros H. destruct (H _ _ Hreach Hstate) as [Hiff _].
  assert (Hset : verdict_set Sample.unscored) by (split; eexists; vm_compute; reflexivity).
  specialize (Hiff Hset). vm_compute in Hiff. discriminate Hiff.
Qed.

End Verdict.

(** ** Runs of the pipeline *)

Section PipelineRuns.



Lemma optimizeVideoForStreaming_throws (env : Env) (inputPath outputPath : string)
    (w : World) :
  transcode_fails env inputPath outputPath ->
  exists ds cs,
    optimizeVideoForStreaming env inputPath outputPath w
    = (Thrown (Error "Failed to optimize video for streaming"), extend w ds [] cs)
    /\ Forall transcode_call cs.
Proof.
  intros Hfail.
  set (failed := ConsoleError "Error optimizing video:").
  set (made := Mkdir (path_dirname env outputPath)).
  unfold optimizeVideoForStreaming, try_catch, bind, fs_mkdir, fs_stat, call, modify.
  cbn.
  destruct (mkdir_error env (path_dirname env outputPath)) as [message|] eqn:Hmk; cbn.
  { eexists; exists [failed; made]; split; [reflexivity | repeat constructor]. }
  destruct (transcode_ok env inputPath outputPath) eqn:Hok; cbn.
  2: { eexists; exists [failed; FfmpegTranscode inputPath outputPath; made].
       split; [reflexivity | repeat constructor]. }
  destruct (stat_size env outputPath) as [size|] eqn:Hst; cbn.
  { destruct Hfail as [H|[H|H]]; congruence. }
  eexists; exists [failed; FfmpegTranscode inputPath outputPath; made].
  split; [reflexivity | repeat constructor].
Qed.





End PipelineRuns.

(** ** The scratch directory of the analysis *)

Section ScratchDirectory.

(** With a defined sink the scoring loop returns; it only publishes
    broadcast events and calls sharp. *)
Lemma score_frames_returns (env : Env) (io : Io) (videoId : string) (total : nat)
    (framePaths : list string) :
  forall allAnalyses processedFrames w,
  exists analyses events cs,
    score_frames env (Some io) videoId total framePaths allAnalyses processedFrames w
    = (Returned analyses, extend w (dirs w) events cs)
    /\ Forall (fun e => target e = ToAll) events
    /\ Forall (fun c => exists framePath, c = Sharp framePath) cs.
Proof.
  induction framePaths as [|framePath rest IH]; intros allAnalyses processedFrames w;
    destruct w as [h docs ds events0 cs0].
  - exists allAnalyses, [], []. repeat constructor.
  - cbn [score_frames]. unfold analyzeFrame_at. run_handler.
    match goal with
    | |- context [score_frames env (Some io) videoId total rest ?a ?n ?W] =>
        destruct (IH a n W) as (analyses & events & cs & E & Hev & Hcs)
    end.
    rewrite E. run_handler.
    match goal with
    | |- context [events ++ ?e :: events0] =>
        exists analyses, (events ++ [e]), (cs ++ [Sharp framePath])
    end.
    rewrite <- (app_assoc events), <- (app_assoc cs). split; [reflexivity|]. split.
    + apply Forall_app. split; [exact Hev | repeat constructor].
    + apply Forall_app. split; [exact Hcs | repeat constructor; eexists; reflexivity].
Qed.

Lemma not_in_sharp_calls (c : Call) (cs : list Call) :
  Forall (fun c => exists framePath, c = Sharp framePath) cs ->
  (forall framePath, c <> Sharp framePath) -> ~ In c cs.
Proof.
  intros Hcs Hc Hin. rewrite Forall_forall in Hcs.
  destruct (Hcs c) as (framePath & E).
  - apply list_elem_of_In. exact Hin.
  - exact (Hc framePath E).
Qed.

(** With a defined sink the engine never throws, and every event it
    publishes is a broadcast. *)
Lemma analyzeSensitivity_returns (env : Env) (videoPath videoId : string) (io : Io)
    (w : World) :
  exists results ds events cs,
    analyzeSensitivity env videoPath videoId (Some io) w
    = (Returned results, extend w ds events cs)
    /\ Forall (fun e => target e = ToAll) events.
Proof.
  destruct w as [h docs ds0 events0 cs0].
  unfold analyzeSensitivity, extractFrames. run_handler.
  set (dir := framesDir_of env videoPath videoId).
  destruct (mkdir_error env dir) as [refused|]; run_handler.
  { destruct (rmdir_error env dir) as [reason|]; run_handler.
    - eexists. eexists. eexists [_; _; _]. eexists [_; _; _; _; _].
      split; [reflexivity | repeat constructor].
    - eexists. eexists. eexists [_; _; _]. eexists [_; _; _; _].
      split; [reflexivity | repeat constructor]. }
  destruct (ffmpeg_frames env (absolute_path env videoPath) dir) as [message|files];
    run_handler.
  { destruct (rmdir_error env dir) as [reason|]; run_handler.
    - eexists. eexists. eexists [_; _; _; _]. eexists [_; _; _; _; _; _].
      split; [reflexivity | repeat constructor].
    - eexists. eexists. eexists [_; _; _; _]. eexists [_; _; _; _; _].
      split; [reflexivity | repeat constructor]. }
  destruct (length (map (path_join dir) (List.filter is_frame_file files)) =? 0)%nat;
    run_handler.
  { destruct (rmdir_error env dir) as [reason|]; run_handler.
    - eexists. eexists. eexists [_; _; _; _]. eexists [_; _; _; _; _].
      split; [reflexivity | repeat constructor].
    - eexists. eexists. eexists [_; _; _; _]. eexists [_; _; _; _].
      split; [reflexivity | repeat constructor]. }
  match goal with
  | |- context [score_frames env (Some io) videoId ?n ?l ?a ?k ?W] =>
      destruct (score_frames_returns env io videoId n l a k W)
        as (analyses & events & cs & E & Hev & _)
  end.
  rewrite E. run_handler.
  destruct (rmdir_error env dir) as [reason|]; run_handler.
  - eexists. eexists.
    match goal with
    | |- context [?e2 :: ?e1 :: events ++ ?e0 :: ?d :: ?c :: ?b :: events0] =>
        exists (e2 :: e1 :: events ++ [e0; d; c; b])
    end.
    eexists (_ :: _ :: cs ++ [_; _]).
    cbn [app]. rewrite <- (app_assoc events), <- (app_assoc cs).
    split; [reflexivity|].
    repeat (constructor; [reflexivity|]).
    apply Forall_app. split; [exact Hev | repeat constructor].
  - eexists. eexists.
    match goal with
    | |- context [?e2 :: ?e1 :: events ++ ?e0 :: ?d :: ?c :: ?b :: events0] =>
        exists (e2 :: e1 :: events ++ [e0; d; c; b])
    end.
    eexists (_ :: cs ++ [_; _]).
    cbn [app]. rewrite <- (app_assoc events), <- (app_assoc cs).
    split; [reflexivity|].
    repeat (constructor; [reflexivity|]).
    apply Forall_app. split; [exact Hev | repeat constructor].
Qed.

Lemma not_in_removed (dir : string) (ds : gset string) :
  dir ∉ (ds ∪ {[ dir ]}) ∖ {[ dir ]}.
Proof.
  rewrite not_elem_of_difference, elem_of_singleton. right. reflexivity.
Qed.

(** C8 (amended). For every sensitivity-analysis run with a defined
    progress sink whose scratch frames directory can be made, analyze
    returns (on the success path and on every handled-failure path alike)
    after it has made the directory and then asked for its recursive
    removal; the directory no longer exists when analyze returns provided
    that this removal does not fail. *)
Theorem scratch_directory_removed (env : Env) (videoPath videoId : string) (io : Io)
    (w : World) :
  let dir := framesDir_of env videoPath videoId in
  mkdir_error env dir = None ->
  exists results w',
    analyzeSensitivity env videoPath videoId (Some io) w = (Returned results, w')
    /\ (exists before between after,
          calls w' = after ++ Rmdir dir :: between ++ Mkdir dir :: before ++ calls w)
    /\ (rmdir_error env dir = None -> dir ∉ dirs w').
Proof.
  intros dir Hmk. destruct w as [h docs ds events0 cs0].
  unfold analyzeSensitivity, extractFrames.
  fold dir. run_handler. rewrite Hmk. run_handler.
  destruct (ffmpeg_frames env (absolute_path env videoPath) dir) as [message|files].
  { (* the sampling run fails *)
    run_handler.
    destruct (rmdir_error env dir) as [reason|] eqn:Hrm; run_handler.
    - eexists. eexists. split; [reflexivity|]. split; [|discriminate].
      eexists [], [_; _; _], [_]. reflexivity.
    - eexists. eexists. split; [reflexivity|]. split; [|intros _; cbn [dirs]; apply not_in_removed].
      eexists [], [_; _; _], []. reflexivity. }
  run_handler.
  destruct (length (map (path_join dir) (List.filter is_frame_file files)) =? 0)%nat.
  { (* no frame was sampled *)
    run_handler.
    destruct (rmdir_error env dir) as [reason|] eqn:Hrm; run_handler.
    - eexists. eexists. split; [reflexivity|]. split; [|discriminate].
      eexists [], [_; _], [_]. reflexivity.
    - eexists. eexists. split; [reflexivity|]. split; [|intros _; cbn [dirs]; apply not_in_removed].
      eexists [], [_; _], []. reflexivity. }
  run_handler.
  match goal with
  | |- context [score_frames env (Some io) videoId ?n ?l ?a ?k ?W] =>
      destruct (score_frames_returns env io videoId n l a k W)
        as (analyses & events & cs & E & _ & _)
  end.
  rewrite E. run_handler.
  destruct (rmdir_error env dir) as [reason|] eqn:Hrm; run_handler.
  - eexists. eexists. split; [reflexivity|]. split; [|discriminate].
    eexists [], (cs ++ [FfmpegFrames (absolute_path env videoPath) dir]), [_].
    cbn [app]. rewrite <- (app_assoc cs). reflexivity.
  - eexists. eexists. split; [reflexivity|]. split; [|intros _; cbn [dirs]; apply not_in_removed].
    exists [], (cs ++ [FfmpegFrames (absolute_path env videoPath) dir]), [].
    cbn [app]. rewrite <- (app_assoc cs). reflexivity.
Qed.

(** The rule at work where every tool works. *)
Lemma scratch_directory_removed_witness :
  exists results w',
    analyzeSensitivity Sample.env "uploads/videos/holiday-1.mp4" "v1" (Some SocketServer)
      Sample.empty_world = (Returned results, w')
    /\ (exists before between after,
          calls w'
          = after ++ Rmdir "/srv/uploads/videos/temp_frames/v1"
              :: between ++ Mkdir "/srv/uploads/videos/temp_frames/v1"
              :: before ++ calls Sample.empty_world)
    /\ (rmdir_error Sample.env "/srv/uploads/videos/temp_frames/v1" = None ->
        "/srv/uploads/videos/temp_frames/v1" ∉ dirs w').
Proof.
  apply (scratch_directory_removed Sample.env "uploads/videos/holiday-1.mp4" "v1"
           SocketServer Sample.empty_world).
  reflexivity.
Defined.

(** C8, as stated, fails when the removal is refused: the rejection is
    logged, analyze returns a completed result, and the directory it made is
    still there. *)
Lemma refused_removal_leaves_directory :
  mkdir_error Sample.env_busy "/srv/uploads/videos/temp_frames/v1" = None
  /\ framesDir_of Sample.env_busy "uploads/videos/holiday-1.mp4" "v1"
     = "/srv/uploads/videos/temp_frames/v1"
  /\ exists results w',
       analyzeSensitivity Sample.env_busy "uploads/videos/holiday-1.mp4" "v1"
         (Some SocketServer) Sample.empty_world = (Returned results, w')
       /\ ar_status results = st_completed
       /\ In (Mkdir "/srv/uploads/videos/temp_frames/v1") (calls w')
       /\ In (Rmdir "/srv/uploads/videos/temp_frames/v1") (calls w')
       /\ "/srv/uploads/videos/temp_frames/v1" ∈ dirs w'.
Proof.
  split; [reflexivity|]. split; [reflexivity|].
  eexists. eexists. split; [vm_compute; reflexivity|].
  split; [reflexivity|]. split; [cbn; tauto|]. split; [cbn; tauto|].
  refine (bool_decide_unpack _ _). vm_compute. exact Logic.I.
Qed.

End ScratchDirectory.

(** ** Frame rate of the probed stream *)

Section FrameRate.

(** Whatever non-empty text the probing tool prints as [r_frame_rate] is
    handed to [eval], and the frame rate is whatever that evaluation yields;
    the text is never parsed as a numerator and a denominator. *)
Lemma frameRate_of_evaluates (env : Env) (kind : string) (w h : option Z)
    (name aspect : option string) (c : ascii) (source : string) (world : World) :
  frameRate_of env
    (Some {| codec_type := kind; ps_width := w; ps_height := h; codec_name := name;
             r_frame_rate := Some (String c source);
             display_aspect_ratio := aspect |}) world
  = (match js_eval env (String c source) with
     | Some value => Returned value
     | None => Thrown (Error "eval threw")
     end,
     push_call (Eval (String c source)) world).
Proof.
  unfold frameRate_of. cbn [r_frame_rate]. unfold bind, call, modify.
  destruct (js_eval env (String c source)); reflexivity.
Qed.

(** C2 fails on the code: for the probe output of the sample deployment,
    whose video stream reports [r_frame_rate = "30000/1001"], that text is
    passed to [eval] and the frame rate is the value of the evaluation. *)
Theorem probe_output_is_evaluated :
  exists m w',
    extractVideoMetadata Sample.env "uploads/videos/holiday-1.mp4" Sample.empty_world
    = (Returned m, w')
    /\ calls w' = [Eval "30000/1001"; Ffprobe "uploads/videos/holiday-1.mp4"]
    /\ js_eval Sample.env "30000/1001" = Some (md_frameRate m).
Proof.
  eexists. eexists. split; [vm_compute; reflexivity|]. split; reflexivity.
Qed.

End FrameRate.

(** ** Refusals of the streaming endpoint *)

Section StreamRefusals.

Lemma status_eqb_completed (s : Status) : status_eqb s completed = true <-> s = completed.
Proof. destruct s; simpl; split; congruence. Qed.

(** The refusals of [GET /:id/stream], in the order the handler tests them:
    401 without a token and for a token of no user, 404 for a missing video
    and for one that is inactive or not completed (the body states the
    status), 403 for a user who may not view it. *)
Lemma stream_refusals (env : Env) (req : Request) (w : World) :
  (JsString.nonempty (token_of req) = None ->
   outcome_of (stream env req) w = Returned (respond_json 401 "Token required"))
  /\ (forall token decoded,
        JsString.nonempty (token_of req) = Some token ->
        jwt_verify env token = Some decoded ->
        decoded ≫= find_user env = None ->
        outcome_of (stream env req) w = Returned (respond_json 401 "User not found"))
  /\ (forall token decoded user,
        JsString.nonempty (token_of req) = Some token ->
        jwt_verify env token = Some decoded ->
        decoded ≫= find_user env = Some user ->
        (db w !! params_id req = None ->
         outcome_of (stream env req) w = Returned (respond_json 404 "Video not found"))
        /\ (forall video,
              db w !! params_id req = Some video ->
              (isActive video = false \/ status video <> completed ->
               outcome_of (stream env req) w
               = Returned (respond_json 404
                             ("Video not ready for streaming. Status: "
                              ++ status_name (status video))))
              /\ (isActive video = true -> status video = completed ->
                  canBeViewedBy video user = false ->
                  outcome_of (stream env req) w
                  = Returned (respond_json 403 "Access denied to this video")))).
Proof.
  split; [|split].
  - intros Htok. unfold outcome_of, stream, try_catch. rewrite Htok. reflexivity.
  - intros token decoded Htok Hjwt Huser.
    unfold outcome_of, stream, try_catch, bind. rewrite Htok, Hjwt. cbn [ret].
    rewrite Huser. reflexivity.
  - intros token decoded user Htok Hjwt Huser. split.
    + intros Hdb. unfold outcome_of, stream, try_catch, bind. rewrite Htok, Hjwt.
      cbn [ret]. rewrite Huser, Hdb. reflexivity.
    + intros video Hdb. split.
      * intros Hnot. unfold outcome_of, stream, try_catch, bind. rewrite Htok, Hjwt.
        cbn [ret]. rewrite Huser, Hdb.
        assert (E : negb (isActive video) || negb (status_eqb (status video) completed)
                    = true).
        { destruct Hnot as [->|Hst]; [reflexivity|].
          destruct (status_eqb (status video) completed) eqn:Es.
          - apply status_eqb_completed in Es. contradiction.
          - apply orb_true_r. }
        rewrite E. reflexivity.
      * intros Hact Hst Hview. unfold outcome_of, stream, try_catch, bind.
        rewrite Htok, Hjwt. cbn [ret]. rewrite Huser, Hdb, Hact, Hst, Hview. reflexivity.
Qed.

(** A token that [jwt.verify] rejects makes it throw, and the handler's
    [catch] answers 500. *)
Lemma rejected_token_answered_500 (env : Env) (req : Request) (w : World) (token : string) :
  JsString.nonempty (token_of req) = Some token ->
  jwt_verify env token = None ->
  outcome_of (stream env req) w = Returned (respond_json 500 "Error streaming video").
Proof.
  intros Htok Hjwt. unfold outcome_of, stream, try_catch, bind. rewrite Htok, Hjwt.
  reflexivity.
Qed.

(** C4 fails on the code for an invalid token: in the sample deployment the
    token [forged] is rejected by [jwt.verify], and the request that carries
    it is answered with status 500, not 401. *)
Theorem forged_token_answered_500 :
  token_of (Sample.get (Some "forged") None) = Some "forged"
  /\ jwt_verify Sample.env "forged" = None
  /\ outcome_of (stream Sample.env (Sample.get (Some "forged") None)) Sample.ready_world
     = Returned (respond_json 500 "Error streaming video").
Proof. repeat split. Qed.

End StreamRefusals.

(** ** Recipients of the events of a run *)

Section Recipients.

(** The engine publishes with [io.emit]: to every connected socket. *)
Lemma emit_is_broadcast (io : Io) (p : Payload) (w : World) :
  outbox (world_after (emit (Some io) p) w) = {| target := ToAll; payload := p |} :: outbox w.
Proof. reflexivity. Qed.

(** The orchestrator publishes with [io.to(room).emit]: to one room. *)
Lemma emit_to_is_addressed (io : Io) (owner : string) (p : Payload) (w : World) :
  exists e, outbox (world_after (emit_to (Some io) (room_of owner) p) w) = e :: outbox w
            /\ addressed_to owner e
            /\ forall listener, delivered_to listener e = true -> listener = owner.
Proof.
  eexists. split; [reflexivity|]. split; [reflexivity|].
  intros listener H. unfold delivered_to in H. cbn in H.
  apply String.eqb_eq in H. unfold room_of in H.
  change (String "u" (String "s" (String "e" (String "r" (String "_" owner))))
          = String "u" (String "s" (String "e" (String "r" (String "_" listener))))) in H.
  congruence.
Qed.

(** C7 fails on the code for the events of the analysis engine: in the run
    of the pipeline for the video of user [u1], the events of the
    orchestrator are addressed to the room of [u1], but every
    sensitivity-analysis event is a broadcast, delivered to a listener who
    joined the room of another user [u2]. *)
Theorem analysis_events_reach_other_users :
  let w' := world_after (processVideoAsync Sample.env Sample.uploaded (Some SocketServer))
              Sample.empty_world in
  uploadedBy Sample.uploaded = "u1"
  /\ Forall (fun e => is_analysis_event e = false -> addressed_to "u1" e) (outbox w')
  /\ Forall (fun e => is_analysis_event e = true ->
                      target e = ToAll /\ delivered_to "u2" e = true
                      /\ ~ addressed_to "u1" e) (outbox w')
  /\ length (List.filter is_analysis_event (outbox w')) = 8%nat.
Proof.
  vm_compute. split; [reflexivity|]. split; [|split; [|reflexivity]].
  - repeat constructor; discriminate.
  - repeat constructor; try discriminate.
Qed.

End Recipients.

(** ** Re-analysis *)

Section Reanalysis.

(** The only setting of the application is [io]. *)
Lemma socketio_is_not_registered :
  app_get server_app "socketio" = None /\ app_get server_app "io" = Some SocketServer.
Proof.
  split.
  - apply lookup_singleton_ne. discriminate.
  - apply lookup_singleton_eq.
Qed.

(** Without a sink the engine throws: the first emit raises a TypeError, the
    [catch] block logs it and, the frames directory not being assigned yet,
    removes nothing; its own emit raises again. *)
Lemma analyzeSensitivity_without_sink (env : Env) (videoPath videoId : string) (w : World) :
  analyzeSensitivity env videoPath videoId None w
  = (Thrown (TypeError "Cannot read properties of undefined (reading 'emit')"),
     push_call (ConsoleError "Sensitivity analysis error:") w).
Proof. reflexivity. Qed.

Lemma reanalyze_reopens (env : Env) (app : gmap string Io) (id : string)
    (video : Video) (w : World) :
  db w !! id = Some video ->
  reanalyze env app id w = engine_pass env app video (reopened_world video w).
Proof.
  intros Hdb. destruct w as [h docs ds events cs]. cbn [db] in Hdb.
  unfold reanalyze, try_catch at 1, bind at 1. cbn [db]. rewrite Hdb.
  reflexivity.
Qed.

(** C9 (amended). The re-analysis operation does not look at
    sensitivityAnalysis.status: for every stored video, whatever its status,
    it sets the status to processing, saves the record, and from that world
    calls the analysis engine with the handle found under [socketio]; what
    it does is the same whatever status is stored. *)
Theorem reanalyze_starts_unconditionally (env : Env) (app : gmap string Io) (id : string)
    (video : Video) (w : World) :
  db w !! id = Some video ->
  reanalyze env app id w = engine_pass env app video (reopened_world video w)
  /\ (_id video = id ->
      forall s,
        reanalyze env app id (set_db (fun docs => <[ id := set_sa_status s video ]> docs) w)
        = reanalyze env app id (set_db (fun docs => <[ id := video ]> docs) w)).
Proof.
  intros Hdb. split; [apply reanalyze_reopens; exact Hdb|].
  intros Hid s.
  rewrite (reanalyze_reopens env app id (set_sa_status s video)) by apply lookup_insert_eq.
  rewrite (reanalyze_reopens env app id video) by apply lookup_insert_eq.
  unfold reopened_world. cbn [db set_db _id set_sa_status set_sensitivityAnalysis].
  rewrite Hid, !insert_insert_eq. reflexivity.
Qed.

(** Re-analysing the sample video gives the same run whether its analysis is
    stored as in progress or as it is. *)
Lemma reanalyze_starts_unconditionally_witness :
  reanalyze Sample.env server_app "v1"
    (set_db (fun docs => <[ "v1" := set_sa_status st_processing Sample.ready ]> docs)
       Sample.ready_world)
  = reanalyze Sample.env server_app "v1"
      (set_db (fun docs => <[ "v1" := Sample.ready ]> docs) Sample.ready_world).
Proof.
  apply (proj2 (reanalyze_starts_unconditionally Sample.env server_app "v1" Sample.ready
                  Sample.ready_world (lookup_singleton_eq "v1" Sample.ready))).
  reflexivity.
Defined.

(** C9, as stated, fails: for the sample video whose analysis is in
    progress, the re-analysis saves the record as processing once more and
    enters the engine (its [catch] block logs the error of the run). *)
Lemma reanalysis_during_analysis :
  db Sample.analysing_world !! "v1" = Some Sample.analysing
  /\ sa_status (sensitivityAnalysis Sample.analysing) = st_processing
  /\ calls (world_after (reanalyze Sample.env server_app "v1") Sample.analysing_world)
     = [ ConsoleError "Re-analysis error:";
         ConsoleError "Sensitivity analysis error:";
         Save Sample.analysing ].
Proof. repeat split; vm_compute; reflexivity. Qed.

(** C10. For every request to re-analyse an existing video, the broadcast
    handle is looked up under [socketio] while the server registers it under
    [io], so the engine receives undefined as its sink; its first emit raises
    a TypeError, the emit of its catch block raises again, the engine throws,
    and the request is answered with status 500. Nothing is published, and
    the record stays saved with status processing. *)
Theorem reanalyze_answers_500 (env : Env) (id : string) (video : Video) (w : World) :
  db w !! id = Some video ->
  let reopened := set_sa_status st_processing video in
  app_get server_app "socketio" = None
  /\ app_get server_app "io" = Some SocketServer
  /\ (forall w0,
        analyzeSensitivity env (filePath video) (_id video)
          (app_get server_app "socketio") w0
        = (Thrown (TypeError "Cannot read properties of undefined (reading 'emit')"),
           push_call (ConsoleError "Sensitivity analysis error:") w0))
  /\ reanalyze env server_app id w
     = (Returned {| res_status := 500; res_headers := [];
                    res_body :=
                      Json false "Error re-analyzing video"
                        (Some "Cannot read properties of undefined (reading 'emit')") |},
        {| held := Some reopened;
           db := <[ _id video := reopened ]> (db w);
           dirs := dirs w;
           outbox := outbox w;
           calls := ConsoleError "Re-analysis error:"
                    :: ConsoleError "Sensitivity analysis error:"
                    :: Save reopened :: calls w |}).
Proof.
  intros Hdb reopened.
  destruct socketio_is_not_registered as [Hnone Hio].
  split; [exact Hnone|]. split; [exact Hio|]. split.
  - intros w0. rewrite Hnone. reflexivity.
  - destruct w as [h docs ds events cs]. cbn [db] in Hdb.
    unfold reanalyze, try_catch at 1, bind at 1. cbn [db]. rewrite Hdb, Hnone.
    reflexivity.
Qed.

(** The re-analysis of the sample video. *)
Lemma reanalyze_answers_500_witness :
  outcome_of (reanalyze Sample.env server_app "v1") Sample.ready_world
  = Returned {| res_status := 500; res_headers := [];
                res_body :=
                  Json false "Error re-analyzing video"
                    (Some "Cannot read properties of undefined (reading 'emit')") |}.
Proof.
  destruct (reanalyze_answers_500 Sample.env "v1" Sample.ready Sample.ready_world)
    as (_ & _ & _ & E).
  - vm_compute. reflexivity.
  - unfold outcome_of. rewrite E. reflexivity.
Defined.

End Reanalysis.

(** ** Who may see a video *)

Section Access.

Lemma visibility_eqb_eq (a b : Visibility) : visibility_eqb a b = true <-> a = b.
Proof. destruct a, b; simpl; split; congruence. Qed.

(** X1. [canBeViewedBy] grants exactly: a public video to everyone; a video
    of the user's own organization when it is shared with the organization
    or the user is an administrator; a private video to its uploader. *)
Theorem canBeViewedBy_rule (video : Video) (user : User) :
  canBeViewedBy video user = true
  <-> visibility video = public
      \/ (organizationId video = user_organizationId user
          /\ (visibility video = organization \/ role user = "admin"))
      \/ (visibility video = private /\ uploadedBy video = user_id user).
Proof.
  unfold canBeViewedBy.
  destruct (String.eqb_spec (organizationId video) (user_organizationId user)) as [Ho|Ho];
    destruct (String.eqb_spec (uploadedBy video) (user_id user)) as [Hu|Hu];
    destruct (String.eqb_spec (role user) "admin") as [Hr|Hr];
    destruct (visibility video); simpl; split; intros H;
    try discriminate; try reflexivity; auto;
    try (right; left; split; [assumption|]; auto; fail);
    try (right; right; split; auto; fail);
    destruct H as [H|[[H1 [H2|H2]]|[H1 H2]]]; congruence.
Qed.

(** X2. The listing of [GET /] and the access rule agree: without filters,
    a user is shown exactly the active videos of their organization that
    [canBeViewedBy] grants them; a filter only removes videos. *)
Theorem listing_agrees_with_access (text_matches : string -> Video -> bool)
    (user : User) (video : Video) :
  (Listing.matches_query text_matches user Listing.no_filters video = true
   <-> organizationId video = user_organizationId user
       /\ isActive video = true
       /\ canBeViewedBy video user = true)
  /\ (forall filters,
        Listing.matches_query text_matches user filters video = true ->
        Listing.matches_query text_matches user Listing.no_filters video = true).
Proof.
  split.
  - unfold Listing.matches_query, canBeViewedBy, Listing.no_filters. simpl.
    destruct (String.eqb_spec (organizationId video) (user_organizationId user)) as [Ho|Ho];
      destruct (String.eqb_spec (uploadedBy video) (user_id user)) as [Hu|Hu];
      destruct (String.eqb_spec (role user) "admin") as [Hr|Hr];
      destruct (visibility video); destruct (isActive video); simpl;
      split; try intros (H1 & H2 & H3); try intros H; try discriminate; auto;
      congruence.
  - intros filters. unfold Listing.matches_query, Listing.no_filters. simpl.
    rewrite !andb_true_iff. intuition.
Qed.



(** A user of another organization finds nothing. *)
Lemma findOne_active_other_organization (docs : gmap string Video) (id org : string)
    (video : Video) :
  docs !! id = Some video -> organizationId video <> org ->
  findOne_active docs id org = None.
Proof.
  intros Hdb Horg. unfold findOne_active. rewrite Hdb.
  destruct (String.eqb_spec (organizationId video) org); [contradiction|reflexivity].
Qed.

(** X4. The view, edit and delete routes do not tell a user of another
    organization that a video exists: each answers 404, as for an id that
    is not stored, and changes nothing, even when the video is public. *)
Theorem other_organization_sees_404 (user : User) (id : string) (video : Video)
    (new_title : option string) (new_visibility : option Visibility) (w : World) :
  db w !! id = Some video ->
  organizationId video <> user_organizationId user ->
  view user id w = (Returned (respond_json 404 "Video not found"), w)
  /\ update_video user id new_title new_visibility w
     = (Returned (respond_json 404 "Video not found"), w)
  /\ delete_video user id w = (Returned (respond_json 404 "Video not found"), w).
Proof.
  intros Hdb Horg.
  pose proof (findOne_active_other_organization _ _ _ _ Hdb Horg) as Hf.
  destruct w as [h docs ds events cs]. cbn [db] in Hf.
  unfold view, update_video, delete_video, try_catch, bind. cbn [db].
  rewrite Hf. auto.
Qed.

(** The sample video made public is viewable by everyone, and an
    administrator of another organization still finds nothing. *)
Lemma other_organization_sees_404_witness :
  canBeViewedBy Cases.shared Cases.stranger = true
  /\ view Cases.stranger "v1" Cases.shared_world
     = (Returned (respond_json 404 "Video not found"), Cases.shared_world).
Proof.
  split; [reflexivity|].
  refine (proj1 (other_organization_sees_404 Cases.stranger "v1" Cases.shared None None
                   Cases.shared_world _ _)).
  - vm_compute. reflexivity.
  - vm_compute. discriminate.
Defined.

End Access.

Section Edits.

(** X5. Edits and deletions are for the uploader and for administrators:
    on a video of their organization, any other user is answered 403 by
    [PUT /:id] and by [DELETE /:id], and nothing changes; for the uploader
    or an administrator an edit stores, under the same id and with one
    write, the document with the new title and visibility where they are
    given, and changes no other field: not the owner, the organization, the
    status, the analysis, the paths or the view count. *)
Theorem edits_need_ownership (user : User) (id : string) (video : Video)
    (new_title : option string) (new_visibility : option Visibility) (w : World) :
  findOne_active (db w) id (user_organizationId user) = Some video ->
  (role user <> "admin" -> uploadedBy video <> user_id user ->
   update_video user id new_title new_visibility w
   = (Returned (respond_json 403 "Access denied - you can only edit your own videos"), w)
   /\ delete_video user id w
      = (Returned (respond_json 403 "Access denied - you can only delete your own videos"),
         w))
  /\ (role user = "admin" \/ uploadedBy video = user_id user ->
      exists updated,
        update_video user id new_title new_visibility w
        = (Returned {| res_status := 200; res_headers := [];
                       res_body := JsonVideo "Video updated successfully" updated |},
           {| held := held w; db := <[ id := updated ]> (db w); dirs := dirs w;
              outbox := outbox w; calls := Save updated :: calls w |})
        /\ title updated = default (title video) new_title
        /\ visibility updated = default (visibility video) new_visibility
        /\ _id updated = _id video
        /\ uploadedBy updated = uploadedBy video
        /\ organizationId updated = organizationId video
        /\ status updated = status video
        /\ isActive updated = isActive video
        /\ sensitivityAnalysis updated = sensitivityAnalysis video
        /\ filePath updated = filePath video
        /\ optimizedPath updated = optimizedPath video
        /\ viewCount updated = viewCount video).
Proof.
  intros Hf. destruct w as [h docs ds events cs]. cbn [db held dirs outbox calls] in *.
  split.
  - intros Hrole Howner.
    assert (Hdenied : negb (String.eqb (role user) "admin")
                      && negb (String.eqb (uploadedBy video) (user_id user)) = true).
    { destruct (String.eqb_spec (role user) "admin"); [contradiction|].
      destruct (String.eqb_spec (uploadedBy video) (user_id user)); [contradiction|].
      reflexivity. }
    unfold update_video, delete_video, try_catch, bind. cbn [db].
    rewrite Hf, Hdenied. split; reflexivity.
  - intros Hmay.
    assert (Hallowed : negb (String.eqb (role user) "admin")
                       && negb (String.eqb (uploadedBy video) (user_id user)) = false).
    { destruct Hmay as [->| ->]; [reflexivity|].
      rewrite String.eqb_refl. apply andb_false_r. }
    eexists. split.
    + unfold update_video, try_catch, bind. cbn [db]. rewrite Hf, Hallowed. reflexivity.
    + destruct new_title, new_visibility; repeat split.
Qed.

(** The owner gives the sample video a new title. *)
Lemma edits_need_ownership_witness :
  exists updated,
    update_video Sample.owner "v1" (Some "Trip") None Sample.ready_world
    = (Returned {| res_status := 200; res_headers := [];
                   res_body := JsonVideo "Video updated successfully" updated |},
       {| held := held Sample.ready_world;
          db := <[ "v1" := updated ]> (db Sample.ready_world);
          dirs := dirs Sample.ready_world; outbox := outbox Sample.ready_world;
          calls := Save updated :: calls Sample.ready_world |})
    /\ title updated = default (title Sample.ready) (Some "Trip")
    /\ visibility updated = default (visibility Sample.ready) None
    /\ _id updated = _id Sample.ready
    /\ uploadedBy updated = uploadedBy Sample.ready
    /\ organizationId updated = organizationId Sample.ready
    /\ status updated = status Sample.ready
    /\ isActive updated = isActive Sample.ready
    /\ sensitivityAnalysis updated = sensitivityAnalysis Sample.ready
    /\ filePath updated = filePath Sample.ready
    /\ optimizedPath updated = optimizedPath Sample.ready
    /\ viewCount updated = viewCount Sample.ready.
Proof.
  refine (proj2 (edits_need_ownership Sample.owner "v1" Sample.ready (Some "Trip") None
                   Sample.ready_world _) _).
  - vm_compute. reflexivity.
  - right. reflexivity.
Defined.

End Edits.

(** ** Deletion, and what the streaming endpoint leaves alone *)

Section Lifecycle.

(** X6. A deletion keeps the document and marks it: after a successful
    [DELETE /:id] the stored document is the old one made inactive and
    archived, written once; from then on view, edit and delete answer 404
    to every user, and the streaming endpoint answers 404 to every
    authenticated request. *)
Theorem deleted_video_is_gone (user : User) (id : string) (video : Video) (w : World) :
  findOne_active (db w) id (user_organizationId user) = Some video ->
  _id video = id ->
  role user = "admin" \/ uploadedBy video = user_id user ->
  let archived_video := set_status archived (set_isActive false video) in
  let w' := world_after (delete_video user id) w in
  outcome_of (delete_video user id) w
  = Returned {| res_status := 200; res_headers := [];
                res_body := Json true "Video deleted successfully" None |}
  /\ db w' = <[ id := archived_video ]> (db w)
  /\ calls w' = Save archived_video :: calls w
  /\ (forall other new_title new_visibility,
        view other id w' = (Returned (respond_json 404 "Video not found"), w')
        /\ update_video other id new_title new_visibility w'
           = (Returned (respond_json 404 "Video not found"), w')
        /\ delete_video other id w'
           = (Returned (respond_json 404 "Video not found"), w'))
  /\ (forall env req token decoded viewer,
        params_id req = id ->
        JsString.nonempty (token_of req) = Some token ->
        jwt_verify env token = Some decoded ->
        decoded ≫= find_user env = Some viewer ->
        outcome_of (stream env req) w'
        = Returned (respond_json 404 "Video not ready for streaming. Status: archived")).
Proof.
  intros Hf Hid Hmay archived_video w'.
  assert (Hallowed : negb (String.eqb (role user) "admin")
                     && negb (String.eqb (uploadedBy video) (user_id user)) = false).
  { destruct Hmay as [->| ->]; [reflexivity|].
    rewrite String.eqb_refl. apply andb_false_r. }
  assert (Hrun : delete_video user id w
                 = (Returned {| res_status := 200; res_headers := [];
                                res_body := Json true "Video deleted successfully" None |},
                    {| held := Some archived_video;
                       db := <[ id := archived_video ]> (db w);
                       dirs := dirs w; outbox := outbox w;
                       calls := Save archived_video :: calls w |})).
  { destruct w as [h docs ds events cs]. cbn [db dirs outbox calls] in *.
    unfold delete_video, try_catch at 1, bind at 1. cbn [db]. rewrite Hf, Hallowed.
    subst id. reflexivity. }
  subst w'. unfold world_after, outcome_of. rewrite Hrun. cbn [fst snd db calls].
  split; [reflexivity|]. split; [reflexivity|]. split; [reflexivity|].
  assert (Hgone : forall org,
             findOne_active (<[ id := archived_video ]> (db w)) id org = None).
  { intros org. unfold findOne_active. rewrite lookup_insert_eq.
    cbn. rewrite andb_false_r. reflexivity. }
  split.
  - intros other new_title new_visibility.
    unfold view, update_video, delete_video, try_catch, bind. cbn [db].
    rewrite Hgone. auto.
  - intros env req token decoded viewer Hreq Htok Hjwt Hviewer.
    unfold stream, try_catch, bind. rewrite Htok, Hjwt. cbn [ret].
    rewrite Hviewer. cbn [db fst]. rewrite Hreq, lookup_insert_eq. reflexivity.
Qed.

(** The owner deletes the sample video; the administrator of the same
    organization no longer finds it. *)
Lemma deleted_video_is_gone_witness :
  view Cases.manager "v1" (world_after (delete_video Sample.owner "v1") Sample.ready_world)
  = (Returned (respond_json 404 "Video not found"),
     world_after (delete_video Sample.owner "v1") Sample.ready_world).
Proof.
  refine (proj1 (proj1 (proj2 (proj2 (proj2
            (deleted_video_is_gone Sample.owner "v1" Sample.ready Sample.ready_world
               _ _ _)))) Cases.manager None None)).
  - vm_compute. reflexivity.
  - reflexivity.
  - right. reflexivity.
Defined.

(** What the streaming endpoint does to the world: nothing, or the log
    line of its [catch]. *)
Lemma stream_runs (env : Env) (req : Request) (w : World) :
  (exists resp, stream env req w = (Returned resp, w))
  \/ stream env req w
     = (Returned (respond_json 500 "Error streaming video"),
        push_call (ConsoleError "Video streaming error:") w).
Proof.
  unfold stream, try_catch.
  destruct (JsString.nonempty (token_of req)) as [token|]; [|left; eexists; reflexivity].
  cbv beta iota zeta delta [bind ret throw createReadStream].
  destruct (jwt_verify env token) as [decoded|]; [|right; reflexivity].
  cbv beta iota. destruct (decoded ≫= find_user env) as [user|];
    [|left; eexists; reflexivity].
  destruct (db w !! params_id req) as [video|]; [|left; eexists; reflexivity].
  destruct (negb (isActive video) || negb (status_eqb (status video) completed));
    [left; eexists; reflexivity|].
  destruct (negb (canBeViewedBy video user)); [left; eexists; reflexivity|].
  destruct (disk env (path_resolve env (artifact_path video))) as [bytes|];
    [|left; eexists; reflexivity].
  destruct (JsString.nonempty (range req)) as [range|]; [|left; eexists; reflexivity].
  destruct (JsString.parseInt_at _ 0) as [s|]; [|right; reflexivity].
  match goal with
  | |- context [if JsString.truthy ?p then ?a else ?b] =>
      destruct (if JsString.truthy p then a else b) as [e|]
  end; [|right; reflexivity].
  destruct ((s <? 0)%Z || (e <? 0)%Z || (e <? s)%Z);
    [right; reflexivity|left; eexists; reflexivity].
Qed.

(** X7. The streaming endpoint only reads: whatever the request and the
    environment, it stores nothing, publishes nothing and changes no
    directory; the only trace it may leave is the log line of its [catch],
    and then the answer is 500. *)
Theorem stream_is_read_only (env : Env) (req : Request) (w : World) :
  let w' := world_after (stream env req) w in
  db w' = db w /\ held w' = held w /\ outbox w' = outbox w /\ dirs w' = dirs w
  /\ (calls w' = calls w
      \/ (calls w' = ConsoleError "Video streaming error:" :: calls w
          /\ outcome_of (stream env req) w
             = Returned (respond_json 500 "Error streaming video"))).
Proof.
  unfold world_after, outcome_of.
  destruct (stream_runs env req w) as [[resp ->] | ->];
    cbv zeta; unfold push_call; cbn [fst snd db held outbox dirs calls];
    repeat split; auto.
Qed.

End Lifecycle.

Section UnsatisfiableRanges.

Import JsString.

Lemma range_parts_suffix (n : N) :
  split "-" (remove_first "bytes=" ("bytes=-" ++ show_N n)) = [EmptyString; show_N n].
Proof.
  change ("bytes=-" ++ show_N n)%string with ("bytes=" ++ String "-" (show_N n))%string.
  rewrite remove_first_prefix. cbn [split Ascii.eqb Bool.eqb]. unfold show_N.
  rewrite split_printed_end. reflexivity.
Qed.

(** X8. The handler has no answer 416 and does not read suffix ranges: for
    a request that satisfies the serving preconditions, a header
    [Range: bytes=first-last] with last < first, and a header
    [Range: bytes=-n] asking for the last n bytes, both make the file
    stream constructor throw, and the answer is 500. *)
Theorem unsatisfiable_range_answered_500 (env : Env) (w : World) (req : Request)
    (video : Video) (bytes : list Byte.byte) :
  servable env w req video bytes ->
  (forall first last : N,
      range req = Some ("bytes=" ++ show_N first ++ "-" ++ show_N last)%string ->
      (last < first)%N ->
      outcome_of (stream env req) w = Returned (respond_json 500 "Error streaming video"))
  /\ (forall n : N,
      range req = Some ("bytes=-" ++ show_N n)%string ->
      outcome_of (stream env req) w = Returned (respond_json 500 "Error streaming video")).
Proof.
  intros Hserve. split.
  - intros first last Hrange Hlt.
    destruct Hserve as (token & uid & user & Htok & Hjwt & Huser & Hdb & Hact & Hst
                        & Hview & Hdisk).
    unfold outcome_of, stream, try_catch, bind.
    rewrite Htok, Hjwt; cbn [ret mbind option_bind].
    rewrite Huser, Hdb, Hact, Hst; cbn [negb orb status_eqb].
    rewrite Hview; cbn [negb]. rewrite Hdisk, Hrange.
    change (nonempty (Some ?s)) with (Some s). cbv beta iota.
    rewrite !range_parts. cbn [parseInt_at nth_error].
    rewrite !parseInt_show_N, show_N_nonempty.
    unfold createReadStream.
    destruct (Z.ltb_spec (Z.of_N last) (Z.of_N first)); [|lia].
    rewrite !orb_true_r. reflexivity.
  - intros n Hrange.
    destruct Hserve as (token & uid & user & Htok & Hjwt & Huser & Hdb & Hact & Hst
                        & Hview & Hdisk).
    unfold outcome_of, stream, try_catch, bind.
    rewrite Htok, Hjwt; cbn [ret mbind option_bind].
    rewrite Huser, Hdb, Hact, Hst; cbn [negb orb status_eqb].
    rewrite Hview; cbn [negb]. rewrite Hdisk, Hrange.
    change (nonempty (Some ?s)) with (Some s). cbv beta iota.
    rewrite !range_parts_suffix. cbn [parseInt_at nth_error].
    reflexivity.
Qed.

(** The last four bytes of the sample file cannot be asked for. *)
Lemma unsatisfiable_range_answered_500_witness :
  outcome_of (stream Sample.env (Sample.get (Some "good") (Some "bytes=-4")))
    Sample.ready_world
  = Returned (respond_json 500 "Error streaming video").
Proof.
  refine (proj2 (unsatisfiable_range_answered_500 Sample.env Sample.ready_world
                   (Sample.get (Some "good") (Some "bytes=-4")) Sample.ready
                   Sample.file_bytes _) 4%N _).
  - exists "good", "u1", Sample.owner. repeat split; reflexivity.
  - reflexivity.
Defined.

End UnsatisfiableRanges.

(** ** The range of the scores in binary64 *)

Section ScoreRange.

Import JsNum Sensitivity Binary64.
Local Open Scope Q_scope.

(** The random share of the score, [Math.random() * 0.3], stays at or
    below the double 0.3. *)
Lemma randomFactor_range (random : Q) :
  is_double random -> 0 <= random -> random < 1 ->
  exists f, Binary64.mul (Num random) (lit (3 # 10)) = Num f
            /\ 0 <= f /\ f <= 2702159776422297 # 9007199254740992.
Proof.
  intros Hd H0 H1. pose proof (double_below_one random Hd H1) as B.
  change (pow2 (-53)) with (1 # 9007199254740992) in B.
  rewrite lit_three_tenths. unfold Binary64.mul.
  apply (fl_le _ ((1 - (1 # 9007199254740992)) * (5404319552844595 # 18014398509481984))).
  - nra.
  - nra.
  - vm_compute. reflexivity.
Qed.

(** The score before the cap, from the penalties and the random share. *)
Lemma penalties_range (penalties : JNum) (f : Q) :
  In penalties [Num 0; Binary64.add (Num 0) (lit (1 # 10));
                Binary64.add (Binary64.add (Num 0) (lit (1 # 10))) (lit (1 # 10))] ->
  0 <= f -> f <= 2702159776422297 # 9007199254740992 ->
  exists s, Binary64.add penalties (Num f) = Num s
            /\ 0 <= s /\ s <= 9007199254740991 # 18014398509481984.
Proof.
  intros Hp H0 H1.
  assert (Hs : exists p, penalties = Num p /\ 0 <= p /\ p <= 3602879701896397 # 18014398509481984).
  { cbn [In] in Hp. destruct Hp as [<-|[<-|[<-|[]]]]; eexists; (split; [vm_compute; reflexivity|]);
      split; vm_compute; discriminate. }
  destruct Hs as (p & -> & P0 & P1). unfold Binary64.add.
  apply (fl_le _ ((3602879701896397 # 18014398509481984)
                  + (2702159776422297 # 9007199254740992))).
  - lra.
  - lra.
  - vm_compute. reflexivity.
Qed.

Lemma score_range_doubles (img : SharpImage) (random : Q) (a : FrameAnalysis) :
  is_double random -> 0 <= random -> random < 1 ->
  Doubles.analyzeFrame (Some img) random = Some a ->
  exists q, suspicionScore a = Num q
            /\ 0 <= q /\ q <= 9007199254740991 # 18014398509481984 /\ q < 1 # 2.
Proof.
  intros Hd H0 H1 E.
  apply (f_equal (fun o => match o with Some x => suspicionScore x | None => NaN end)) in E.
  cbv beta iota zeta delta [Doubles.analyzeFrame] in E. cbn [suspicionScore] in E.
  rewrite <- E.
  destruct (randomFactor_range random Hd H0 H1) as (f & -> & F0 & F1).
  match goal with
  | |- context [Binary64.add ?p (Num f)] =>
      destruct (penalties_range p f) as (s & -> & S0 & S1); [|exact F0|exact F1|]
  end.
  - destruct (lt _ _ || gt _ _); destruct (gt _ _); cbn [In]; auto.
  - rewrite min_Num. eexists. split; [reflexivity|].
    destruct (Q.min_spec s 1) as [[Hc ->]|[Hc ->]]; lra.
Qed.

(** X9. Whatever the image, for a random value that is a double in
    [0, 1), [analyzeFrame] gives a finite score between 0 and
    0.49999999999999994, the largest double below one half. *)
Theorem analyzeFrame_score_range (img : SharpImage) (random : Q) (a : FrameAnalysis) :
  is_double random -> 0 <= random -> random < 1 ->
  Doubles.analyzeFrame (Some img) random = Some a ->
  exists q, suspicionScore a = Num q
            /\ 0 <= q /\ q <= 9007199254740991 # 18014398509481984 /\ q < 1 # 2.
Proof. apply score_range_doubles. Qed.

(** The dark frame with the random value 0.6666666666666667 scores the
    double 0.4. *)
Lemma analyzeFrame_score_range_witness :
  exists q, suspicionScore
              {| suspicionScore := Num (3602879701896397 # 9007199254740992);
                 brightness := Num 10; contrast := Num 90;
                 width := 640; height := 480 |} = Num q
            /\ 0 <= q /\ q <= 9007199254740991 # 18014398509481984 /\ q < 1 # 2.
Proof.
  refine (analyzeFrame_score_range Cases.dark_image Cases.two_thirds _ _ _ _ _).
  - eexists. split; [vm_compute; reflexivity|reflexivity].
  - vm_compute. discriminate.
  - reflexivity.
  - vm_compute. reflexivity.
Defined.

End ScoreRange.

(** ** What the scores can be *)

Section Scores.

Import JsNum.
Local Open Scope Q_scope.


(** *** Sums and means of bounded scores *)




Lemma mean_between (lo hi t : Q) (n : nat) :
  (0 < n)%nat ->
  inject_Z (Z.of_nat n) * lo <= t -> t <= inject_Z (Z.of_nat n) * hi ->
  lo <= t / inject_Z (Z.of_nat n) /\ t / inject_Z (Z.of_nat n) <= hi.
Proof.
  intros Hn Hlo Hhi.
  assert (Hpos : 0 < inject_Z (Z.of_nat n)) by (unfold Qlt; simpl; lia).
  split.
  - apply Qle_shift_div_l; [exact Hpos|]. rewrite Qmult_comm. exact Hlo.
  - apply Qle_shift_div_r; [exact Hpos|]. rewrite Qmult_comm. exact Hhi.
Qed.



(** *** The confidence *)




(** *** The progress of the scoring loop *)

(** X11. While the frames are scored the published progress stays between
    40 and 80: after [p] of [total] frames, 1 <= p <= total, it is a number
    in that interval, and it is 80 after the last frame. *)
Theorem frame_progress_range (p total : nat) :
  (0 < total)%nat -> (p <= total)%nat ->
  exists q, frame_progress p total = Num q
            /\ 40 <= q /\ q <= 80
            /\ (p = total -> q == 80).
Proof.
  intros Hn Hp. unfold frame_progress.
  change (of_nat p) with (Num (inject_Z (Z.of_nat p))).
  rewrite (div_Num_pos _ _ Hn). unfold mul, round, add.
  eexists. split; [reflexivity|].
  set (n := inject_Z (Z.of_nat total)). set (k := inject_Z (Z.of_nat p)).
  assert (Hpos : 0 < n) by (unfold n, Qlt; simpl; lia).
  assert (Hk0 : 0 <= k) by (unfold k; rewrite <- (Zle_Qle 0); lia).
  assert (Hkn : k <= n) by (unfold k, n; rewrite <- Zle_Qle; lia).
  destruct (mean_between 0 1 k total Hn) as [Hr0 Hr1]; fold n; try lra.
  fold n in Hr0, Hr1.
  assert (L : (0 <= Qfloor (k / n * 40 + (1 # 2)))%Z).
  { change 0%Z with (Qfloor (1 # 2)). apply Qfloor_resp_le. lra. }
  assert (U : (Qfloor (k / n * 40 + (1 # 2)) <= 40)%Z).
  { change 40%Z with (Qfloor (40 + (1 # 2))) at 2. apply Qfloor_resp_le. lra. }
  rewrite Zle_Qle in L, U. split; [|split].
  - change (inject_Z 0) with 0 in L. lra.
  - change (inject_Z 40) with 40 in U. lra.
  - intros ->. fold n in k. subst k.
    assert (E : n / n * 40 + (1 # 2) == 40 + (1 # 2)) by (field; lra).
    rewrite E. reflexivity.
Qed.

(** After the second of two frames. *)
Lemma frame_progress_range_witness :
  exists q, frame_progress 2 2 = Num q /\ 40 <= q /\ q <= 80 /\ (2%nat = 2%nat -> q == 80).
Proof. apply (frame_progress_range 2 2); lia. Defined.

End Scores.

(** ** What the engine returns *)

Section Engine.

Import JsNum.
Local Open Scope Q_scope.

(** The scoring loop adds to the analyses one for each frame that sharp
    could read, and publishes one progress event for each frame. *)
Lemma score_frames_scores (env : Env) (io : Io) (videoId : string) (total : nat)
    (framePaths : list string) :
  forall allAnalyses processedFrames w,
  exists scored events cs,
    score_frames env (Some io) videoId total framePaths allAnalyses processedFrames w
    = (Returned (allAnalyses ++ scored), extend w (dirs w) events cs)
    /\ Forall (fun e => target e = ToAll /\ is_analysis_event e = true) events
    /\ Forall (scored_by env) scored
    /\ length events = length framePaths.
Proof.
  induction framePaths as [|framePath rest IH]; intros allAnalyses processedFrames w;
    destruct w as [h docs ds events0 cs0].
  - exists [], [], []. rewrite app_nil_r. repeat constructor.
  - cbn [score_frames]. unfold analyzeFrame_at. run_handler.
    match goal with
    | |- context [score_frames env (Some io) videoId total rest ?a ?n ?W] =>
        destruct (IH a n W) as (scored & events & cs & E & Hev & Hsc & Hlen)
    end.
    rewrite E. run_handler.
    assert (Hnew : exists scored',
               (match analyzeFrame (sharp env framePath) (math_random env framePath) with
                | Some a => allAnalyses ++ [a]
                | None => allAnalyses
                end ++ scored)%list = (allAnalyses ++ scored')%list
               /\ Forall (scored_by env) scored').
    { destruct (analyzeFrame (sharp env framePath) (math_random env framePath))
        as [a|] eqn:Ea.
      - exists (a :: scored). rewrite <- app_assoc. split; [reflexivity|].
        constructor; [|exact Hsc].
        destruct (sharp env framePath) as [img|] eqn:Es; [|discriminate Ea].
        exists framePath, img. rewrite Es. split; [reflexivity | exact Ea].
      - exists scored. split; [reflexivity | exact Hsc]. }
    destruct Hnew as (scored' & -> & Hsc').
    match goal with
    | |- context [events ++ ?e :: events0] =>
        exists scored', (events ++ [e]), (cs ++ [Sharp framePath])
    end.
    rewrite <- (app_assoc events), <- (app_assoc cs). split; [reflexivity|].
    split; [|split].
    + apply Forall_app. split; [exact Hev | repeat constructor].
    + exact Hsc'.
    + rewrite length_app. cbn [length]. lia.
Qed.

(** With a defined sink the engine never throws; every event it publishes
    is a broadcast; what it returns classifies frames that were scored, or
    is the object of its [catch] block. *)
Lemma analyzeSensitivity_outcome (env : Env) (videoPath videoId : string) (io : Io)
    (w : World) :
  exists results ds events cs,
    analyzeSensitivity env videoPath videoId (Some io) w
    = (Returned results, extend w ds events cs)
    /\ Forall (fun e => target e = ToAll /\ is_analysis_event e = true) events
    /\ engine_result env results.
Proof.
  destruct w as [h docs ds0 events0 cs0].
  unfold analyzeSensitivity, extractFrames. run_handler.
  set (dir := framesDir_of env videoPath videoId).
  destruct (mkdir_error env dir) as [refused|]; run_handler.
  { destruct (rmdir_error env dir) as [reason|]; run_handler.
    - eexists. eexists. eexists [_; _; _]. eexists [_; _; _; _; _].
      split; [reflexivity|]. split; [repeat constructor | right; eexists; reflexivity].
    - eexists. eexists. eexists [_; _; _]. eexists [_; _; _; _].
      split; [reflexivity|]. split; [repeat constructor | right; eexists; reflexivity]. }
  destruct (ffmpeg_frames env (absolute_path env videoPath) dir) as [message|files];
    run_handler.
  { destruct (rmdir_error env dir) as [reason|]; run_handler.
    - eexists. eexists. eexists [_; _; _; _]. eexists [_; _; _; _; _; _].
      split; [reflexivity|]. split; [repeat constructor | right; eexists; reflexivity].
    - eexists. eexists. eexists [_; _; _; _]. eexists [_; _; _; _; _].
      split; [reflexivity|]. split; [repeat constructor | right; eexists; reflexivity]. }
  destruct (length (map (path_join dir) (List.filter is_frame_file files)) =? 0)%nat;
    run_handler.
  { destruct (rmdir_error env dir) as [reason|]; run_handler.
    - eexists. eexists. eexists [_; _; _; _]. eexists [_; _; _; _; _].
      split; [reflexivity|]. split; [repeat constructor | right; eexists; reflexivity].
    - eexists. eexists. eexists [_; _; _; _]. eexists [_; _; _; _].
      split; [reflexivity|]. split; [repeat constructor | right; eexists; reflexivity]. }
  match goal with
  | |- context [score_frames env (Some io) videoId ?n ?l ?a ?k ?W] =>
      destruct (score_frames_scores env io videoId n l a k W)
        as (scored & events & cs & E & Hev & Hsc & _)
  end.
  rewrite E. cbn [app]. run_handler.
  destruct (rmdir_error env dir) as [reason|]; run_handler.
  - eexists. eexists.
    match goal with
    | |- context [?e2 :: ?e1 :: events ++ ?e0 :: ?d :: ?c :: ?b :: events0] =>
        exists (e2 :: e1 :: events ++ [e0; d; c; b])
    end.
    eexists (_ :: _ :: cs ++ [_; _]).
    cbn [app]. rewrite <- (app_assoc events), <- (app_assoc cs).
    split; [reflexivity|]. split.
    + repeat (constructor; [split; reflexivity|]).
      apply Forall_app. split; [exact Hev | repeat constructor].
    + left. exists scored. split; [exact Hsc | reflexivity].
  - eexists. eexists.
    match goal with
    | |- context [?e2 :: ?e1 :: events ++ ?e0 :: ?d :: ?c :: ?b :: events0] =>
        exists (e2 :: e1 :: events ++ [e0; d; c; b])
    end.
    eexists (_ :: cs ++ [_; _]).
    cbn [app]. rewrite <- (app_assoc events), <- (app_assoc cs).
    split; [reflexivity|]. split.
    + repeat (constructor; [split; reflexivity|]).
      apply Forall_app. split; [exact Hev | repeat constructor].
    + left. exists scored. split; [exact Hsc | reflexivity].
Qed.

Lemma classify_completed (analyses : list FrameAnalysis) :
  ar_status (classify analyses) = st_completed.
Proof.
  unfold classify. destruct (_ || _); [|destruct (_ || _)]; reflexivity.
Qed.

(** X12. With a defined sink the engine always returns, whatever the tools
    do: it never throws, it leaves the held and the stored documents alone,
    every event it publishes is a broadcast, and its results are either
    completed or the failed results, which read safe with confidence 0. *)
Theorem engine_always_returns (env : Env) (videoPath videoId : string) (io : Io)
    (w : World) :
  exists results w' events,
    analyzeSensitivity env videoPath videoId (Some io) w = (Returned results, w')
    /\ held w' = held w /\ db w' = db w
    /\ outbox w' = events ++ outbox w
    /\ Forall (fun e => target e = ToAll) events
    /\ (ar_status results = st_completed
        \/ (ar_status results = st_failed /\ ar_result results = safe
            /\ ar_confidence results = Num 0
            /\ is_Some (error (ar_details results)))).
Proof.
  destruct (analyzeSensitivity_outcome env videoPath videoId io w)
    as (results & ds & events & cs & E & Hev & Hres).
  exists results, (extend w ds events cs), events.
  split; [exact E|]. repeat (split; [reflexivity|]).
  split; [eapply Forall_impl; [exact Hev | intros e [H _]; exact H]|].
  destruct Hres as [(analyses & _ & ->) | (message & ->)].
  - left. apply classify_completed.
  - right. repeat split. eexists. reflexivity.
Qed.

(** The engine on the upload of the sample deployment. *)
Lemma engine_always_returns_witness :
  exists results w' events,
    analyzeSensitivity Sample.env "uploads/videos/holiday-1.mp4" "v1" (Some SocketServer)
      Sample.empty_world = (Returned results, w')
    /\ held w' = held Sample.empty_world /\ db w' = db Sample.empty_world
    /\ outbox w' = events ++ outbox Sample.empty_world
    /\ Forall (fun e => target e = ToAll) events
    /\ (ar_status results = st_completed
        \/ (ar_status results = st_failed /\ ar_result results = safe
            /\ ar_confidence results = Num 0
            /\ is_Some (error (ar_details results)))).
Proof.
  exact (engine_always_returns Sample.env "uploads/videos/holiday-1.mp4" "v1" SocketServer
           Sample.empty_world).
Defined.



(** X14. When the frames were sampled but sharp can read none of them, the
    engine still reports a completed analysis: the result is safe, no frame
    was analysed, and the confidence and the averages are NaN. *)
Theorem unreadable_frames_reported_safe (env : Env) (videoPath videoId : string) (io : Io)
    (w : World) (files : list string) :
  let dir := framesDir_of env videoPath videoId in
  mkdir_error env dir = None ->
  ffmpeg_frames env (absolute_path env videoPath) dir = inr files ->
  List.filter is_frame_file files <> [] ->
  (forall framePath, sharp env framePath = None) ->
  exists results w',
    analyzeSensitivity env videoPath videoId (Some io) w = (Returned results, w')
    /\ ar_status results = st_completed
    /\ ar_result results = safe
    /\ ar_confidence results = NaN
    /\ framesAnalyzed (ar_details results) = 0%nat
    /\ hd_error (outbox w')
       = Some {| target := ToAll; payload := AnalysisComplete videoId results |}.
Proof.
  intros dir Hmk Hframes Hsome Hsharp. destruct w as [h docs ds events0 cs0].
  unfold analyzeSensitivity, extractFrames.
  fold dir. run_handler. rewrite Hmk. run_handler. rewrite Hframes. run_handler.
  destruct (List.filter is_frame_file files) as [|file others] eqn:Efiles;
    [congruence|].
  cbn [map length Nat.eqb]. run_handler.
  match goal with
  | |- context [score_frames env (Some io) videoId ?n ?l ?a ?k ?W] =>
      destruct (score_frames_scores env io videoId n l a k W)
        as (scored & events & cs & E & _ & Hsc & _)
  end.
  rewrite E. cbn [app]. run_handler.
  assert (scored = []) as ->.
  { destruct scored as [|a rest]; [reflexivity|].
    inversion Hsc as [|? ? (framePath & img & Es & _) _]; subst.
    rewrite Hsharp in Es. discriminate. }
  destruct (rmdir_error env dir); run_handler;
    eexists; eexists; (split; [reflexivity|]); repeat split.
Qed.

(** The sample deployment with frames that sharp rejects. *)
Lemma unreadable_frames_reported_safe_witness :
  exists results w',
    analyzeSensitivity Cases.env_unreadable "uploads/videos/holiday-1.mp4" "v1"
      (Some SocketServer) Sample.empty_world = (Returned results, w')
    /\ ar_status results = st_completed
    /\ ar_result results = safe
    /\ ar_confidence results = NaN
    /\ framesAnalyzed (ar_details results) = 0%nat
    /\ hd_error (outbox w')
       = Some {| target := ToAll; payload := AnalysisComplete "v1" results |}.
Proof.
  apply (unreadable_frames_reported_safe Cases.env_unreadable
           "uploads/videos/holiday-1.mp4" "v1" SocketServer Sample.empty_world
           ["frame_001.jpg"; "frame_002.jpg"; "ffmpeg.log"]).
  - reflexivity.
  - reflexivity.
  - vm_compute. discriminate.
  - intros framePath. reflexivity.
Defined.

End Engine.

(** ** The stages of the pipeline, and where it ends *)

Section Stages.

(** The metadata stage asks [fs.stat] first, and again in its [catch]. *)
Lemma extractVideoMetadata_unreadable (env : Env) (videoPath : string) (w : World) :
  stat_size env videoPath = None ->
  extractVideoMetadata env videoPath w
  = (Thrown (Error "ENOENT: no such file or directory"),
     push_call (ConsoleError "Error extracting video metadata:") w).
Proof.
  intros Hstat.
  unfold extractVideoMetadata, try_catch, bind, fs_stat, call, modify.
  rewrite Hstat. reflexivity.
Qed.

(** The metadata stage when nothing is handed to [eval]. *)
Lemma extractVideoMetadata_plain (env : Env) (videoPath : string) (size : Z) (w : World) :
  stat_size env videoPath = Some size ->
  nothing_to_evaluate env videoPath ->
  exists m cs,
    extractVideoMetadata env videoPath w = (Returned m, extend w (dirs w) [] cs)
    /\ md_fileSize m = size
    /\ md_frameRate m = JsNum.Num 0
    /\ (ffprobe env videoPath = None -> m = default_metadata size)
    /\ Forall (fun c => is_eval c = false) cs.
Proof.
  intros Hstat Hplain.
  set (failed := ConsoleError "Error extracting video metadata:").
  unfold extractVideoMetadata, try_catch, bind, fs_stat, frameRate_of, call, modify.
  rewrite Hstat. cbn.
  destruct (ffprobe env videoPath) as [metadata|] eqn:Hprobe.
  2: { cbn. eexists. exists [failed; Ffprobe videoPath].
       repeat split; repeat constructor. }
  destruct (find_stream "video" (streams metadata)) as [stream|] eqn:Hstream.
  2: { cbn. eexists. exists [Ffprobe videoPath].
       split; [reflexivity|]. split; [reflexivity|]. split; [reflexivity|].
       split; [discriminate|repeat constructor]. }
  destruct (Hplain metadata stream Hprobe Hstream) as [-> | ->];
    cbn; eexists; exists [Ffprobe videoPath];
    (split; [reflexivity|]); (split; [reflexivity|]); (split; [reflexivity|]);
    (split; [discriminate|repeat constructor]).
Qed.

(** X15. The metadata stage throws when the file cannot be stat'ed. When it
    can, and the probe reports no frame rate to evaluate (the probing tool
    fails, or it finds no video stream, or the stream has no frame rate),
    the stage returns metadata that carry the true file size and the frame
    rate 0, all other fields at their defaults when the probing tool
    fails; it evaluates nothing, and it changes nothing of the world but
    the record of its calls. *)
Theorem extractVideoMetadata_outcome (env : Env) (videoPath : string) (w : World) :
  (stat_size env videoPath = None ->
   exists error, outcome_of (extractVideoMetadata env videoPath) w = Thrown error)
  /\ (forall size,
        stat_size env videoPath = Some size ->
        nothing_to_evaluate env videoPath ->
        exists m cs,
          extractVideoMetadata env videoPath w = (Returned m, extend w (dirs w) [] cs)
          /\ md_fileSize m = size
          /\ md_frameRate m = JsNum.Num 0
          /\ (ffprobe env videoPath = None -> m = default_metadata size)
          /\ Forall (fun c => is_eval c = false) cs).
Proof.
  split.
  - intros Hstat. eexists. unfold outcome_of.
    rewrite (extractVideoMetadata_unreadable env videoPath w Hstat). reflexivity.
  - intros size. apply extractVideoMetadata_plain.
Qed.

(** In the deployment where the probing tool fails, the sample file gets
    the default metadata with its size. *)
Lemma extractVideoMetadata_outcome_witness :
  exists m cs,
    extractVideoMetadata Cases.env_no_probe "uploads/videos/holiday-1.mp4"
      Sample.empty_world
    = (Returned m, extend Sample.empty_world (dirs Sample.empty_world) [] cs)
    /\ md_fileSize m = 1000
    /\ md_frameRate m = JsNum.Num 0
    /\ (ffprobe Cases.env_no_probe "uploads/videos/holiday-1.mp4" = None ->
        m = default_metadata 1000)
    /\ Forall (fun c => is_eval c = false) cs.
Proof.
  apply (proj2 (extractVideoMetadata_outcome Cases.env_no_probe
                  "uploads/videos/holiday-1.mp4" Sample.empty_world) 1000).
  - reflexivity.
  - intros metadata stream Hprobe. discriminate Hprobe.
Defined.

(** The thumbnail stage. *)
Lemma generateThumbnail_runs (env : Env) (videoPath outputPath : string) (w : World) :
  let name := ("thumb_" ++ date_now env ++ ".jpg")%string in
  let made := mkdir_error env outputPath = None
              /\ thumbnail_ok env videoPath (path_join outputPath name) = true
              /\ access_ok env (path_join outputPath name) = true in
  exists t ds cs,
    generateThumbnail env videoPath outputPath w = (Returned t, extend w ds [] cs)
    /\ ((t = Some name /\ made) \/ (t = None /\ ~ made)).
Proof.
  intros name made. subst made.
  unfold generateThumbnail, try_catch, bind, fs_mkdir, call, modify. fold name. cbn.
  destruct (mkdir_error env outputPath) as [message|]; cbn.
  { eexists. eexists. eexists [_; _]. split; [reflexivity|].
    right. split; [reflexivity|]. intros [H _]. discriminate. }
  destruct (thumbnail_ok env videoPath (path_join outputPath name)); cbn.
  2: { eexists. eexists. eexists [_; _; _]. split; [reflexivity|].
       right. split; [reflexivity|]. intros (_ & H & _). discriminate. }
  destruct (access_ok env (path_join outputPath name)); cbn.
  - eexists. eexists. eexists [_; _]. split; [reflexivity|]. left. repeat split.
  - eexists. eexists. eexists [_; _]. split; [reflexivity|].
    right. split; [reflexivity|]. intros (_ & _ & H). discriminate.
Qed.

(** X16. The thumbnail stage never throws: it returns the name
    [thumb_<now>.jpg] when the directory, the ffmpeg run and the check of
    the file all succeed, and null otherwise; it stores and publishes
    nothing. *)
Theorem generateThumbnail_never_throws (env : Env) (videoPath outputPath : string)
    (w : World) :
  let name := ("thumb_" ++ date_now env ++ ".jpg")%string in
  let w' := world_after (generateThumbnail env videoPath outputPath) w in
  exists t,
    outcome_of (generateThumbnail env videoPath outputPath) w = Returned t
    /\ (t = Some name \/ t = None)
    /\ (t = Some name
        <-> mkdir_error env outputPath = None
            /\ thumbnail_ok env videoPath (path_join outputPath name) = true
            /\ access_ok env (path_join outputPath name) = true)
    /\ db w' = db w /\ held w' = held w /\ outbox w' = outbox w.
Proof.
  intros name w'. subst w'.
  destruct (generateThumbnail_runs env videoPath outputPath w)
    as (t & ds & cs & E & Ht).
  exists t. unfold outcome_of, world_after. rewrite E. cbn [fst snd].
  split; [reflexivity|]. fold name in Ht.
  destruct Ht as [[-> Hmade] | [-> Hnot]].
  - split; [left; reflexivity|]. split; [tauto|]. repeat split.
  - split; [right; reflexivity|]. split; [|repeat split].
    split; [discriminate | intros H; contradiction].
Qed.

Lemma transcode_fails_dec (env : Env) (inputPath outputPath : string) :
  {transcode_fails env inputPath outputPath}
  + {mkdir_error env (path_dirname env outputPath) = None
     /\ transcode_ok env inputPath outputPath = true
     /\ exists size, stat_size env outputPath = Some size}.
Proof.
  unfold transcode_fails.
  destruct (mkdir_error env (path_dirname env outputPath)) as [message|];
    [left; left; discriminate|].
  destruct (transcode_ok env inputPath outputPath); [|left; right; left; reflexivity].
  destruct (stat_size env outputPath) as [size|]; [|left; right; right; reflexivity].
  right. repeat split. exists size. reflexivity.
Qed.

Lemma optimizeVideoForStreaming_returns (env : Env) (inputPath outputPath : string)
    (w : World) :
  ~ transcode_fails env inputPath outputPath ->
  exists ds cs,
    optimizeVideoForStreaming env inputPath outputPath w
    = (Returned outputPath, extend w ds [] cs).
Proof.
  intros Hok.
  destruct (transcode_fails_dec env inputPath outputPath)
    as [Hfail | (Hmk & Hrun & size & Hst)]; [contradiction|].
  unfold optimizeVideoForStreaming, try_catch, bind, fs_mkdir, fs_stat, call, modify.
  cbn. rewrite Hmk. cbn. rewrite Hrun. cbn. rewrite Hst. cbn.
  eexists. eexists [_; _]. reflexivity.
Qed.

(** X17. The transcoding stage returns the output path exactly when the
    directory can be made, the encoder exits with success and the output
    file exists afterwards; in every other case it throws one and the same
    error, [Failed to optimize video for streaming], the cause being
    logged only. *)
Theorem optimizeVideoForStreaming_outcome (env : Env) (inputPath outputPath : string)
    (w : World) :
  (outcome_of (optimizeVideoForStreaming env inputPath outputPath) w
   = Returned outputPath
   /\ ~ transcode_fails env inputPath outputPath)
  \/ (outcome_of (optimizeVideoForStreaming env inputPath outputPath) w
      = Thrown (Error "Failed to optimize video for streaming")
      /\ transcode_fails env inputPath outputPath
      /\ hd_error (calls (world_after
                            (optimizeVideoForStreaming env inputPath outputPath) w))
         = Some (ConsoleError "Error optimizing video:")).
Proof.
  destruct (transcode_fails_dec env inputPath outputPath)
    as [Hfail | (Hmk & Hrun & size & Hst)].
  - right. split; [|split; [exact Hfail|]].
    + destruct (optimizeVideoForStreaming_throws env inputPath outputPath w Hfail)
        as (ds & cs & E & _).
      unfold outcome_of. rewrite E. reflexivity.
    + unfold optimizeVideoForStreaming, try_catch, bind, fs_mkdir, fs_stat, call,
        modify, world_after.
      cbn.
      destruct (mkdir_error env (path_dirname env outputPath)) eqn:Emk; cbn;
        [reflexivity|].
      destruct (transcode_ok env inputPath outputPath) eqn:Eok; cbn; [|reflexivity].
      destruct (stat_size env outputPath) eqn:Est; cbn; [|reflexivity].
      destruct Hfail as [H|[H|H]]; congruence.
  - left.
    assert (Hok : ~ transcode_fails env inputPath outputPath).
    { intros [H|[H|H]]; congruence. }
    split; [|exact Hok].
    destruct (optimizeVideoForStreaming_returns env inputPath outputPath w Hok)
      as (ds & cs & E).
    unfold outcome_of. rewrite E. reflexivity.
Qed.

End Stages.

Section PipelineEnds.






(** When sharp reads no frame, the confidence of the verdict is NaN: the
    schema refuses the document that the run saves at the end. *)
Example unreadable_frames_are_refused :
  Schema.writes_accepted
    (processVideoAsync Cases.env_unreadable Sample.uploaded (Some SocketServer))
    Sample.empty_world = false.
Proof. vm_compute. reflexivity. Qed.


(** *** The upload handler *)














Example upload_of_numbers_answers_500 :
  outcome_of (post_upload Sample.env server_app Cases.upload_of_numbers) Sample.empty_world
  = Returned (respond_json 500 "Error uploading video")
  /\ db (world_after (post_upload Sample.env server_app Cases.upload_of_numbers)
           Sample.empty_world) = db Sample.empty_world.
Proof. split; vm_compute; reflexivity. Qed.







End PipelineEnds.

(** ** The progress of a record, and the token of a request *)

Section Progress.

(** X21. [updateProgress] keeps the stored progress within 0..100 whatever
    it is given: a value inside the interval is stored as it is, a negative
    one as 0 and one above 100 as 100; the status changes only when one is
    given; the document is written once, under its own id. *)
Theorem updateProgress_clamps (progress : Z) (new_status : option Status) (v : Video)
    (w : World) :
  held w = Some v ->
  exists v',
    updateProgress progress new_status w
    = (Returned tt,
       {| held := Some v'; db := <[ _id v := v' ]> (db w); dirs := dirs w;
          outbox := outbox w; calls := Save v' :: calls w |})
    /\ 0 <= processingProgress v' <= 100
    /\ (0 <= progress <= 100 -> processingProgress v' = progress)
    /\ (progress < 0 -> processingProgress v' = 0)
    /\ (100 < progress -> processingProgress v' = 100)
    /\ status v' = default (status v) new_status
    /\ sensitivityAnalysis v' = sensitivityAnalysis v.
Proof.
  intros Hheld. destruct w as [h docs ds events cs]. cbn [held] in Hheld. subst h.
  destruct new_status as [s|].
  - exists (set_status s (set_processingProgress (clamp_progress progress) v)).
    split; [reflexivity|]. cbn. unfold clamp_progress. repeat split; lia.
  - exists (set_processingProgress (clamp_progress progress) v).
    split; [reflexivity|]. cbn. unfold clamp_progress. repeat split; lia.
Qed.

(** A progress of 250 on the sample record is stored as 100. *)
Lemma updateProgress_clamps_witness :
  exists v',
    updateProgress 250 None Cases.held_world
    = (Returned tt,
       {| held := Some v'; db := <[ _id Sample.ready := v' ]> (db Cases.held_world);
          dirs := dirs Cases.held_world; outbox := outbox Cases.held_world;
          calls := Save v' :: calls Cases.held_world |})
    /\ 0 <= processingProgress v' <= 100
    /\ (0 <= 250 <= 100 -> processingProgress v' = 250)
    /\ (250 < 0 -> processingProgress v' = 0)
    /\ (100 < 250 -> processingProgress v' = 100)
    /\ status v' = default (status Sample.ready) None
    /\ sensitivityAnalysis v' = sensitivityAnalysis Sample.ready.
Proof. apply (updateProgress_clamps 250 None Sample.ready Cases.held_world). reflexivity. Defined.

End Progress.

Section Tokens.

Import JsString.

Lemma split_no_separator (sep : ascii) (s : string) :
  TokenSpec.free_of sep s = true -> split sep s = [s].
Proof.
  induction s as [|c s IH]; [reflexivity|].
  cbn [TokenSpec.free_of split]. intros H. apply andb_true_iff in H as [Hc Hs].
  apply negb_true_iff in Hc. rewrite Hc, (IH Hs). reflexivity.
Qed.

(** X22. Where the streaming endpoint takes its token from: a non-empty
    [token] query parameter wins over the header; without one, the header
    [Authorization: Bearer <token>] gives the token, and a header without a
    second word gives none, so that the request is answered 401. *)
Theorem token_of_request (req : Request) :
  (forall c rest, query_token req = Some (String c rest) ->
                  token_of req = Some (String c rest))
  /\ (forall token,
        truthy (query_token req) = false ->
        authorization req = Some ("Bearer " ++ token)%string ->
        TokenSpec.free_of " " token = true ->
        token_of req = Some token)
  /\ (forall scheme env w,
        truthy (query_token req) = false ->
        authorization req = Some scheme ->
        TokenSpec.free_of " " scheme = true ->
        stream env req w = (Returned (respond_json 401 "Token required"), w)).
Proof.
  split; [|split].
  - intros c rest Hq. unfold token_of. rewrite Hq. reflexivity.
  - intros token Hq Hauth Hfree. unfold token_of. rewrite Hq, Hauth.
    change ("Bearer " ++ token)%string
      with (String "B" (String "e" (String "a" (String "r" (String "e" (String "r"
             (String " " token))))))).
    cbn [truthy split Ascii.eqb Bool.eqb nth_error].
    rewrite (split_no_separator _ _ Hfree). reflexivity.
  - intros scheme env w Hq Hauth Hfree.
    assert (Htok : nonempty (token_of req) = None).
    { unfold token_of. rewrite Hq, Hauth.
      destruct scheme as [|c rest]; [reflexivity|].
      cbn [truthy]. rewrite (split_no_separator _ _ Hfree). reflexivity. }
    unfold stream, try_catch. rewrite Htok. reflexivity.
Qed.

(** The bearer token of the sample user. *)
Lemma token_of_request_witness :
  token_of {| params_id := "v1"; query_token := None;
              authorization := Some "Bearer good"; range := None; origin := None |}
  = Some "good".
Proof.
  apply (proj1 (proj2 (token_of_request
                         {| params_id := "v1"; query_token := None;
                            authorization := Some "Bearer good"; range := None;
                            origin := None |})) "good"); reflexivity.
Defined.

End Tokens.

(** ** Pages of the listing *)

Section Pages.

Import JsNum Listing.
Local Open Scope Q_scope.

Lemma lt_Num (a b : Q) : lt (Num a) (Num b) = true <-> a < b.
Proof.
  unfold lt, cmp. pose proof (Qlt_alt a b) as H.
  destruct (a ?= b) eqn:E; split; intros H'; try discriminate; try reflexivity;
    try (apply H; reflexivity); apply H in H'; discriminate.
Qed.

(** An integer is below the ceiling of [x] exactly when it is below [x]. *)
Lemma below_ceiling (z : Z) (x : Q) : (z < Qceiling x)%Z <-> inject_Z z < x.
Proof.
  split; intros H.
  - apply Qle_lt_trans with (inject_Z (Qceiling x - 1)); [|apply Qceiling_lt].
    rewrite <- Zle_Qle. lia.
  - rewrite Zlt_Qlt. apply Qlt_le_trans with x; [exact H | apply Qle_ceiling].
Qed.

Lemma below_quotient (page limit total : Z) :
  (0 < limit)%Z ->
  (inject_Z page < inject_Z total / inject_Z limit <-> (page * limit < total)%Z).
Proof.
  intros Hl.
  assert (Hpos : 0 < inject_Z limit) by (unfold Qlt; simpl; lia).
  rewrite Zlt_Qlt, inject_Z_mult. split; intros H.
  - apply (Qmult_lt_compat_r _ _ (inject_Z limit)) in H; [|exact Hpos].
    assert (E : inject_Z total / inject_Z limit * inject_Z limit == inject_Z total)
      by (field; lra).
    rewrite E in H. exact H.
  - apply Qlt_shift_div_l; assumption.
Qed.

Lemma div_Num_nonzero (a b : Z) :
  (0 < b)%Z -> div (of_Z a) (of_Z b) = Num (inject_Z a / inject_Z b).
Proof.
  intros Hb. unfold div, of_Z.
  destruct (Qeq_bool (inject_Z b) 0) eqn:E; [|reflexivity].
  apply Qeq_bool_eq in E. unfold Qeq in E. simpl in E. lia.
Qed.

(** [hasNextPage] compares the page with the number of pages. *)
Lemma hasNextPage_spec (page limit total : Z) :
  (0 < limit)%Z ->
  (hasNextPage (paginate page limit total) = true <-> (page * limit < total)%Z).
Proof.
  intros Hl. unfold paginate. cbn [hasNextPage].
  rewrite (div_Num_nonzero _ _ Hl). cbn [ceil]. unfold of_Z.
  rewrite lt_Num, <- Zlt_Qlt, below_ceiling. apply below_quotient. exact Hl.
Qed.

Lemma page_nonempty {A} (l : list A) (skip limit : nat) :
  (0 < limit)%nat ->
  (firstn limit (skipn skip l) <> [] <-> (skip < length l)%nat).
Proof.
  intros Hl. split.
  - intros H. destruct (Nat.lt_ge_cases skip (length l)) as [Hlt|Hge]; [exact Hlt|].
    rewrite skipn_all2 in H by exact Hge. destruct limit; contradiction.
  - intros H E. apply (f_equal (@length A)) in E.
    rewrite length_firstn, length_skipn in E. cbn [length] in E. lia.
Qed.

Lemma matches_query_viewable (text_matches : string -> Video -> bool) (user : User)
    (filters : Filters) (video : Video) :
  matches_query text_matches user filters video = true ->
  isActive video = true /\ canBeViewedBy video user = true.
Proof.
  unfold matches_query, canBeViewedBy. rewrite !andb_true_iff.
  intros [[[[[Ho Ha] Hv] _] _] _]. split; [exact Ha|].
  destruct (String.eqb (role user) "admin"), (visibility video);
    cbn in *; rewrite ?Ho; try reflexivity;
    destruct (String.eqb (uploadedBy video) (user_id user)); cbn in *; congruence.
Qed.

(** X23. The pages of [GET /] fit together: for a page and a limit of at
    least 1, the page holds at most [limit] videos, all of them matching the
    query, active and viewable by the user; [hasNextPage] is true exactly
    when the next page is not empty, [hasPrevPage] exactly when the page is
    not the first; and [totalPages] is the least number of pages that hold
    all the matching videos. *)
Theorem pagination_is_consistent (text_matches : string -> Video -> bool) (user : User)
    (filters : Filters) (sorted : list Video) (page limit : Z) :
  (1 <= page)%Z -> (1 <= limit)%Z ->
  let total := count_matches text_matches user filters sorted in
  let answer := paginate page limit total in
  let videos := find_page text_matches user filters sorted page limit in
  (length videos <= Z.to_nat limit)%nat
  /\ Forall (fun v => matches_query text_matches user filters v = true
                      /\ isActive v = true /\ canBeViewedBy v user = true) videos
  /\ (hasNextPage answer = true
      <-> find_page text_matches user filters sorted (page + 1) limit <> [])
  /\ (hasPrevPage answer = true <-> (1 < page)%Z)
  /\ exists pages : Z,
       totalPages answer = Num (inject_Z pages)
       /\ ((pages - 1) * limit < total)%Z /\ (total <= pages * limit)%Z.
Proof.
  intros Hp Hl total answer videos. subst videos answer.
  set (found := List.filter (matches_query text_matches user filters) sorted).
  assert (Htotal : total = Z.of_nat (length found)) by reflexivity.
  split; [|split; [|split; [|split]]].
  - unfold find_page. rewrite length_firstn. lia.
  - unfold find_page. fold found. apply Forall_take, Forall_drop.
    apply Forall_forall. intros v Hv. apply list_elem_of_In in Hv.
    apply filter_In in Hv as [_ Hv].
    split; [exact Hv | exact (matches_query_viewable _ _ _ _ Hv)].
  - rewrite hasNextPage_spec by lia. unfold find_page, skip_of. fold found.
    rewrite page_nonempty by lia.
    replace (page + 1 - 1)%Z with page by lia. rewrite Htotal. nia.
  - unfold paginate. cbn [hasPrevPage]. apply Z.ltb_lt.
  - unfold paginate. cbn [totalPages]. rewrite div_Num_nonzero by lia. cbn [ceil].
    eexists. split; [reflexivity|].
    assert (Hlimit : (0 < limit)%Z) by lia.
    set (pages := Qceiling (inject_Z total / inject_Z limit)).
    split.
    + apply (below_quotient _ _ _ Hlimit), below_ceiling. fold pages. lia.
    + destruct (Z.le_gt_cases total (pages * limit)) as [Hle|Hgt]; [exact Hle|].
      apply (below_quotient _ _ _ Hlimit), below_ceiling in Hgt. fold pages in Hgt. lia.
Qed.

(** The owner's first page of one video per page, over two stored videos. *)
Lemma pagination_is_consistent_witness :
  let total := count_matches (fun _ _ => true) Sample.owner no_filters Cases.two_videos in
  let answer := paginate 1 1 total in
  let videos := find_page (fun _ _ => true) Sample.owner no_filters Cases.two_videos 1 1 in
  (length videos <= Z.to_nat 1)%nat
  /\ Forall (fun v => matches_query (fun _ _ => true) Sample.owner no_filters v = true
                      /\ isActive v = true /\ canBeViewedBy v Sample.owner = true) videos
  /\ (hasNextPage answer = true
      <-> find_page (fun _ _ => true) Sample.owner no_filters Cases.two_videos (1 + 1) 1
          <> [])
  /\ (hasPrevPage answer = true <-> (1 < 1)%Z)
  /\ exists pages : Z,
       totalPages answer = Num (inject_Z pages)
       /\ ((pages - 1) * 1 < total)%Z /\ (total <= pages * 1)%Z.
Proof.
  apply (pagination_is_consistent (fun _ _ => true) Sample.owner no_filters
           Cases.two_videos 1 1); lia.
Defined.

End Pages.

(** ** The counters of the dashboard *)

Section Counters.

Import Dashboard.

Lemma bump_same (acc : gmap string nat) (key : string) :
  bump acc key !! key = Some (default 0 (acc !! key) + 1)%nat.
Proof. unfold bump. apply lookup_insert_eq. Qed.

Lemma bump_other (acc : gmap string nat) (key other : string) :
  key <> other -> bump acc key !! other = acc !! other.
Proof. intros H. unfold bump. apply lookup_insert_ne. exact H. Qed.

(** A reduce that bumps the counter of the key of each item that has one. *)
Lemma tally_lookup {A} (step : gmap string nat -> A -> gmap string nat)
    (key : A -> option string) (l : list A) (k : string) :
  (forall acc x, step acc x = match key x with Some name => bump acc name | None => acc end) ->
  forall acc,
    fold_left step l acc !! k
    = counted (acc !! k)
        (length (List.filter
                   (fun x => match key x with
                             | Some name => String.eqb name k
                             | None => false
                             end) l)).
Proof.
  intros Hstep. induction l as [|x l IH]; intros acc; [reflexivity|].
  cbn [fold_left List.filter]. rewrite IH, Hstep.
  destruct (key x) as [name|]; [|reflexivity].
  destruct (String.eqb_spec name k) as [->|Hne].
  - rewrite bump_same. cbn [length].
    destruct (length _); cbn; f_equal; lia.
  - rewrite bump_other by exact Hne. reflexivity.
Qed.

Lemma status_name_eqb (a b : Status) :
  String.eqb (status_name a) (status_name b) = status_eqb a b.
Proof. destruct a, b; reflexivity. Qed.

Lemma verdict_name_eqb (a b : Verdict) :
  String.eqb (verdict_name a) (verdict_name b) = Listing.verdict_eqb a b.
Proof. destruct a, b; reflexivity. Qed.

Lemma filter_map_filter {A B} (f : A -> B) (p : B -> bool) (q : A -> bool) (l : list A) :
  length (List.filter p (map f (List.filter q l)))
  = length (List.filter (fun x => q x && p (f x)) l).
Proof.
  induction l as [|x l IH]; [reflexivity|].
  cbn [List.filter]. destruct (q x); cbn [map List.filter andb].
  - destruct (p (f x)); cbn [length]; rewrite IH; reflexivity.
  - exact IH.
Qed.

(** X24. The counters of the dashboard count the active videos of the
    organization: the counter of a status is the number of such videos in
    that status, the counter of a verdict the number of those that carry
    it, videos without a verdict being in no counter; a status or verdict
    that no video has gets no key at all rather than the count 0. *)
Theorem dashboard_counts (organization : string) (videos : list Video) :
  let statuses := fst (breakdown organization videos) in
  let results := snd (breakdown organization videos) in
  (forall s : Status,
      statusCounts statuses !! status_name s
      = counter (videos_with organization (fun v => status_eqb (status v) s) videos))
  /\ (forall r : Verdict,
        sensitivityCounts results !! verdict_name r
        = counter (videos_with organization (has_verdict r) videos)).
Proof.
  cbn [breakdown fst snd]. split.
  - intros s. unfold statusCounts.
    rewrite (tally_lookup _ (fun x => Some (status_name x))) by reflexivity.
    rewrite lookup_empty.
    rewrite (filter_map_filter status
               (fun x => String.eqb (status_name x) (status_name s))).
    unfold videos_with.
    rewrite (filter_ext _ (fun v => String.eqb (organizationId v) organization
                                    && isActive v && status_eqb (status v) s));
      [|intros v; rewrite status_name_eqb; reflexivity].
    destruct (length _); reflexivity.
  - intros r. unfold sensitivityCounts.
    rewrite (tally_lookup _ (fun x => match x with
                                      | Some r' => Some (verdict_name r')
                                      | None => None
                                      end)) by (intros acc [r'|]; reflexivity).
    rewrite lookup_empty.
    rewrite (filter_map_filter (fun v => sa_result (sensitivityAnalysis v))
               (fun x => match match x with
                               | Some r' => Some (verdict_name r')
                               | None => None
                               end with
                         | Some name => String.eqb name (verdict_name r)
                         | None => false
                         end)).
    unfold videos_with.
    rewrite (filter_ext _ (fun v => String.eqb (organizationId v) organization
                                    && isActive v && has_verdict r v));
      [|intros v; unfold has_verdict;
        destruct (sa_result (sensitivityAnalysis v));
        [rewrite verdict_name_eqb|]; reflexivity].
    destruct (length _); reflexivity.
Qed.

End Counters.

(** ** The last administrator *)

Section Administrators.

Import Accounts.

Lemma findOne_member_Some (users : gmap string Account) (id organization : string)
    (a : Account) :
  findOne_member users id organization = Some a ->
  users !! id = Some a /\ acc_organizationId a = organization /\ acc_isActive a = true.
Proof.
  unfold findOne_member. destruct (users !! id) as [a'|]; [|discriminate].
  destruct (String.eqb_spec (acc_organizationId a') organization) as [Ho|Ho];
    [|discriminate].
  destruct (acc_isActive a') eqn:Ha; [|discriminate].
  intros E. injection E as <-. auto.
Qed.

(** When more than one administrator is counted, one of them is not [me]. *)
Lemma another_admin (users : gmap string Account) (organization me : string) :
  (1 < adminCount users organization)%nat ->
  exists id a, id <> me /\ users !! id = Some a /\ is_active_admin organization a = true.
Proof.
  unfold adminCount. intros Hcount.
  set (admins := filter (fun kv => is_active_admin organization kv.2 = true) users) in *.
  assert (Hrest : size (delete me admins) <> 0%nat).
  { rewrite map_size_delete. destruct (admins !! me); unfold id; lia. }
  apply map_size_ne_0_lookup_1 in Hrest as (id & a & Hin).
  apply lookup_delete_Some in Hin as [Hne Hin].
  apply map_lookup_filter_Some in Hin as [Hin Hadmin].
  exists id, a. split; [congruence|]. split; assumption.
Qed.

Lemma has_admin_insert (users : gmap string Account) (organization id : string)
    (changed : Account) :
  (exists id' a, id' <> id /\ users !! id' = Some a
                 /\ is_active_admin organization a = true) ->
  has_admin organization (<[ id := changed ]> users).
Proof.
  intros (id' & a & Hne & Hin & Hadmin). exists id', a. split; [|exact Hadmin].
  rewrite lookup_insert_ne by congruence. exact Hin.
Qed.

(** Changing or deactivating the member [user] for the requester [me]
    leaves an administrator to [organization], unless [user] is [me] and
    no other administrator is counted. *)
Lemma admin_remains (users : gmap string Account) (me user changed : Account)
    (organization : string) :
  keyed users ->
  users !! acc_id me = Some me ->
  is_active_admin (acc_organizationId me) me = true ->
  users !! acc_id user = Some user ->
  acc_organizationId user = acc_organizationId me ->
  has_admin organization users ->
  (acc_id user = acc_id me ->
   is_active_admin (acc_organizationId me) changed = true
   \/ (1 < adminCount users (acc_organizationId me))%nat) ->
  has_admin organization (<[ acc_id user := changed ]> users).
Proof.
  intros Hkeyed Hme Hadmin Huser Horg (id0 & a0 & Hin0 & Hadmin0) Hself.
  destruct (decide (id0 = acc_id user)) as [->|Hne0].
  2: { apply has_admin_insert. exists id0, a0. auto. }
  assert (a0 = user) as -> by congruence.
  assert (Ho : organization = acc_organizationId me).
  { unfold is_active_admin in Hadmin0. rewrite !andb_true_iff in Hadmin0.
    destruct Hadmin0 as [[Ho _] _]. apply String.eqb_eq in Ho. congruence. }
  destruct (decide (acc_id user = acc_id me)) as [Hsame|Hother].
  - destruct (Hself Hsame) as [Hstill | Hmore].
    + exists (acc_id user), changed. split; [apply lookup_insert_eq|].
      rewrite Ho. exact Hstill.
    + apply has_admin_insert. rewrite Ho.
      destruct (another_admin users (acc_organizationId me) (acc_id me) Hmore)
        as (id & a & Hne & Hin & Ha).
      exists id, a. split; [congruence | auto].
  - apply has_admin_insert. exists (acc_id me), me. rewrite Ho. auto.
Qed.

(** X25. No organization loses its last administrator through the role
    and deactivation routes: when the requester is a stored, active
    administrator, every organization that has an active administrator
    before [PUT /:userId/role] or [PUT /:userId/deactivate] has one
    afterwards, whoever the target and whatever the new role. *)
Theorem last_admin_stays (users : gmap string Account) (me : Account)
    (userId role : string) :
  keyed users ->
  users !! acc_id me = Some me ->
  is_active_admin (acc_organizationId me) me = true ->
  forall organization,
    has_admin organization users ->
    has_admin organization (change_role users me userId role).2
    /\ has_admin organization (deactivate users me userId).2.
Proof.
  intros Hkeyed Hme Hadmin organization Hhas. split.
  - unfold change_role.
    destruct (findOne_member users userId (acc_organizationId me)) as [user|] eqn:Hf;
      [|exact Hhas].
    apply findOne_member_Some in Hf as (Hin & Horg & Hactive).
    pose proof (Hkeyed _ _ Hin) as Hid.
    destruct (String.eqb_spec (acc_id user) (acc_id me)) as [Hsame|Hother]; cbn [andb].
    + destruct (String.eqb_spec role "admin") as [->|Hrole]; cbn [negb andb].
      * cbn [snd]. apply (admin_remains users me user); auto; [congruence|].
        intros Hself. left.
        assert (user = me) as -> by congruence.
        unfold is_active_admin in *. rewrite !andb_true_iff in Hadmin.
        destruct Hadmin as [[Ho _] Ha].
        cbn. rewrite Ho, Ha. reflexivity.
      * destruct (Nat.leb_spec (adminCount users (acc_organizationId me)) 1)
          as [Hle|Hgt]; [exact Hhas|].
        cbn [snd]. apply (admin_remains users me user); auto; try congruence.
    + cbn [snd]. apply (admin_remains users me user); auto; try congruence;
        intros Hsame; contradiction.
  - unfold deactivate.
    destruct (findOne_member users userId (acc_organizationId me)) as [user|] eqn:Hf;
      [|exact Hhas].
    apply findOne_member_Some in Hf as (Hin & Horg & Hactive).
    pose proof (Hkeyed _ _ Hin) as Hid.
    destruct (String.eqb_spec (acc_id user) (acc_id me)) as [Hsame|Hother]; cbn [andb].
    + destruct (Nat.leb_spec (adminCount users (acc_organizationId me)) 1)
        as [Hle|Hgt]; [exact Hhas|].
      cbn [snd]. apply (admin_remains users me user); auto; try congruence.
    + cbn [snd]. apply (admin_remains users me user); auto; try congruence;
        intros Hsame; contradiction.
Qed.

(** The only administrator of the sample organization asks to become a
    viewer, and to be deactivated. *)
Lemma last_admin_stays_witness :
  has_admin "o1" (change_role Cases.staff Cases.boss "a1" "viewer").2
  /\ has_admin "o1" (deactivate Cases.staff Cases.boss "a1").2.
Proof.
  apply (last_admin_stays Cases.staff Cases.boss "a1" "viewer").
  - intros id a H. unfold Cases.staff in H.
    apply lookup_insert_Some in H as [[<- <-]|[_ H]]; [reflexivity|].
    apply lookup_singleton_Some in H as [<- <-]. reflexivity.
  - reflexivity.
  - reflexivity.
  - exists "a1", Cases.boss. split; reflexivity.
Defined.

End Administrators.

Section Emails.

Import Accounts.

(** The lookup finds nobody exactly when no other document holds the email. *)
Lemma findOne_email_None (users : gmap string Account) (email me : string) :
  findOne_email users email me = None ->
  forall id a, users !! id = Some a -> acc_email a = email -> id = me.
Proof.
  unfold findOne_email. intros Hnone id a Hin Hmail.
  destruct (decide (id = me)) as [E|Hne]; [exact E|exfalso].
  destruct (map_to_list _) as [|kv l] eqn:El; [|discriminate Hnone].
  apply map_to_list_empty_iff in El.
  assert (Hfound : filter (fun kv => acc_email kv.2 = email /\ kv.1 <> me) users !! id
                   = Some a).
  { apply map_lookup_filter_Some. split; [exact Hin|]. split; assumption. }
  rewrite El, lookup_empty in Hfound. discriminate Hfound.
Qed.

(** X26. A profile update cannot give two users the same email: when no
    two stored users share an email before [PUT /profile], none do
    afterwards, whatever email the body carries (a validated email is not
    empty); an email that another user holds is refused with 400 and
    nothing changes. *)
Theorem emails_stay_unique (users : gmap string Account) (me : Account)
    (email : option string) :
  emails_unique users ->
  email <> Some EmptyString ->
  emails_unique (update_profile users me email).2
  /\ (forall e other id,
        email = Some e -> users !! id = Some other -> acc_email other = e ->
        id <> acc_id me ->
        update_profile users me email = (400, users)).
Proof.
  intros Huniq Hvalid. split.
  - unfold update_profile.
    destruct email as [[|c e]|]; [congruence| |].
    + cbn [JsString.nonempty].
      destruct (findOne_email users (String c e) (acc_id me)) eqn:Hfind; [exact Huniq|].
      destruct (users !! acc_id me) as [user|] eqn:Hme; [|exact Huniq].
      cbn [snd]. intros i j a b Hi Hj Hmail.
      destruct (decide (i = acc_id me)) as [->|Hi'];
        destruct (decide (j = acc_id me)) as [->|Hj']; [reflexivity| | |].
      * rewrite lookup_insert_eq in Hi. injection Hi as <-.
        rewrite lookup_insert_ne in Hj by congruence.
        symmetry. apply (findOne_email_None _ _ _ Hfind j b Hj). symmetry. exact Hmail.
      * rewrite lookup_insert_eq in Hj. injection Hj as <-.
        rewrite lookup_insert_ne in Hi by congruence.
        apply (findOne_email_None _ _ _ Hfind i a Hi). exact Hmail.
      * rewrite lookup_insert_ne in Hi by congruence.
        rewrite lookup_insert_ne in Hj by congruence. eauto.
    + cbn [JsString.nonempty]. destruct (users !! acc_id me); exact Huniq.
  - intros e other id -> Hin Hmail Hne. unfold update_profile.
    destruct e as [|c e]; [congruence|]. cbn [JsString.nonempty].
    destruct (findOne_email users (String c e) (acc_id me)) eqn:Hfind; [reflexivity|].
    exfalso. apply Hne. exact (findOne_email_None _ _ _ Hfind id other Hin Hmail).
Qed.

(** The administrator of the sample organization asks for the email of the
    clerk. *)
Lemma emails_stay_unique_witness :
  update_profile Cases.staff Cases.boss (Some "clerk@example.org") = (400, Cases.staff).
Proof.
  refine (proj2 (emails_stay_unique Cases.staff Cases.boss (Some "clerk@example.org") _ _)
            "clerk@example.org" Cases.clerk "a2" eq_refl _ eq_refl _).
  - intros i j a b Hi Hj Hmail. unfold Cases.staff in Hi, Hj.
    apply lookup_insert_Some in Hi as [[<- <-]|[_ Hi]];
      apply lookup_insert_Some in Hj as [[<- <-]|[_ Hj]];
      try apply lookup_singleton_Some in Hi as [<- <-];
      try apply lookup_singleton_Some in Hj as [<- <-];
      try reflexivity; discriminate Hmail.
  - discriminate.
  - reflexivity.
  - discriminate.
Defined.

End Emails.

(** ** Names of the stored uploads *)

Section StoredNames.

Import UploadNames TokenSpec.


Lemma all_chars_free (p : ascii -> bool) (c : ascii) (s : string) :
  p c = false -> all_chars p s = true -> free_of c s = true.
Proof.
  intros Hc. induction s as [|x s IH]; [reflexivity|].
  cbn [all_chars free_of]. rewrite andb_true_iff. intros [Hx Hs].
  rewrite (IH Hs), andb_true_r. apply negb_true_iff.
  destruct (Ascii.eqb_spec x c) as [->|]; [congruence | reflexivity].
Qed.

(** X27. The base of a stored file name is harmless whatever the client
    sends as the original name: sanitizing keeps the length, leaves only
    letters, digits, [-] and [_], hence no path separator, no dot and no
    space; it changes nothing in a name that is already clean, so that it
    is idempotent. *)
Theorem sanitize_is_safe (baseName : string) :
  String.length (sanitize baseName) = String.length baseName
  /\ all_chars kept (sanitize baseName) = true
  /\ free_of "/" (sanitize baseName) = true
  /\ free_of "\" (sanitize baseName) = true
  /\ free_of "." (sanitize baseName) = true
  /\ free_of " " (sanitize baseName) = true
  /\ (all_chars kept baseName = true -> sanitize baseName = baseName)
  /\ sanitize (sanitize baseName) = sanitize baseName.
Proof.
  assert (Hkept : all_chars kept (sanitize baseName) = true).
  { induction baseName as [|c s IH]; [reflexivity|].
    cbn [sanitize all_chars]. rewrite IH, andb_true_r.
    destruct (kept c) eqn:E; [exact E | reflexivity]. }
  assert (Hclean : forall s, all_chars kept s = true -> sanitize s = s).
  { intros s. induction s as [|c s IH]; intros H; [reflexivity|].
    cbn [sanitize all_chars] in *. apply andb_true_iff in H as [Hc Hs].
    rewrite Hc, (IH Hs). reflexivity. }
  split.
  { clear. induction baseName as [|c s IH]; [reflexivity|].
    cbn [sanitize String.length]. rewrite IH. reflexivity. }
  split; [exact Hkept|].
  repeat (split; [apply (all_chars_free kept); [reflexivity | exact Hkept]|]).
  split; [apply Hclean | apply Hclean; exact Hkept].
Qed.

End StoredNames.

(** ** No record is removed *)

Section Store.

Lemma records_kept_stable : stable records_kept.
Proof.
  split.
  - intros e w H. exact H.
  - intros c w Hc (Hk & Hs). split; [exact Hk|].
    intros v [Hin|Hin]; [subst c; discriminate Hc | exact (Hs v Hin)].
  - intros f w H. exact H.
Qed.

Lemma kept_hold (v : Video) : keeps records_kept (hold v).
Proof. intros w H. exact H. Qed.

Lemma kept_the_video : keeps records_kept the_video.
Proof. intros w Hw. unfold the_video. destruct (held w); exact Hw. Qed.

Lemma kept_mutate (f : Video -> Video) : keeps records_kept (mutate f).
Proof.
  intros w Hw. unfold mutate, bind, the_video.
  destruct (held w) as [v|]; exact Hw.
Qed.

(** Writing [v] under its own id keeps the store. *)
Lemma kept_write (v : Video) (w : World) :
  records_kept w ->
  records_kept (set_db (fun docs => <[ _id v := v ]> docs) (push_call (Save v) w)).
Proof.
  intros (Hk & Hs). split; cbn.
  - intros id v' Hl. destruct (decide (_id v = id)) as [<-|Hne].
    + rewrite lookup_insert_eq in Hl. injection Hl as <-. reflexivity.
    + rewrite lookup_insert_ne in Hl by exact Hne. eauto.
  - intros v' [Hin|Hin].
    + injection Hin as <-. rewrite lookup_insert_eq. eexists. reflexivity.
    + destruct (decide (_id v = _id v')) as [E|Hne].
      * rewrite E, lookup_insert_eq. eexists. reflexivity.
      * rewrite lookup_insert_ne by exact Hne. auto.
Qed.

Lemma kept_save : keeps records_kept save.
Proof.
  intros w Hw. unfold save, bind, the_video.
  destruct (held w) as [v|] eqn:E; [|exact Hw].
  exact (kept_write v w Hw).
Qed.

(** One step of a proof that a route keeps the store. *)
Ltac kept_step :=
  first
    [ apply kept_save
    | apply kept_hold
    | apply kept_mutate
    | apply kept_the_video
    | apply keeps_analyzeSensitivity; apply records_kept_stable
    | apply keeps_extractVideoMetadata; apply records_kept_stable
    | apply keeps_generateThumbnail; apply records_kept_stable
    | apply keeps_optimizeVideoForStreaming; apply records_kept_stable
    | apply keeps_emit_to; apply records_kept_stable
    | apply keeps_call; [apply records_kept_stable | reflexivity]
    | apply keeps_ret
    | apply keeps_throw
    | apply keeps_bind; [|intros ?]
    | apply keeps_try_catch; [|intros ?]
    | match goal with
      | |- keeps _ (match ?x with _ => _ end) => destruct x
      | |- keeps _ (if ?x then _ else _) => destruct x
      end ].

Lemma kept_read_db {A} (k : gmap string Video -> M A) :
  (forall docs, keeps records_kept (k docs)) ->
  keeps records_kept (bind (fun w => (Returned (db w), w)) k).
Proof. intros Hk w Hw. unfold bind. apply Hk. exact Hw. Qed.

Lemma kept_processVideoAsync (env : Env) (video : Video) (io : option Io) :
  keeps records_kept (processVideoAsync env video io).
Proof. unfold processVideoAsync, updateProgress. repeat kept_step. Qed.

Lemma kept_upload (env : Env) (app : gmap string Io) (video : Video) :
  keeps records_kept (upload env app video).
Proof. unfold upload. repeat first [apply kept_processVideoAsync | kept_step]. Qed.

Lemma kept_reanalyze (env : Env) (app : gmap string Io) (id : string) :
  keeps records_kept (reanalyze env app id).
Proof.
  unfold reanalyze. apply keeps_try_catch; [|intros e; repeat kept_step].
  apply kept_read_db. intros docs. repeat kept_step.
Qed.

Lemma kept_view (user : User) (id : string) : keeps records_kept (view user id).
Proof.
  unfold view. apply keeps_try_catch; [|intros e; repeat kept_step].
  apply kept_read_db. intros docs. repeat kept_step.
Qed.

Lemma kept_delete_video (user : User) (id : string) :
  keeps records_kept (delete_video user id).
Proof.
  unfold delete_video. apply keeps_try_catch; [|intros e; repeat kept_step].
  apply kept_read_db. intros docs. repeat kept_step.
Qed.

Lemma id_of_updated (video : Video) (new_title : option string)
    (new_visibility : option Visibility) :
  _id match new_visibility with
      | Some x => set_visibility x match new_title with
                                   | Some t => set_title t video
                                   | None => video
                                   end
      | None => match new_title with
                | Some t => set_title t video
                | None => video
                end
      end = _id video.
Proof. destruct new_visibility, new_title; reflexivity. Qed.

(** The edit writes the document it found back under the id it was found
    under. *)
Lemma kept_update_video (user : User) (id : string) (new_title : option string)
    (new_visibility : option Visibility) :
  keeps records_kept (update_video user id new_title new_visibility).
Proof.
  intros w Hw. unfold update_video, try_catch, bind.
  destruct (findOne_active (db w) id (user_organizationId user)) as [video|] eqn:E;
    [|exact Hw].
  apply findOne_active_Some in E.
  destruct (_ && _); [exact Hw|].
  assert (Hid : _id video = id) by (destruct Hw as [Hk _]; eauto).
  cbn [call modify ret fst snd].
  pose proof (id_of_updated video new_title new_visibility) as Hsame.
  set (updated := match new_visibility with Some _ => _ | None => _ end) in *.
  rewrite <- Hid, <- Hsame. exact (kept_write updated w Hw).
Qed.

Lemma reachable_kept (w : World) : reachable w -> records_kept w.
Proof.
  induction 1 as [|w env id title filename filePath fileSize mimeType user org vis _ IH
                  |w env id _ IH|w user id _ IH|w user id nt nv _ IH|w user id _ IH].
  - split.
    + intros id v E. cbn in E. rewrite lookup_empty in E. discriminate E.
    + intros v [].
  - pose proof (kept_upload env server_app
                  (new_Video id title filename filePath fileSize mimeType user org vis)
                  w IH) as H.
    unfold world_after. destruct (upload _ _ _ w) as [[r|e] w']; exact H.
  - pose proof (kept_reanalyze env server_app id w IH) as H.
    unfold world_after. destruct (reanalyze _ _ _ w) as [[r|e] w']; exact H.
  - pose proof (kept_view user id w IH) as H.
    unfold world_after. destruct (view _ _ w) as [[r|e] w']; exact H.
  - pose proof (kept_update_video user id nt nv w IH) as H.
    unfold world_after. destruct (update_video _ _ _ _ w) as [[r|e] w']; exact H.
  - pose proof (kept_delete_video user id w IH) as H.
    unfold world_after. destruct (delete_video _ _ w) as [[r|e] w']; exact H.
Qed.

(** X28. No record is ever removed: in every world the server can reach by
    uploads, re-analyses, views, edits and deletions, every document that
    was ever written still has a document stored under its id, and every
    stored document sits under its own id. A deletion only marks the
    record. *)
Theorem records_are_never_removed (w : World) (v : Video) :
  reachable w -> record_state w v ->
  exists stored, db w !! _id v = Some stored /\ _id stored = _id v.
Proof.
  intros Hw Hv. destruct (reachable_kept w Hw) as [Hk Hs].
  destruct (Hs v Hv) as [stored E]. exists stored. split; [exact E | eauto].
Qed.

(** The sample video after its upload and its deletion by the owner. *)
Lemma records_are_never_removed_witness :
  exists stored,
    db (world_after (delete_video Sample.owner "v1") Sample.processed_world)
      !! _id Sample.processed = Some stored
    /\ _id stored = _id Sample.processed.
Proof.
  apply (records_are_never_removed
           (world_after (delete_video Sample.owner "v1") Sample.processed_world)
           Sample.processed).
  - apply reach_delete.
    apply (reach_upload _ Sample.env "v1" "Holiday" "holiday-1.mp4"
             "uploads/videos/holiday-1.mp4" 1000 "video/mp4" "u1" "o1" private).
    apply reach_start.
  - vm_compute. right. left. reflexivity.
Defined.

End Store.
